(** * PHOS filter/query transform engine: a shallow embedding

    The development follows the JavaScript sources of the engine:

    - [FilterSearch]         (components/FilterSearch.js): the textual filter
      expression parser and serializer;
    - [SpecManager]          (core/SpecManager.js): the transform builder;
    - [NativeArrayProvider]  (providers/NativeArrayProvider.js): the in-memory
      executor, schema inference and row mutations;
    - [DuckDBWasmProvider]   (providers/DuckDBWasmProvider.js): the SQL
      translator and executor.

    Conventions of the embedding.  A JavaScript string is a [string] of 8-bit
    code units (code units above 255 are outside the model).  A JavaScript
    number is an integer [Z] (fractions, NaN and the infinities are outside
    the model; where the language produces NaN the model has [None]).  Objects
    used as records are association lists in key order.  An [async] method is
    its result, a thrown exception is the left injection of a sum. *)

From Stdlib Require Import List String Ascii ZArith Lia Bool DecimalString.
From Stdlib Require Import Permutation Sorted.
Import ListNotations.

Set Warnings "-register-all".

Open Scope string_scope.
Open Scope list_scope.
Open Scope nat_scope.

(* ================================================================== *)
(** * The fragment of the JavaScript language the engine relies on *)
(* ================================================================== *)

Module Js.

(** Values held by record fields and filter values. *)
Inductive Value : Type :=
| VUndefined
| VNull
| VBool (b : bool)
| VNum (n : Z)
| VStr (s : string)
| VArr (elems : list Value).

(** The built-ins whose result the language leaves to the host, or whose
    result may fall outside the integer model: [Number(s)] on a string
    ([None] is NaN) and whether [Date.parse(s)] is a number. *)
Record Host : Type := {
  StringToNumber : string -> option Z;
  DateParses : string -> bool
}.

(** ** Characters and strings *)

Definition code (c : ascii) : nat := nat_of_ascii c.

(** [\s] of a regular expression, and the characters [trim] removes. *)
Definition is_space (c : ascii) : bool :=
  let n := code c in
  ((9 <=? n) && (n <=? 13)) || (n =? 32) || (n =? 160).

(** [\w] of a regular expression. *)
Definition is_word (c : ascii) : bool :=
  let n := code c in
  ((48 <=? n) && (n <=? 57)) || ((65 <=? n) && (n <=? 90))
  || (n =? 95) || ((97 <=? n) && (n <=? 122)).

(** [\d] of a regular expression. *)
Definition is_digit (c : ascii) : bool :=
  let n := code c in (48 <=? n) && (n <=? 57).

(** The upper-case image of a character.  The sharp s (223) becomes two
    letters; the micro sign (181) and the y with diaeresis (255) have their
    images above 255 and are left as they are. *)
Definition upper_chars (c : ascii) : string :=
  let n := code c in
  if ((97 <=? n) && (n <=? 122))
     || ((224 <=? n) && (n <=? 254) && negb (n =? 247))
  then String (ascii_of_nat (n - 32)) EmptyString
  else if n =? 223 then "SS"
  else String c EmptyString.

Definition lower_char (c : ascii) : ascii :=
  let n := code c in
  if ((65 <=? n) && (n <=? 90))
     || ((192 <=? n) && (n <=? 222) && negb (n =? 215))
  then ascii_of_nat (n + 32) else c.

(** Every character of [s] satisfies [f]. *)
Fixpoint all_chars (f : ascii -> bool) (s : string) : bool :=
  match s with
  | EmptyString => true
  | String c r => f c && all_chars f r
  end.

(** [s] is not empty and its first character satisfies [f]. *)
Definition first_is (f : ascii -> bool) (s : string) : bool :=
  match s with
  | EmptyString => false
  | String c _ => f c
  end.

Fixpoint map_string (f : ascii -> ascii) (s : string) : string :=
  match s with
  | EmptyString => EmptyString
  | String c r => String (f c) (map_string f r)
  end.

(** [s.toUpperCase()]. *)
Fixpoint toUpperCase (s : string) : string :=
  match s with
  | EmptyString => EmptyString
  | String c r => (upper_chars c ++ toUpperCase r)%string
  end.

(** [s.toLowerCase()]. *)
Definition toLowerCase (s : string) : string := map_string lower_char s.

(** [s.startsWith(p)]. *)
Definition startsWith (s p : string) : bool := String.prefix p s.

(** [s.includes(p)]. *)
Fixpoint includes (s p : string) : bool :=
  String.prefix p s
  || match s with
     | EmptyString => false
     | String _ r => includes r p
     end.

(** [s.split(c)] for a one-character separator. *)
Fixpoint split (sep : ascii) (s : string) : list string :=
  match s with
  | EmptyString => [EmptyString]
  | String c r =>
      if Ascii.eqb c sep then EmptyString :: split sep r
      else match split sep r with
           | [] => [String c EmptyString]
           | h :: t => String c h :: t
           end
  end.

(** [parts.join(sep)] on strings. *)
Definition join (sep : string) (parts : list string) : string :=
  String.concat sep parts.

Fixpoint trimStart (s : string) : string :=
  match s with
  | EmptyString => EmptyString
  | String c r => if is_space c then trimStart r else s
  end.

Fixpoint rev_string (s acc : string) : string :=
  match s with
  | EmptyString => acc
  | String c r => rev_string r (String c acc)
  end.

(** [s.trim()]. *)
Definition trim (s : string) : string :=
  rev_string (trimStart (rev_string (trimStart s) EmptyString)) EmptyString.

(** ** Conversions *)

(** The decimal numeral of an integer, as [String(n)] prints it (integers
    below 10^21 in absolute value; beyond, the language switches to the
    exponent notation). *)
Definition Z_to_string (n : Z) : string :=
  NilZero.string_of_int (Z.to_int n).

(** [String(v)]; an array prints its elements separated by commas, with
    [null] and [undefined] elements printed as the empty string. *)
Fixpoint ToString (v : Value) : string :=
  match v with
  | VUndefined => "undefined"
  | VNull => "null"
  | VBool true => "true"
  | VBool false => "false"
  | VNum n => Z_to_string n
  | VStr s => s
  | VArr elems =>
      join ","
        (map (fun e => match e with
                       | VUndefined | VNull => EmptyString
                       | _ => ToString e
                       end) elems)
  end.

(** [Number(v)]; [None] is NaN. *)
Definition ToNumber (h : Host) (v : Value) : option Z :=
  match v with
  | VUndefined => None
  | VNull => Some 0%Z
  | VBool true => Some 1%Z
  | VBool false => Some 0%Z
  | VNum n => Some n
  | VStr s => StringToNumber h s
  | VArr _ => StringToNumber h (ToString v)
  end.

(** Truthiness, as [if (v)], [!v] and [v || w] test it. *)
Definition truthy (v : Value) : bool :=
  match v with
  | VUndefined | VNull => false
  | VBool b => b
  | VNum n => negb (n =? 0)%Z
  | VStr s => negb (String.eqb s EmptyString)
  | VArr _ => true
  end.

(** [v || w]. *)
Definition or_else (v w : Value) : Value := if truthy v then v else w.

(** ** Comparisons *)

(** [a === b], which is also the test of [Array.prototype.includes] on the
    values of the model.  Two arrays are equal only when they are the same
    object; the arrays compared by the engine (a record field and a filter
    value) are distinct objects. *)
Definition strict_eq (a b : Value) : bool :=
  match a, b with
  | VUndefined, VUndefined => true
  | VNull, VNull => true
  | VBool x, VBool y => Bool.eqb x y
  | VNum x, VNum y => (x =? y)%Z
  | VStr x, VStr y => String.eqb x y
  | _, _ => false
  end.

(** [arr.includes(x)]. *)
Definition arr_includes (arr : list Value) (x : Value) : bool :=
  existsb (fun e => strict_eq e x) arr.

(** [v == null]. *)
Definition is_nullish (v : Value) : bool :=
  match v with
  | VUndefined | VNull => true
  | _ => false
  end.

(** [Array.isArray(v)]. *)
Definition isArray (v : Value) : bool :=
  match v with
  | VArr _ => true
  | _ => false
  end.

Definition ToPrimitive (v : Value) : Value :=
  match v with
  | VArr _ => VStr (ToString v)
  | _ => v
  end.

(** The abstract relational comparison [a < b]; [None] is its undefined
    result (an operand converts to NaN). *)
Definition lt_opt (h : Host) (a b : Value) : option bool :=
  match ToPrimitive a, ToPrimitive b with
  | VStr s, VStr t => Some (String.ltb s t)
  | pa, pb =>
      match ToNumber h pa, ToNumber h pb with
      | Some x, Some y => Some (x <? y)%Z
      | _, _ => None
      end
  end.

Definition is_true (r : option bool) : bool :=
  match r with Some true => true | _ => false end.

Definition is_false (r : option bool) : bool :=
  match r with Some false => true | _ => false end.

(** [a < b], [a > b], [a >= b], [a <= b]. *)
Definition lt (h : Host) (a b : Value) : bool := is_true (lt_opt h a b).
Definition gt (h : Host) (a b : Value) : bool := is_true (lt_opt h b a).
Definition ge (h : Host) (a b : Value) : bool := is_false (lt_opt h a b).
Definition le (h : Host) (a b : Value) : bool := is_false (lt_opt h b a).

(** ** Arrays *)

(** [arr.slice(start, end)] on integer bounds: a negative bound counts from
    the end of the array, and both bounds are clamped to [0, length]. *)
Definition clamp_index (len i : Z) : Z :=
  if (i <? 0)%Z then Z.max (len + i) 0 else Z.min i len.

Definition slice {A : Type} (arr : list A) (start stop : Z) : list A :=
  let len := Z.of_nat (List.length arr) in
  let k := clamp_index len start in
  let final := clamp_index len stop in
  firstn (Z.to_nat (final - k)) (skipn (Z.to_nat k) arr).

(** [arr.sort(cmp)]: the sort is stable; [cmp a b] is the sign of the
    comparator.  Insertion from the right keeps equal elements in their
    original order. *)
Fixpoint insert_sorted {A : Type} (cmp : A -> A -> Z) (x : A) (l : list A)
  : list A :=
  match l with
  | [] => [x]
  | y :: r => if (cmp x y <=? 0)%Z then x :: l
              else y :: insert_sorted cmp x r
  end.

Fixpoint sort {A : Type} (cmp : A -> A -> Z) (l : list A) : list A :=
  match l with
  | [] => []
  | x :: r => insert_sorted cmp x (sort cmp r)
  end.

(** ** Objects used as records and maps *)

(** A plain object as a map from string keys, in key order. *)
Definition Dict (A : Type) : Type := list (string * A).

(** [key in obj], with the value. *)
Fixpoint lookup {A : Type} (obj : Dict A) (key : string) : option A :=
  match obj with
  | [] => None
  | (k, v) :: r => if String.eqb k key then Some v else lookup r key
  end.

(** [obj[key] = v]: an existing key keeps its place, a new key goes last. *)
Fixpoint set {A : Type} (obj : Dict A) (key : string) (v : A) : Dict A :=
  match obj with
  | [] => [(key, v)]
  | (k, w) :: r =>
      if String.eqb k key then (k, v) :: r else (k, w) :: set r key v
  end.

(** [Object.keys(obj)]. *)
Definition keys {A : Type} (obj : Dict A) : list string := map fst obj.

Definition Obj : Type := Dict Value.

(** [obj[key]] on a record. *)
Definition get (obj : Obj) (key : string) : Value :=
  match lookup obj key with
  | Some v => v
  | None => VUndefined
  end.

(** ** Exceptions *)

Inductive Exn : Type :=
| Error (message : string)
| TypeError (message : string).

(** The outcome of a call that may throw. *)
Definition Result (A : Type) : Type := (Exn + A)%type.

Definition ret {A : Type} (a : A) : Result A := inr a.
Definition throw {A : Type} (e : Exn) : Result A := inl e.

Definition bind {A B : Type} (m : Result A) (k : A -> Result B) : Result B :=
  match m with
  | inl e => inl e
  | inr a => k a
  end.

(** [arr.map(f)] where [f] may throw: the first exception aborts the map. *)
Fixpoint mapM {A B : Type} (f : A -> Result B) (l : list A)
  : Result (list B) :=
  match l with
  | [] => ret []
  | x :: r => bind (f x) (fun y => bind (mapM f r) (fun ys => ret (y :: ys)))
  end.

(** ** Further array and object operations *)

(** [delete obj[key]]. *)
Definition remove {A : Type} (obj : Dict A) (key : string) : Dict A :=
  filter (fun kv => negb (String.eqb (fst kv) key)) obj.

(** [arr.splice(i, 1)] on an index that is a natural number: the array
    without its element at [i]; an index beyond the end removes nothing. *)
Fixpoint removeAt {A : Type} (i : nat) (l : list A) : list A :=
  match l, i with
  | [], _ => []
  | _ :: r, 0 => r
  | x :: r, S j => x :: removeAt j r
  end.

(** [arr.splice(i, 0, x)]: [x] inserted before index [i]; an index beyond
    the end appends. *)
Fixpoint insertAt {A : Type} (i : nat) (x : A) (l : list A) : list A :=
  match i, l with
  | 0, _ => x :: l
  | S _, [] => [x]
  | S j, y :: r => y :: insertAt j x r
  end.

(** [new Set()] filled by [add]: a value already in the set is not added
    again, the others keep their insertion order. *)
Definition setAdd (seen : list Value) (v : Value) : list Value :=
  if arr_includes seen v then seen else seen ++ [v].

(** The comparator of [arr.sort()] without argument: the elements are
    compared as strings, by code units. *)
Definition defaultCompare (a b : Value) : Z :=
  if String.ltb (ToString a) (ToString b) then (-1)%Z
  else if String.ltb (ToString b) (ToString a) then 1%Z
  else 0%Z.

End Js.

Import Js.

Notation "x <- m ;; k" := (Js.bind m (fun x => k))
  (at level 61, m at next level, right associativity).

(* ================================================================== *)
(** * The data model shared by the transform builder and the executors *)
(* ================================================================== *)

Definition Row : Type := Obj.

(** A canonical filter as the executors read it.  [columns] is the optional
    list of a multi-column search, read by the native executor only. *)
Module CanonicalFilter.
Record t : Type := make {
  column : string;
  columns : option (list string);
  operator : string;
  value : Value;
  mode : option string
}.
End CanonicalFilter.

Module SortRule.
Record t : Type := make {
  column : string;
  direction : string
}.
End SortRule.

(** [{limit, offset}]; either field may be [undefined]. *)
Module Pagination.
Record t : Type := make {
  limit : option Z;
  offset : option Z
}.
End Pagination.

Module TransformState.
Record t : Type := make {
  filters : list CanonicalFilter.t;
  sort : list SortRule.t;
  pagination : option Pagination.t
}.
End TransformState.

Module Schema.
Record t : Type := make {
  columns : list (Value * Value);      (* [{name, type}] *)
  types : Dict Value;                  (* name -> type *)
  hierarchy : Dict string;             (* name -> delimiter *)
  aliases : Dict string
}.
Definition empty : t := make [] [] [] [].
End Schema.

(** An entry of the spec's filter list. *)
Module FilterEntry.
Record t : Type := make {
  column : string;
  operator : string;
  value : Value;
  enabled : bool;            (* the truthiness of the field *)
  mode : option string
}.
End FilterEntry.

Module QueryResult.
Record t : Type := make {
  data : list Row;
  totalCount : Value;
  schema : Schema.t
}.
End QueryResult.

(* ================================================================== *)
(** * NativeArrayProvider.js *)
(* ================================================================== *)

Module NativeArrayProvider.

Record t : Type := make {
  data : list Row;
  schema : Schema.t
}.

Section WithHost.
Variable h : Host.

(** [inferType(value)]. *)
Definition inferType (value : Value) : string :=
  match value with
  | VUndefined | VNull => "string"
  | VNum _ => "number"
  | VBool _ => "boolean"
  | VStr s =>
      if DateParses h s then "date"
      else match StringToNumber h s with
           | Some _ => "number"
           | None => "string"
           end
  | VArr _ => "string"
  end.

(** The body of the [forEach] of [inferSchema], for one key of the sample. *)
Definition inferColumn (sample : Row) (acc : Schema.t) (key : string)
  : Schema.t :=
  if startsWith key "__" then acc
  else
    let type := inferType (get sample key) in
    let columns := Schema.columns acc ++ [(VStr key, VStr type)] in
    let types := set (Schema.types acc) key (VStr type) in
    match get sample key with
    | VStr s =>
        if includes s ">" then
          Schema.make columns (set types key (VStr "hierarchy"))
            (set (Schema.hierarchy acc) key ">") (Schema.aliases acc)
        else Schema.make columns types (Schema.hierarchy acc)
               (Schema.aliases acc)
    | _ => Schema.make columns types (Schema.hierarchy acc)
             (Schema.aliases acc)
    end.

(** [inferSchema(data)]. *)
Definition inferSchema (data : list Row) : Schema.t :=
  match data with
  | [] => Schema.empty
  | sample :: _ => fold_left (inferColumn sample) (keys sample) Schema.empty
  end.

(** [checkCondition(value, operator, filterValue)]. *)
Definition checkCondition (value : Value) (operator : string)
  (filterValue : Value) : bool :=
  if String.eqb operator "=" then
    match value with
    | VArr a => arr_includes a filterValue
    | _ => strict_eq value filterValue
    end
  else if String.eqb operator "!=" then
    match value with
    | VArr a => negb (arr_includes a filterValue)
    | _ => negb (strict_eq value filterValue)
    end
  else if String.eqb operator ">" then gt h value filterValue
  else if String.eqb operator "<" then lt h value filterValue
  else if String.eqb operator ">=" then ge h value filterValue
  else if String.eqb operator "<=" then le h value filterValue
  else if String.eqb operator "LIKE" then
    includes (ToString value) (ToString filterValue)
  else if String.eqb operator "ILIKE" then
    includes (toLowerCase (ToString value))
      (toLowerCase (ToString filterValue))
  else if String.eqb operator "IN" then
    match filterValue with
    | VArr fvs => arr_includes fvs value
    | _ => false
    end
  else if String.eqb operator "in" then
    match value, filterValue with
    | VArr a, VArr fvs => existsb (fun fv => arr_includes a fv) fvs
    | _, VArr fvs => arr_includes fvs value
    | _, _ => false
    end
  else if String.eqb operator "in_all" then
    match value, filterValue with
    | VArr a, VArr fvs => forallb (fun fv => arr_includes a fv) fvs
    | _, VArr fvs =>
        let rowValues := map trim (split "," (ToString value)) in
        forallb (fun fv => arr_includes (map VStr rowValues) fv) fvs
    | _, _ => false
    end
  else if String.eqb operator "BETWEEN" then
    match filterValue with
    | VArr fvs =>
        ge h value (nth 0 fvs VUndefined) && le h value (nth 1 fvs VUndefined)
    | _ => false
    end
  else if String.eqb operator "IS NULL" then is_nullish value
  else if String.eqb operator "IS NOT NULL" then negb (is_nullish value)
  else true.

(** The callback of [filters.every] in [matchesFilters]. *)
Definition matchesFilter (row : Row) (filter : CanonicalFilter.t) : bool :=
  match CanonicalFilter.columns filter with
  | Some cols =>
      existsb (fun col => checkCondition (get row col)
                            (CanonicalFilter.operator filter)
                            (CanonicalFilter.value filter)) cols
  | None =>
      checkCondition (get row (CanonicalFilter.column filter))
        (CanonicalFilter.operator filter) (CanonicalFilter.value filter)
  end.

(** [matchesFilters(row, filters)]. *)
Definition matchesFilters (row : Row) (filters : list CanonicalFilter.t)
  : bool :=
  forallb (matchesFilter row) filters.

(** The comparator of [applySorting]. *)
Fixpoint compareRows (sort : list SortRule.t) (a b : Row) : Z :=
  match sort with
  | [] => 0%Z
  | rule :: rest =>
      let aVal := get a (SortRule.column rule) in
      let bVal := get b (SortRule.column rule) in
      let comparison :=
        if lt h aVal bVal then (-1)%Z
        else if gt h aVal bVal then 1%Z else 0%Z in
      if negb (comparison =? 0)%Z then
        if String.eqb (SortRule.direction rule) "asc" then comparison
        else (- comparison)%Z
      else compareRows rest a b
  end.

(** [applySorting(data, sort)]. *)
Definition applySorting (data : list Row) (sort : list SortRule.t)
  : list Row :=
  Js.sort (compareRows sort) data.

(** The pagination step of [query]: [filtered.slice(offset, offset + limit)]
    when [limit] is defined.  With [offset] undefined the end bound is NaN,
    which [slice] reads as 0. *)
Definition paginate (pagination : option Pagination.t) (filtered : list Row)
  : list Row :=
  match pagination with
  | Some pg =>
      match Pagination.limit pg, Pagination.offset pg with
      | Some limit, Some offset => slice filtered offset (offset + limit)
      | Some _, None => slice filtered 0 0
      | None, _ => filtered
      end
  | None => filtered
  end.

(** [query(transform)]. *)
Definition query (p : t) (transform : TransformState.t) : QueryResult.t :=
  let filters := TransformState.filters transform in
  let sort := TransformState.sort transform in
  let filtered := data p in
  let filtered :=
    if 0 <? List.length filters
    then filter (fun row => matchesFilters row filters) filtered
    else filtered in
  let filtered :=
    if 0 <? List.length sort then applySorting filtered sort else filtered in
  let totalCount := VNum (Z.of_nat (List.length filtered)) in
  let filtered := paginate (TransformState.pagination transform) filtered in
  QueryResult.make filtered totalCount (schema p).


(** ** Mutations *)

Definition has_rowid (rowId : Value) (r : Row) : bool :=
  strict_eq (get r "__rowid") rowId.

(** The value [updateCell] stores for an edited [value]. *)
Definition parseCellValue (p : t) (column : string) (value : Value) : Value :=
  if strict_eq value (VStr "true") then VBool true
  else if strict_eq value (VStr "false") then VBool false
  else
    match ToNumber h value with
    | Some n =>
        if negb (strict_eq value (VStr EmptyString))
           && negb (strict_eq value VNull)
        then
          match lookup (Schema.types (schema p)) column with
          | Some (VStr "number") => VNum n
          | _ => value
          end
        else value
    | None => value
    end.

(** [row[column] = v] on the first row carrying [rowId]. *)
Fixpoint assignFirst (rowId : Value) (column : string) (v : Value)
  (rows : list Row) : list Row :=
  match rows with
  | [] => []
  | r :: rest =>
      if has_rowid rowId r then set r column v :: rest
      else r :: assignFirst rowId column v rest
  end.

(** [updateCell(rowId, column, value)]. *)
Definition updateCell (p : t) (rowId : Value) (column : string)
  (value : Value) : Result t :=
  match find (has_rowid rowId) (data p) with
  | None =>
      throw (Error ("Row with ID " ++ ToString rowId ++ " not found.")%string)
  | Some _ =>
      ret (make (assignFirst rowId column (parseCellValue p column value)
                   (data p))
             (schema p))
  end.

(** [deleteRow(rowId)]. *)
Definition deleteRow (p : t) (rowId : Value) : Result t :=
  ret (make (filter (fun r => negb (has_rowid rowId r)) (data p)) (schema p)).

(** [data.splice(idx + 1, 0, newRow)] with [idx] the index of the first row
    carrying [rowId]. *)
Fixpoint insertAfterFirst (rowId : Value) (newRow : Row) (rows : list Row)
  : list Row :=
  match rows with
  | [] => []
  | r :: rest =>
      if has_rowid rowId r then r :: newRow :: rest
      else r :: insertAfterFirst rowId newRow rest
  end.

(** [duplicateRow(rowId)]; [now] is [Date.now()]. *)
Definition duplicateRow (now : Z) (p : t) (rowId : Value) : Result t :=
  match find (has_rowid rowId) (data p) with
  | Some row =>
      let newRow :=
        set row "__rowid"
          (VStr ("row_" ++ Z_to_string (Z.of_nat (List.length (data p)))
                 ++ "_" ++ Z_to_string now)%string) in
      ret (make (insertAfterFirst rowId newRow (data p)) (schema p))
  | None => ret p
  end.

(** ** Unique values, columns and CSV input *)

(** The test [v != null && v !== ''] of [getUniqueValues]. *)
Definition keepValue (v : Value) : bool :=
  negb (is_nullish v) && negb (strict_eq v (VStr EmptyString)).

(** The values [getUniqueValues] hands to the set for one row: the elements
    of an array field, or the field itself. *)
Definition rowValues (column : string) (row : Row) : list Value :=
  match get row column with
  | VArr vs => filter keepValue vs
  | v => if keepValue v then [v] else []
  end.

(** [getUniqueValues(column)]. *)
Definition getUniqueValues (p : t) (column : string) : list Value :=
  let valuesSet := fold_left setAdd (flat_map (rowValues column) (data p)) []
  in Js.sort defaultCompare valuesSet.

(** [schema.columns.some(c => c.name === name)]. *)
Definition hasColumn (p : t) (name : string) : bool :=
  existsb (fun c => strict_eq (fst c) (VStr name)) (Schema.columns (schema p)).

(** [addColumn(name, defaultValue = null)]: an argument that is absent or
    [undefined] takes the default. *)
Definition addColumn (p : t) (name : string) (defaultValue : Value)
  : Result t :=
  let defaultValue :=
    match defaultValue with
    | VUndefined => VNull
    | _ => defaultValue
    end in
  if hasColumn p name
  then throw (Error ("Column '" ++ name ++ "' already exists.")%string)
  else
    let data := map (fun row => set row name defaultValue) (data p) in
    ret (make data (inferSchema data)).

(** The body of the [forEach] of [renameColumn]. *)
Definition renameField (oldName newName : string) (row : Row) : Row :=
  remove (set row newName (get row oldName)) oldName.

(** [renameColumn(oldName, newName)]. *)
Definition renameColumn (p : t) (oldName newName : string) : Result t :=
  if hasColumn p newName
  then throw (Error ("Column '" ++ newName ++ "' already exists.")%string)
  else
    let data := map (renameField oldName newName) (data p) in
    ret (make data (inferSchema data)).

(** [deleteColumn(name)]. *)
Definition deleteColumn (p : t) (name : string) : t :=
  let data := map (fun row => remove row name) (data p) in
  make data (inferSchema data).

End WithHost.

(** The [headers.forEach] of [parseCSV]: [row[header] = values[idx]], the
    value being [undefined] where the line has fewer cells than headers. *)
Fixpoint assignCells (row : Row) (headers values : list string) : Row :=
  match headers with
  | [] => row
  | header :: hs =>
      match values with
      | [] => assignCells (set row header VUndefined) hs []
      | v :: vs => assignCells (set row header (VStr v)) hs vs
      end
  end.

Definition newline : ascii := ascii_of_nat 10.

(** [parseCSV(csv)]. *)
Definition parseCSV (csv : string) : list Row :=
  match split newline (trim csv) with
  | [] => []
  | first :: lines =>
      let headers := map trim (split "," first) in
      map (fun line => assignCells [] headers (map trim (split "," line)))
        lines
  end.

End NativeArrayProvider.

(* ================================================================== *)
(** * DuckDBWasmProvider.js *)
(* ================================================================== *)

Module DuckDBWasmProvider.

Record t : Type := make {
  table : string;
  schema : Schema.t;
  columnSet : option (list Value)
}.

(** The double quote and the single quote. *)
Definition dq : ascii := ascii_of_nat 34.
Definition sq : ascii := ascii_of_nat 39.
Definition dqs : string := String dq EmptyString.
Definition sqs : string := String sq EmptyString.

(** [s.split(c).join(r)]: every occurrence of [c] replaced by [r]. *)
Definition replaceAll (c : ascii) (r : string) (s : string) : string :=
  join r (split c s).

(** [quoteIdentifier(name)]. *)
Definition quoteIdentifier (name : string) : string :=
  (dqs ++ replaceAll dq (dqs ++ dqs) name ++ dqs)%string.

(** [escapeValue(value)], as the text it contributes to a statement. *)
Fixpoint escapeValue (value : Value) : string :=
  match value with
  | VUndefined | VNull => "NULL"
  | VNum n => Z_to_string n
  | VBool true => "TRUE"
  | VBool false => "FALSE"
  | VArr items => ("(" ++ join ", " (map escapeValue items) ++ ")")%string
  | VStr s => (sqs ++ replaceAll sq (sqs ++ sqs) s ++ sqs)%string
  end.

(** [getTableIdentifier()]: the name must match [^\w+$] and must not start
    with a digit. *)
Definition getTableIdentifier (p : t) : Result string :=
  let tableName :=
    if String.eqb (table p) EmptyString then "data" else table p in
  if negb (negb (String.eqb tableName EmptyString)
           && all_chars is_word tableName)
     || first_is is_digit tableName
  then throw (Error ("Invalid table name: " ++ tableName)%string)
  else ret (quoteIdentifier tableName).

(** [assertColumn(columnName)]. *)
Definition assertColumn (p : t) (columnName : string) : Result string :=
  match columnSet p with
  | None => throw (Error "Schema is not loaded; cannot validate columns.")
  | Some cs =>
      if List.length (Schema.columns (schema p)) =? 0
      then throw (Error "Schema is not loaded; cannot validate columns.")
      else if negb (arr_includes cs (VStr columnName))
      then throw (Error ("Unknown column: " ++ columnName)%string)
      else ret (quoteIdentifier columnName)
  end.

(** [isListColumn(columnName)]. *)
Definition isListColumn (p : t) (columnName : string) : bool :=
  match lookup (Schema.types (schema p)) columnName with
  | None => false
  | Some type =>
      if negb (truthy type) then false
      else
        let normalized := toLowerCase (ToString type) in
        includes normalized "list" || includes normalized "[]"
  end.

(** [buildInAllClause(columnName, values)]. *)
Definition buildInAllClause (p : t) (columnName : string) (values : Value)
  : Result string :=
  column <- assertColumn p columnName ;;
  match values with
  | VArr [] => ret "FALSE"
  | VArr vs =>
      if isListColumn p columnName then
        ret (join " AND "
               (map (fun value =>
                       ("list_contains(" ++ column ++ ", "
                        ++ escapeValue value ++ ")")%string) vs))
      else if List.length vs =? 1 then
        ret (column ++ " = " ++ escapeValue (nth 0 vs VUndefined))%string
      else ret "FALSE"
  | _ => ret "FALSE"
  end.

(** The callback of [filters.map] in [buildWhereClause]; the [switch] is on
    the upper-cased operator, and the case [ILIKE] has no body of its own:
    it falls through to the body of [IN]. *)
Definition buildClause (p : t) (filter : CanonicalFilter.t) : Result string :=
  let operator :=
    toUpperCase (if String.eqb (CanonicalFilter.operator filter) EmptyString
                 then "=" else CanonicalFilter.operator filter) in
  column <- assertColumn p (CanonicalFilter.column filter) ;;
  let value := escapeValue (CanonicalFilter.value filter) in
  if String.eqb operator "=" || String.eqb operator "!="
     || String.eqb operator ">" || String.eqb operator "<"
     || String.eqb operator ">=" || String.eqb operator "<="
  then ret (column ++ " " ++ operator ++ " " ++ value)%string
  else if String.eqb operator "LIKE"
  then ret (column ++ " LIKE " ++ value)%string
  else if String.eqb operator "ILIKE" || String.eqb operator "IN"
  then
    match CanonicalFilter.value filter with
    | VArr [] => ret "FALSE"
    | VArr vals =>
        let list := join ", " (map escapeValue vals) in
        ret (column ++ " IN (" ++ list ++ ")")%string
    | _ => ret (column ++ " = " ++ value)%string
    end
  else if String.eqb operator "IN_ALL"
  then buildInAllClause p (CanonicalFilter.column filter)
         (CanonicalFilter.value filter)
  else if String.eqb operator "BETWEEN"
  then
    match CanonicalFilter.value filter with
    | VArr (v0 :: v1 :: _) =>
        ret (column ++ " BETWEEN " ++ escapeValue v0 ++ " AND "
             ++ escapeValue v1)%string
    | _ => ret "FALSE"
    end
  else if String.eqb operator "IS NULL"
  then ret (column ++ " IS NULL")%string
  else if String.eqb operator "IS NOT NULL"
  then ret (column ++ " IS NOT NULL")%string
  else ret (column ++ " = " ++ value)%string.

(** [buildWhereClause(filters)]. *)
Definition buildWhereClause (p : t) (filters : list CanonicalFilter.t)
  : Result string :=
  if List.length filters =? 0 then ret EmptyString
  else
    clauses <- mapM (buildClause p) filters ;;
    ret ("WHERE " ++ join " AND " clauses)%string.

(** The callback of [sort.map] in [buildOrderClause]. *)
Definition buildOrderItem (p : t) (rule : SortRule.t) : Result string :=
  column <- assertColumn p (SortRule.column rule) ;;
  let direction :=
    if String.eqb (toUpperCase (SortRule.direction rule)) "DESC"
    then "DESC" else "ASC" in
  ret (column ++ " " ++ direction)%string.

(** [buildOrderClause(sort)]. *)
Definition buildOrderClause (p : t) (sort : list SortRule.t)
  : Result string :=
  if List.length sort =? 0 then ret EmptyString
  else
    clauses <- mapM (buildOrderItem p) sort ;;
    ret ("ORDER BY " ++ join ", " clauses)%string.

(** [buildPaginationClause(pagination)]. *)
Definition buildPaginationClause (pagination : option Pagination.t)
  : string :=
  match pagination with
  | None => EmptyString
  | Some pg =>
      match Pagination.limit pg with
      | None => EmptyString
      | Some limit =>
          let offset :=
            match Pagination.offset pg with
            | Some o => o
            | None => 0%Z
            end in
          ("LIMIT " ++ Z_to_string limit ++ " OFFSET " ++ Z_to_string offset)
            %string
      end
  end.

(** [buildSelectClause()]. *)
Definition buildSelectClause (p : t) : Result string :=
  tableName <- getTableIdentifier p ;;
  ret ("SELECT rowid AS " ++ dqs ++ "__rowid" ++ dqs ++ ", * FROM "
       ++ tableName)%string.

(** [parts.filter(Boolean).join(' ')]. *)
Definition joinNonEmpty (parts : list string) : string :=
  join " " (filter (fun s => negb (String.eqb s EmptyString)) parts).

Section WithConnection.

(** [conn.query(sql)] followed by [toArray()]: the engine's answer to a
    statement, or the exception it raises. *)
Variable conn : string -> Result (list Row).

Definition queryAll (sql : string) : Result (list Row) := conn sql.

(** [queryCount(whereClause)]. *)
Definition queryCount (p : t) (whereClause : string) : Result Value :=
  tableName <- getTableIdentifier p ;;
  let sql :=
    joinNonEmpty [("SELECT COUNT(*) AS count FROM " ++ tableName)%string;
                  whereClause] in
  rows <- queryAll sql ;;
  ret (or_else (match rows with
                | [] => VUndefined
                | r :: _ => get r "count"
                end) (VNum 0)).

(** [getSchema()]: the provider after the call, and the schema returned. *)
Definition getSchema (p : t) : Result (t * Schema.t) :=
  if 0 <? List.length (Schema.columns (schema p)) then ret (p, schema p)
  else
    tableName <- getTableIdentifier p ;;
    rows <- queryAll ("DESCRIBE " ++ tableName)%string ;;
    let columns :=
      map (fun row =>
             (or_else (get row "column_name") (get row "name"),
              or_else (get row "column_type") (get row "type"))) rows in
    let types :=
      fold_left (fun types col => set types (ToString (fst col)) (snd col))
        columns [] in
    let sch := Schema.make columns types [] [] in
    ret (make (table p) sch (Some (map fst columns)), sch).

(** [ensureSchema()]. *)
Definition ensureSchema (p : t) : Result t :=
  if List.length (Schema.columns (schema p)) =? 0
  then ps <- getSchema p ;; ret (fst ps)
  else ret p.

(** [query(transform)]: the provider after the call, and the result. *)
Definition query (p : t) (transform : TransformState.t)
  : Result (t * QueryResult.t) :=
  p <- ensureSchema p ;;
  whereClause <- buildWhereClause p (TransformState.filters transform) ;;
  orderClause <- buildOrderClause p (TransformState.sort transform) ;;
  let paginationClause :=
    buildPaginationClause (TransformState.pagination transform) in
  selectClause <- buildSelectClause p ;;
  let sql :=
    joinNonEmpty [selectClause; whereClause; orderClause; paginationClause] in
  data <- queryAll sql ;;
  totalCount <- queryCount p whereClause ;;
  ret (p, QueryResult.make data totalCount (schema p)).

(** [getUniqueValues(column)]. *)
Definition getUniqueValues (p : t) (column : string)
  : Result (t * list Value) :=
  p <- ensureSchema p ;;
  columnName <- assertColumn p column ;;
  tableName <- getTableIdentifier p ;;
  rows <- queryAll ("SELECT DISTINCT " ++ columnName ++ " AS value FROM "
                    ++ tableName)%string ;;
  ret (p, filter (fun v => negb (is_nullish v))
            (map (fun row => get row "value") rows)).

Section Mutations.
Variable h : Host.

(** [updateCell(rowId, column, value)]: the provider after the call. *)
Definition updateCell (p : t) (rowId : Value) (column : string)
  (value : Value) : Result t :=
  p <- ensureSchema p ;;
  match ToNumber h rowId with
  | None => throw (TypeError "Row identifier is missing or invalid.")
  | Some rowIdentifier =>
      tableName <- getTableIdentifier p ;;
      columnName <- assertColumn p column ;;
      _ <- queryAll ("UPDATE " ++ tableName ++ " SET " ++ columnName
                     ++ " = " ++ escapeValue value ++ " WHERE rowid = "
                     ++ Z_to_string rowIdentifier)%string ;;
      ret p
  end.

(** [deleteRow(rowId)]. *)
Definition deleteRow (p : t) (rowId : Value) : Result t :=
  match ToNumber h rowId with
  | None => throw (TypeError "Row identifier is missing or invalid.")
  | Some rowIdentifier =>
      tableName <- getTableIdentifier p ;;
      _ <- queryAll ("DELETE FROM " ++ tableName ++ " WHERE rowid = "
                     ++ Z_to_string rowIdentifier)%string ;;
      ret p
  end.

End Mutations.

End WithConnection.

End DuckDBWasmProvider.

(* ================================================================== *)
(** * FilterSearch.js: the expression parser and serializer *)
(* ================================================================== *)

Module FilterSearch.

(** A parsed block: [{type: 'filter', column, operator, value, raw}] or
    [{type: 'fulltext', value, raw}]. *)
Inductive Block : Type :=
| Filter (column operator value raw : string)
| Fulltext (value raw : string).

Definition colon : ascii := ascii_of_nat 58.

(** A greedy character class [[...]*]: the longest prefix of [s] whose
    characters satisfy [f], and what follows it. *)
Fixpoint span (f : ascii -> bool) (s : string) : string * string :=
  match s with
  | EmptyString => (EmptyString, EmptyString)
  | String c r =>
      if f c then let (a, b) := span f r in (String c a, b)
      else (EmptyString, s)
  end.

Definition not_space (c : ascii) : bool := negb (is_space c).

Definition not_space_or_colon (c : ascii) : bool :=
  negb (is_space c) && negb (Ascii.eqb c colon).

(** The first alternative of the token pattern, [(\w+):([^\s]+)], tried at
    the start of [s]: the two groups and the text after the match.  The word
    run is greedy; a shorter run would have to be followed by a word
    character where the pattern wants the colon, so backtracking never
    finds another match. *)
Definition matchKeyValue (s : string) : option (string * string * string) :=
  let (w, r1) := span is_word s in
  match w, r1 with
  | String _ _, String c r2 =>
      if Ascii.eqb c colon then
        let (v, r3) := span not_space r2 in
        match v with
        | EmptyString => None
        | String _ _ => Some (w, v, r3)
        end
      else None
  | _, _ => None
  end.

(** The second alternative, [([^\s:]+)]. *)
Definition matchWord (s : string) : option (string * string) :=
  let (w, r) := span not_space_or_colon s in
  match w with
  | EmptyString => None
  | String _ _ => Some (w, r)
  end.

(** The operator sigils of the optional first group of the value pattern,
    [>=|<=|!=|=|>|<|~|LIKE|IN], in the order the alternation tries them.
    The second group takes the rest of the value, whatever it is: a value
    holds no line terminator, these being white space. *)
Definition sigils : list string :=
  [">="; "<="; "!="; "="; ">"; "<"; "~"; "LIKE"; "IN"].

Fixpoint drop (n : nat) (s : string) : string :=
  match n, s with
  | S m, String _ r => drop m r
  | _, _ => s
  end.

(** The first sigil that starts [value], with the rest of [value]. *)
Fixpoint matchSigil (ops : list string) (value : string)
  : option (string * string) :=
  match ops with
  | [] => None
  | op :: rest =>
      if String.prefix op value
      then Some (op, drop (String.length op) value)
      else matchSigil rest value
  end.

(** [operatorMatch[1] || '='] and [operatorMatch[2]]. *)
Definition splitOperator (value : string) : string * string :=
  match matchSigil sigils value with
  | Some (op, cleanValue) => (op, cleanValue)
  | None => ("=", value)
  end.

(** [normalizeOperator(op)]. *)
Definition normalizeOperator (op : string) : string :=
  let map : Dict string :=
    [("=", "="); ("==", "="); ("!=", "!="); ("<>", "!="); (">", ">");
     ("<", "<"); (">=", ">="); ("<=", "<="); ("~", "LIKE");
     ("LIKE", "LIKE"); ("IN", "IN")] in
  match lookup map op with
  | Some o => o
  | None => "="
  end.

(** The [while] loop of [parseExpression]: each turn is one [regex.exec],
    which looks for the leftmost match at or after the current position.
    Every match is at least one character long, so [fuel] equal to the
    length of the remaining text is never exhausted. *)
Fixpoint parseFrom (fuel : nat) (s : string) : list Block :=
  match fuel with
  | 0 => []
  | S fuel' =>
      match s with
      | EmptyString => []
      | String _ next =>
          match matchKeyValue s with
          | Some (column, value, rest) =>
              let (operator, cleanValue) := splitOperator value in
              Filter column (normalizeOperator operator) cleanValue
                (column ++ String colon value)%string
              :: parseFrom fuel' rest
          | None =>
              match matchWord s with
              | Some (w, rest) => Fulltext w w :: parseFrom fuel' rest
              | None => parseFrom fuel' next
              end
          end
      end
  end.

(** [parseExpression(text)]. *)
Definition parseExpression (text : string) : list Block :=
  parseFrom (String.length text) text.

(** The callback of [blocks.map] in [serializeBlocks]. *)
Definition serializeBlock (block : Block) : string :=
  match block with
  | Filter column operator value _ =>
      let op := if String.eqb operator "=" then EmptyString else operator in
      (column ++ String colon (op ++ value))%string
  | Fulltext value _ => value
  end.

(** [serializeBlocks(blocks)]. *)
Definition serializeBlocks (blocks : list Block) : string :=
  join " " (map serializeBlock blocks).

(** [applyBlocks(blocks)]: the filter list it leaves in the spec.  A filter
    block becomes one entry; a full-text block becomes one [LIKE] entry per
    column of type [string]. *)
Definition blockEntries (schema : Schema.t) (block : Block)
  : list FilterEntry.t :=
  match block with
  | Filter column operator value _ =>
      [FilterEntry.make column operator (VStr value) true None]
  | Fulltext value _ =>
      map (fun col =>
             FilterEntry.make (ToString (fst col)) "LIKE"
               (VStr ("%" ++ value ++ "%")%string) true None)
        (filter (fun col => strict_eq (snd col) (VStr "string"))
           (Schema.columns schema))
  end.

Definition applyBlocks (schema : Schema.t) (blocks : list Block)
  : list FilterEntry.t :=
  flat_map (blockEntries schema) blocks.

(** A suggestion: [{type, value, label, insertText}]. *)
Record Suggestion : Type := makeSuggestion {
  type : string;
  value : string;
  label : string;
  insertText : string
}.

(** [getValueSuggestions(column, partial)]; [uniqueValues] is the outcome of
    [provider.getUniqueValues(column)], whose exception the [catch] turns
    into the empty list. *)
Definition getValueSuggestions (uniqueValues : Result (list Value))
  (partial : string) : list Suggestion :=
  match uniqueValues with
  | inl _ => []
  | inr values =>
      let lowerPartial := toLowerCase partial in
      let filtered :=
        slice (filter (fun v => includes (toLowerCase (ToString v))
                                  lowerPartial) values) 0 20 in
      map (fun v => makeSuggestion "value" (ToString v) (ToString v)
                      (ToString v)) filtered
  end.

(** [handlePaste(pastedText)]: the new [filterBlocks]. *)
Definition handlePaste (filterBlocks : list Block) (pastedText : string)
  : list Block :=
  filterBlocks ++ parseExpression pastedText.

(** [handleCopy()]. *)
Definition handleCopy (filterBlocks : list Block) : string :=
  serializeBlocks filterBlocks.

(** [removeBlock(index)], for an index that is a natural number: the new
    [filterBlocks]. *)
Definition removeBlock (filterBlocks : list Block) (index : nat)
  : list Block :=
  removeAt index filterBlocks.

(** [reorderBlocks(fromIndex, toIndex)], for indices that are natural
    numbers: the new [filterBlocks].  With [fromIndex] beyond the end the
    first [splice] yields [undefined], which the second inserts and on which
    [applyBlocks] throws when it reads [block.type]. *)
Definition reorderBlocks (filterBlocks : list Block)
  (fromIndex toIndex : nat) : Result (list Block) :=
  match nth_error filterBlocks fromIndex with
  | Some block => ret (insertAt toIndex block (removeAt fromIndex filterBlocks))
  | None =>
      throw (TypeError "Cannot read properties of undefined (reading 'type')")
  end.

End FilterSearch.

(* ================================================================== *)
(** * SpecManager.js: the transform builder *)
(* ================================================================== *)

Module SpecManager.

(** [spec.state], restricted to what [toTransformState] reads. *)
Record State : Type := makeState {
  filters : list FilterEntry.t;
  sort : list SortRule.t;
  page : Value;
  pageSize : Value
}.

(** A value of the [filtersByColumn] map: the entries of one column, in
    order; the array is created together with its first entry. *)
Definition Group : Type := (FilterEntry.t * list FilterEntry.t)%type.

Definition entries (g : Group) : list FilterEntry.t := fst g :: snd g.

(** The callback of the [forEach] that fills [filtersByColumn]; a [Map]
    keeps its keys in insertion order. *)
Fixpoint addFilter (groups : list (string * Group)) (f : FilterEntry.t)
  : list (string * Group) :=
  match groups with
  | [] => [(FilterEntry.column f, (f, []))]
  | (c, g) :: r =>
      if String.eqb c (FilterEntry.column f)
      then (c, (fst g, snd g ++ [f])) :: r
      else (c, g) :: addFilter r f
  end.

Definition filtersByColumn (fs : list FilterEntry.t)
  : list (string * Group) :=
  fold_left addFilter (filter FilterEntry.enabled fs) [].

(** [filters[0].mode || 'ANY']. *)
Definition modeOf (f : FilterEntry.t) : string :=
  match FilterEntry.mode f with
  | Some m => if String.eqb m EmptyString then "ANY" else m
  | None => "ANY"
  end.

(** The callback of [filtersByColumn.forEach]. *)
Definition toCanonical (cg : string * Group) : CanonicalFilter.t :=
  let (column, g) := cg in
  match snd g with
  | [] =>
      CanonicalFilter.make (FilterEntry.column (fst g)) None
        (FilterEntry.operator (fst g)) (FilterEntry.value (fst g)) None
  | _ :: _ =>
      let mode := modeOf (fst g) in
      CanonicalFilter.make column None
        (if String.eqb mode "ANY" then "in" else "in_all")
        (VArr (map FilterEntry.value (entries g)))
        (Some mode)
  end.

(** [addFilter(filter)] of the spec manager: the entry is pushed at the end
    of the filter list. *)
Definition pushFilter (st : State) (f : FilterEntry.t) : State :=
  makeState (filters st ++ [f]) (sort st) (page st) (pageSize st).

(** [removeFilter(column)]. *)
Definition removeFilter (st : State) (column : string) : State :=
  makeState
    (filter (fun f => negb (String.eqb (FilterEntry.column f) column))
       (filters st))
    (sort st) (page st) (pageSize st).

(** [clearFilters()]. *)
Definition clearFilters (st : State) : State :=
  makeState [] (sort st) (page st) (pageSize st).

(** [filter.enabled = !filter.enabled] on the first entry of the column. *)
Fixpoint toggleFirst (column : string) (fs : list FilterEntry.t)
  : list FilterEntry.t :=
  match fs with
  | [] => []
  | f :: r =>
      if String.eqb (FilterEntry.column f) column
      then FilterEntry.make (FilterEntry.column f) (FilterEntry.operator f)
             (FilterEntry.value f) (negb (FilterEntry.enabled f))
             (FilterEntry.mode f) :: r
      else f :: toggleFirst column r
  end.

(** [toggleFilter(column)]. *)
Definition toggleFilter (st : State) (column : string) : State :=
  makeState (toggleFirst column (filters st)) (sort st) (page st)
    (pageSize st).

Section WithHost.
Variable h : Host.

(** The pagination part of [toTransformState]. *)
Definition toPagination (st : State) : option Pagination.t :=
  match pageSize st with
  | VNull | VUndefined => None
  | ps =>
      let safePageSize :=
        match ToNumber h ps with
        | Some n => Z.max 0 n
        | None => 0%Z
        end in
      let safePage :=
        match ToNumber h (page st) with
        | Some n => Z.max 1 n
        | None => 1%Z
        end in
      Some (Pagination.make (Some safePageSize)
              (Some ((safePage - 1) * safePageSize)%Z))
  end.

(** [toTransformState()]. *)
Definition toTransformState (st : State) : TransformState.t :=
  TransformState.make
    (map toCanonical (filtersByColumn (filters st)))
    (map (fun s => SortRule.make (SortRule.column s) (SortRule.direction s))
       (sort st))
    (toPagination st).

(** [setPagination(page, pageSize)]. *)
Definition setPagination (st : State) (newPage newPageSize : Value)
  : State :=
  let safePage :=
    match ToNumber h newPage with
    | Some n => Z.max 1 n
    | None => 1%Z
    end in
  let safePageSize :=
    match newPageSize with
    | VNull | VUndefined => newPageSize
    | _ =>
        match ToNumber h newPageSize with
        | Some n => VNum (Z.max 0 n)
        | None => pageSize st
        end
    end in
  makeState (filters st) (sort st) (VNum safePage) safePageSize.

End WithHost.

End SpecManager.

(* ================================================================== *)
(** * Notions used to state the properties *)
(* ================================================================== *)

Module Props.

(** The operators [checkCondition] has a case for. *)
Definition recognizedOperators : list string :=
  ["="; "!="; ">"; "<"; ">="; "<="; "LIKE"; "ILIKE"; "IN"; "in"; "in_all";
   "BETWEEN"; "IS NULL"; "IS NOT NULL"].

(** The operators the [switch] of [buildWhereClause] has a case for, as it
    sees them (upper-cased). *)
Definition sqlOperators : list string :=
  ["="; "!="; ">"; "<"; ">="; "<="; "LIKE"; "ILIKE"; "IN"; "IN_ALL";
   "BETWEEN"; "IS NULL"; "IS NOT NULL"].

(** The operator the SQL translator switches on. *)
Definition sqlOperator (filter : CanonicalFilter.t) : string :=
  toUpperCase (if String.eqb (CanonicalFilter.operator filter) EmptyString
               then "=" else CanonicalFilter.operator filter).

(** [columnName] belongs to the loaded schema's column set. *)
Definition knownColumn (p : DuckDBWasmProvider.t) (columnName : string)
  : bool :=
  match DuckDBWasmProvider.columnSet p with
  | Some cs => arr_includes cs (VStr columnName)
  | None => false
  end.

(** Some row of the dataset carries the identifier. *)
Definition rowPresent (p : NativeArrayProvider.t) (rowId : Value) : bool :=
  existsb (NativeArrayProvider.has_rowid rowId) (NativeArrayProvider.data p).

(** The records that pass the filters, in dataset order. *)
Definition passing (h : Host) (p : NativeArrayProvider.t)
  (filters : list CanonicalFilter.t) : list Row :=
  filter (fun row => NativeArrayProvider.matchesFilters h row filters)
    (NativeArrayProvider.data p).

(** The passing records in the order [query] paginates them. *)
Definition ordered (h : Host) (p : NativeArrayProvider.t)
  (transform : TransformState.t) : list Row :=
  match TransformState.sort transform with
  | [] => passing h p (TransformState.filters transform)
  | sort =>
      NativeArrayProvider.applySorting h
        (passing h p (TransformState.filters transform)) sort
  end.

(** The enabled entries of a filter list that target column [c], in list
    order: the group of [c]. *)
Definition group (c : string) (fs : list FilterEntry.t)
  : list FilterEntry.t :=
  filter (fun e => String.eqb (FilterEntry.column e) c)
    (filter FilterEntry.enabled fs).

(** The canonical filters of a transform that target column [c]. *)
Definition canonicalFor (c : string) (out : list CanonicalFilter.t)
  : list CanonicalFilter.t :=
  filter (fun cf => String.eqb (CanonicalFilter.column cf) c) out.

(** The operators of a collapsed group. *)
Definition isMulti (operator : string) : Prop :=
  operator = "in" \/ operator = "in_all".

(** [filtersByColumn.get(c)]. *)
Fixpoint findGroup (c : string) (gs : list (string * SpecManager.Group))
  : option SpecManager.Group :=
  match gs with
  | [] => None
  | (k, g) :: r => if String.eqb k c then Some g else findGroup c r
  end.

Definition entriesOf (c : string) (gs : list (string * SpecManager.Group))
  : list FilterEntry.t :=
  match findGroup c gs with
  | Some g => SpecManager.entries g
  | None => []
  end.

(** The keys of the map are distinct and each group is filed under the
    column of its first entry. *)
Definition wellKeyed (gs : list (string * SpecManager.Group)) : Prop :=
  NoDup (map fst gs)
  /\ Forall (fun cg => FilterEntry.column (fst (snd cg)) = fst cg) gs.

(** [filter] with its operator replaced. *)
Definition withOperator (operator : string) (filter : CanonicalFilter.t)
  : CanonicalFilter.t :=
  CanonicalFilter.make (CanonicalFilter.column filter)
    (CanonicalFilter.columns filter) operator
    (CanonicalFilter.value filter) (CanonicalFilter.mode filter).

(** The SQL executor returns, and its [data] and [totalCount] are those of
    the native result. *)
Definition sameAnswer
  (sql : Result (DuckDBWasmProvider.t * QueryResult.t))
  (native : QueryResult.t) : Prop :=
  exists p r,
    sql = ret (p, r)
    /\ QueryResult.data r = QueryResult.data native
    /\ QueryResult.totalCount r = QueryResult.totalCount native.

(** What [inferSchema] records for a hierarchy column [key]. *)
Definition marked (key : string) (acc : Schema.t) : Prop :=
  lookup (Schema.types acc) key = Some (VStr "hierarchy")
  /\ lookup (Schema.hierarchy acc) key = Some ">".

(** ** Filter expressions *)

(** A token of a filter expression: [column:rest], where [rest] is the
    optional operator sigil followed by the value, or a bare word. *)
Inductive Token : Type :=
| KeyValue (column rest : string)
| Word (w : string).

Definition render (t : Token) : string :=
  match t with
  | KeyValue column rest => (column ++ String FilterSearch.colon rest)%string
  | Word w => w
  end.

(** The expression whose tokens are [ts], separated by single spaces. *)
Definition expression (ts : list Token) : string :=
  join " " (map render ts).

Definition nonEmpty (s : string) : bool :=
  match s with
  | EmptyString => false
  | String _ _ => true
  end.

(** The shape of a token: a column is a non-empty run of word characters,
    [rest] a non-empty run without white space, a bare word a non-empty run
    without white space and without colon. *)
Definition tokenShape (t : Token) : bool :=
  match t with
  | KeyValue column rest =>
      nonEmpty column && all_chars is_word column
      && nonEmpty rest && all_chars FilterSearch.not_space rest
  | Word w => nonEmpty w && all_chars FilterSearch.not_space_or_colon w
  end.

(** [rest] starts with neither of the two sigils that the serializer does
    not write back as typed: [=], which it drops, and [~], which it writes
    [LIKE]. *)
Definition writtenBack (t : Token) : bool :=
  match t with
  | KeyValue _ rest =>
      negb (String.prefix "=" rest) && negb (String.prefix "~" rest)
  | Word _ => true
  end.

(** What a token reads after parsing and serializing: the sigil [~] is
    written [LIKE], the sigil [=] is dropped, any other token is written as
    it was typed. *)
Definition writtenAs (t : Token) : Token :=
  match t with
  | KeyValue column (String c value) =>
      if Ascii.eqb c "~" then KeyValue column ("LIKE" ++ value)
      else if Ascii.eqb c "=" then KeyValue column value
      else t
  | _ => t
  end.

(** The block [parseExpression] produces for a token. *)
Definition blockOf (t : Token) : FilterSearch.Block :=
  match t with
  | KeyValue column rest =>
      let (operator, cleanValue) := FilterSearch.splitOperator rest in
      FilterSearch.Filter column (FilterSearch.normalizeOperator operator)
        cleanValue (render t)
  | Word w => FilterSearch.Fulltext w w
  end.

(** The text after a token: nothing, or white space first. *)
Definition stops (tail : string) : bool :=
  negb (first_is FilterSearch.not_space tail).

End Props.

(* ================================================================== *)
(** * Sample data *)
(* ================================================================== *)

Module Examples.

Fixpoint digitsValue (s : string) (acc : Z) : option Z :=
  match s with
  | EmptyString => Some acc
  | String c r =>
      if is_digit c
      then digitsValue r (10 * acc + Z.of_nat (code c - 48))%Z
      else None
  end.

(** [Number(s)] on the decimal integer numerals: surrounding white space is
    dropped, the empty string is 0, a minus sign negates. *)
Definition decimalNumber (s : string) : option Z :=
  match trim s with
  | EmptyString => Some 0%Z
  | String c r =>
      if Ascii.eqb c (ascii_of_nat 45) then
        match r with
        | EmptyString => None
        | _ => option_map Z.opp (digitsValue r 0)
        end
      else digitsValue (String c r) 0
  end.

(** Dates written [dddd-dd-dd]. *)
Definition isoDate (s : string) : bool :=
  match list_ascii_of_string s with
  | [y1; y2; y3; y4; d1; m1; m2; d2; a1; a2] =>
      forallb is_digit [y1; y2; y3; y4; m1; m2; a1; a2]
      && Ascii.eqb d1 (ascii_of_nat 45) && Ascii.eqb d2 (ascii_of_nat 45)
  | _ => false
  end.

Definition host : Host := {|
  StringToNumber := decimalNumber;
  DateParses := isoDate
|}.

Definition employee (id : Z) (name department : string) (salary : Z)
  (active : bool) : Row :=
  [("id", VNum id); ("name", VStr name); ("department", VStr department);
   ("salary", VNum salary); ("active", VBool active);
   ("__rowid", VStr ("row_" ++ Z_to_string (id - 1) ++ "_0")%string)].

Definition employees : list Row :=
  [employee 1 "Alice" "Engineering > Backend" 120000 true;
   employee 2 "Bob" "Sales" 80000 false;
   employee 3 "Charlie" "Engineering > Frontend" 100000 true;
   employee 4 "Diana" "Marketing" 90000 false;
   employee 5 "Eve" "Sales" 70000 false].

Definition native : NativeArrayProvider.t :=
  NativeArrayProvider.make employees
    (NativeArrayProvider.inferSchema host employees).

Definition activeFilter : CanonicalFilter.t :=
  CanonicalFilter.make "active" None "=" (VBool true) None.

Definition invalidFilter : CanonicalFilter.t :=
  CanonicalFilter.make "name" None "INVALID_OP" (VStr "Alice") None.

Definition nameEquals : CanonicalFilter.t :=
  CanonicalFilter.make "name" None "=" (VStr "Alice") None.

Definition nameIlike : CanonicalFilter.t :=
  CanonicalFilter.make "name" None "ILIKE" (VStr "al") None.

Definition nameLike : CanonicalFilter.t :=
  CanonicalFilter.make "name" None "LIKE" (VStr "Al") None.

(** A single entry that already carries the operator [in]. *)
Definition tagsEntry : FilterEntry.t :=
  FilterEntry.make "tags" "in" (VArr [VStr "urgent"; VStr "new"]) true None.

Definition deptSales : FilterEntry.t :=
  FilterEntry.make "department" "=" (VStr "Sales") true (Some "ALL").

Definition deptMarketing : FilterEntry.t :=
  FilterEntry.make "department" "=" (VStr "Marketing") true (Some "ALL").

Definition disabledEntry : FilterEntry.t :=
  FilterEntry.make "department" "=" (VStr "Legal") false None.

Definition state (fs : list FilterEntry.t) : SpecManager.State :=
  SpecManager.makeState fs [] (VNum 1) (VNum 50).

(** An engine that answers every statement with no row. *)
Definition silent : string -> Result (list Row) := fun _ => ret [].

(** A SQL provider whose schema is loaded. *)
Definition duck : DuckDBWasmProvider.t :=
  DuckDBWasmProvider.make "data"
    (Schema.make [(VStr "name", VStr "VARCHAR"); (VStr "salary", VStr "BIGINT")]
       [("name", VStr "VARCHAR"); ("salary", VStr "BIGINT")] [] [])
    (Some [VStr "name"; VStr "salary"]).

End Examples.

(* ================================================================== *)
(** * Further notions: results, schemas, groups and quoted text *)
(* ================================================================== *)

Module Notions.

(** The number a record holds in a column (0 when it holds none). *)
Definition numberAt (column : string) (row : Row) : Z :=
  match get row column with
  | VNum n => n
  | _ => 0%Z
  end.

(** The record holds the number [n] in the column. *)
Definition numberIs (column : string) (n : Z) (row : Row) : bool :=
  (numberAt column row =? n)%Z.

(** The record holds a number in the column. *)
Definition numeric (column : string) (row : Row) : Prop :=
  exists n, get row column = VNum n.

(** The order a sort rule on a numeric column asks for: ascending for the
    direction [asc], descending for any other direction. *)
Definition inOrder (column direction : string) (a b : Row) : Prop :=
  if String.eqb direction "asc"
  then (numberAt column a <= numberAt column b)%Z
  else (numberAt column b <= numberAt column a)%Z.

(** The transform asks for no page: it has no pagination, or one without
    limit. *)
Definition unpaginated (transform : TransformState.t) : Prop :=
  match TransformState.pagination transform with
  | None => True
  | Some pg => Pagination.limit pg = None
  end.

(** Keys that schema inference skips. *)
Definition reserved (key : string) : bool := startsWith key "__".

(** The type the schema's type map gives a sample value: [hierarchy] for a
    string that holds the separator, the inferred type otherwise. *)
Definition mapType (h : Host) (v : Value) : string :=
  match v with
  | VStr s => if includes s ">" then "hierarchy"
              else NativeArrayProvider.inferType h v
  | _ => NativeArrayProvider.inferType h v
  end.

(** A key that an assignment [obj[key] = v] stores as a field of the
    object: any key but [__proto__], which the language reads as the
    prototype of the object. *)
Definition storable (key : string) : bool :=
  negb (String.eqb key "__proto__").


(** The entry with [enabled] negated. *)
Definition toggled (f : FilterEntry.t) : FilterEntry.t :=
  FilterEntry.make (FilterEntry.column f) (FilterEntry.operator f)
    (FilterEntry.value f) (negb (FilterEntry.enabled f)) (FilterEntry.mode f).

(** The entry targets column [c]. *)
Definition targets (c : string) (f : FilterEntry.t) : bool :=
  String.eqb (FilterEntry.column f) c.

(** The operators a parsed filter block can carry. *)
Definition parsedOperators : list string :=
  ["="; "!="; ">"; "<"; ">="; "<="; "LIKE"; "IN"].

(** The reader of a quoted SQL token, after its opening quote [q]: the text
    up to the closing quote, where a doubled quote stands for one quote, and
    what follows the closing quote. *)
Fixpoint readBody (q : ascii) (s : string) : option (string * string) :=
  match s with
  | EmptyString => None
  | String c r =>
      if Ascii.eqb c q then
        match r with
        | String c' r' =>
            if Ascii.eqb c' q then
              match readBody q r' with
              | Some (body, rest) => Some (String q body, rest)
              | None => None
              end
            else Some (EmptyString, r)
        | EmptyString => Some (EmptyString, EmptyString)
        end
      else
        match readBody q r with
        | Some (body, rest) => Some (String c body, rest)
        | None => None
        end
  end.

(** A string literal ([q] the single quote) or a quoted identifier ([q] the
    double quote) at the head of [s]. *)
Definition readQuoted (q : ascii) (s : string) : option (string * string) :=
  match s with
  | String c r => if Ascii.eqb c q then readBody q r else None
  | EmptyString => None
  end.

(** The table name the SQL provider uses. *)
Definition tableName (p : DuckDBWasmProvider.t) : string :=
  if String.eqb (DuckDBWasmProvider.table p) EmptyString then "data"
  else DuckDBWasmProvider.table p.

(** A plain identifier: a non-empty run of word characters that does not
    start with a digit. *)
Definition plainName (s : string) : bool :=
  Props.nonEmpty s && all_chars is_word s && negb (first_is is_digit s).

(** The column name a row of a [DESCRIBE] answer gives. *)
Definition describedName (row : Row) : Value :=
  or_else (get row "column_name") (get row "name").

End Notions.

(* ================================================================== *)
(** * Further sample data *)
(* ================================================================== *)

Module Samples.

Definition alice : Row :=
  Examples.employee 1 "Alice" "Engineering > Backend" 120000 true.

Definition bob : Row := Examples.employee 2 "Bob" "Sales" 80000 false.

Definition charlie : Row :=
  Examples.employee 3 "Charlie" "Engineering > Frontend" 100000 true.

(** The active employees, unsorted and unpaginated. *)
Definition activeOnly : TransformState.t :=
  TransformState.make [Examples.activeFilter] [] None.

Definition salesAny : FilterEntry.t :=
  FilterEntry.make "department" "=" (VStr "Sales") true None.

Definition marketingAny : FilterEntry.t :=
  FilterEntry.make "department" "=" (VStr "Marketing") true None.

(** A filter whose operator is written in lower case. *)
Definition lowerLike : CanonicalFilter.t :=
  CanonicalFilter.make "name" None "like" (VStr "Al") None.

(** A SQL provider before its schema is read. *)
Definition unloaded : DuckDBWasmProvider.t :=
  DuckDBWasmProvider.make "data" Schema.empty None.

(** A SQL provider whose table name is not a plain identifier. *)
Definition badTable : DuckDBWasmProvider.t :=
  DuckDBWasmProvider.make "data; DROP TABLE data" Schema.empty None.

Definition description : list Row :=
  [[("column_name", VStr "name"); ("column_type", VStr "VARCHAR")];
   [("column_name", VStr "salary"); ("column_type", VStr "BIGINT")]].

(** An engine that describes the table [data] with two columns and answers
    every other statement with no row. *)
Definition describing : string -> Result (list Row) :=
  fun sql =>
    if String.eqb sql
         ("DESCRIBE " ++ DuckDBWasmProvider.dqs ++ "data"
          ++ DuckDBWasmProvider.dqs)
    then ret description else ret [].

Definition blocks : list FilterSearch.Block :=
  [FilterSearch.Filter "a" "=" "1" "a:1";
   FilterSearch.Filter "b" "=" "2" "b:2";
   FilterSearch.Filter "c" "=" "3" "c:3"].

End Samples.

(* ================================================================== *)
(** * Properties of the native executor *)
(* ================================================================== *)

Lemma eqb_false_of_not_in (op x : string) (l : list string) :
  ~ In op l -> In x l -> String.eqb op x = false.
Proof.
  intros Hn Hi. apply String.eqb_neq. intros ->. exact (Hn Hi).
Qed.

(** Walks down the cases of a [switch] on [op], none of which is taken. *)
Ltac skip_cases op labels H :=
  repeat (rewrite (eqb_false_of_not_in op _ labels)
            by (try exact H; simpl; tauto)).

Section NativeFacts.

Variable h : Host.

Import NativeArrayProvider.

Lemma checkCondition_default (value filterValue : Value) (op : string) :
  ~ In op Props.recognizedOperators ->
  checkCondition h value op filterValue = true.
Proof.
  intros Hn. unfold checkCondition.
  skip_cases op Props.recognizedOperators Hn.
  reflexivity.
Qed.

Lemma matchesFilter_default (row : Row) (f : CanonicalFilter.t) :
  ~ In (CanonicalFilter.operator f) Props.recognizedOperators ->
  CanonicalFilter.columns f <> Some [] ->
  matchesFilter h row f = true.
Proof.
  intros Hop Hcols. unfold matchesFilter.
  destruct (CanonicalFilter.columns f) as [[|c cols]|].
  - congruence.
  - simpl. now rewrite checkCondition_default.
  - now apply checkCondition_default.
Qed.

Lemma filter_all_true {A : Type} (f : A -> bool) (l : list A) :
  (forall x, f x = true) -> filter f l = l.
Proof.
  intros Hf. induction l as [|x l IH]; simpl; [reflexivity|].
  now rewrite Hf, IH.
Qed.

Lemma filtered_step (rows : list Row) (filters : list CanonicalFilter.t) :
  (if 0 <? List.length filters
   then filter (fun row => matchesFilters h row filters) rows
   else rows)
  = filter (fun row => matchesFilters h row filters) rows.
Proof.
  destruct filters as [|f fs]; simpl; [|reflexivity].
  symmetry. now apply filter_all_true.
Qed.

Lemma insert_sorted_length {A : Type} (cmp : A -> A -> Z) (x : A)
  (l : list A) :
  List.length (insert_sorted cmp x l) = S (List.length l).
Proof.
  induction l as [|y l IH]; simpl; [reflexivity|].
  destruct (cmp x y <=? 0)%Z; simpl; [reflexivity|]. now rewrite IH.
Qed.

Lemma sort_length {A : Type} (cmp : A -> A -> Z) (l : list A) :
  List.length (Js.sort cmp l) = List.length l.
Proof.
  induction l as [|x l IH]; simpl; [reflexivity|].
  now rewrite insert_sorted_length, IH.
Qed.

Lemma sorted_step (rows : list Row) (sort : list SortRule.t) :
  (if 0 <? List.length sort then applySorting h rows sort else rows)
  = match sort with
    | [] => rows
    | _ => applySorting h rows sort
    end.
Proof. now destruct sort. Qed.

(** The shape of [query]: filter, sort, count, paginate. *)
Lemma query_unfold (p : t) (transform : TransformState.t) :
  query h p transform
  = QueryResult.make
      (paginate (TransformState.pagination transform)
         (Props.ordered h p transform))
      (VNum (Z.of_nat (List.length (Props.ordered h p transform))))
      (schema p).
Proof.
  unfold query, Props.ordered, Props.passing.
  rewrite filtered_step, sorted_step.
  now destruct (TransformState.sort transform).
Qed.

Lemma ordered_length (p : t) (transform : TransformState.t) :
  List.length (Props.ordered h p transform)
  = List.length (Props.passing h p (TransformState.filters transform)).
Proof.
  unfold Props.ordered. destruct (TransformState.sort transform); [easy|].
  apply sort_length.
Qed.

Lemma firstn_min {A : Type} (n : nat) (l : list A) :
  firstn (Nat.min n (List.length l)) l = firstn n l.
Proof.
  destruct (Nat.le_ge_cases n (List.length l)) as [Hle|Hge].
  - now rewrite Nat.min_l.
  - rewrite Nat.min_r by exact Hge.
    now rewrite firstn_all, firstn_all2.
Qed.

(** On non-negative bounds [slice] is "skip [offset], keep [limit]". *)
Lemma slice_window {A : Type} (arr : list A) (offset limit : Z) :
  (0 <= offset)%Z -> (0 <= limit)%Z ->
  slice arr offset (offset + limit)
  = firstn (Z.to_nat limit) (skipn (Z.to_nat offset) arr).
Proof.
  intros Ho Hl. unfold slice, clamp_index.
  destruct (Z.ltb_spec offset 0); [lia|].
  destruct (Z.ltb_spec (offset + limit) 0); [lia|].
  set (len := List.length arr).
  destruct (Z.le_gt_cases (Z.of_nat len) offset) as [Hbig|Hsmall].
  - rewrite (skipn_all2 (n := Z.to_nat offset)) by (fold len; lia).
    rewrite (skipn_all2 (n := Z.to_nat (Z.min offset (Z.of_nat len))))
      by (fold len; lia).
    now rewrite !firstn_nil.
  - rewrite (Z.min_l offset) by lia.
    rewrite <- (firstn_min (Z.to_nat limit)).
    f_equal. rewrite length_skipn. fold len. lia.
Qed.

End NativeFacts.

(** A filter with an unrecognized operator can be dropped from the list. *)
Lemma matchesFilters_drop (h : Host) (row : Row) (f : CanonicalFilter.t)
  (before after : list CanonicalFilter.t) :
  ~ In (CanonicalFilter.operator f) Props.recognizedOperators ->
  CanonicalFilter.columns f <> Some [] ->
  NativeArrayProvider.matchesFilters h row (before ++ f :: after)
  = NativeArrayProvider.matchesFilters h row (before ++ after).
Proof.
  intros Hop Hcols. unfold NativeArrayProvider.matchesFilters.
  rewrite !forallb_app. simpl.
  now rewrite (matchesFilter_default h row f Hop Hcols).
Qed.

(** C6: a filter whose operator is none of the recognized ones makes the
    per-record predicate [checkCondition] true on every record value and
    filter value; a query containing such a filter (anywhere in the filter
    list; a multi-column filter must name at least one column) returns the
    very [QueryResult] of the query without it, so it has no effect on the
    result set and the call returns a result instead of throwing. *)
Theorem unknown_operator_passes (h : Host) (f : CanonicalFilter.t) :
  ~ In (CanonicalFilter.operator f) Props.recognizedOperators ->
  (forall value filterValue,
      NativeArrayProvider.checkCondition h value (CanonicalFilter.operator f)
        filterValue = true)
  /\ (CanonicalFilter.columns f <> Some [] ->
      forall p before after sort pagination,
        NativeArrayProvider.query h p
          (TransformState.make (before ++ f :: after) sort pagination)
        = NativeArrayProvider.query h p
            (TransformState.make (before ++ after) sort pagination)).
Proof.
  intros Hop. split.
  - intros value filterValue. now apply checkCondition_default.
  - intros Hcols p before after sort pagination.
    rewrite !query_unfold.
    assert (Hpass : Props.passing h p (before ++ f :: after)
                    = Props.passing h p (before ++ after)).
    { unfold Props.passing. apply filter_ext. intros row.
      now apply matchesFilters_drop. }
    unfold Props.ordered. simpl. now rewrite Hpass.
Qed.

(** C8: [totalCount] is the number of records that pass the filters,
    whatever the pagination; with a limit and an offset that are not
    negative, [data] is the window that skips [offset] records of the
    filtered (and sorted) array and keeps at most [limit] of them, and it is
    empty as soon as [offset] reaches the number of filtered records. *)
Theorem query_pagination (h : Host) (p : NativeArrayProvider.t)
  (filters : list CanonicalFilter.t) (sort : list SortRule.t) :
  (forall pagination,
      QueryResult.totalCount
        (NativeArrayProvider.query h p
           (TransformState.make filters sort pagination))
      = VNum (Z.of_nat (List.length (Props.passing h p filters))))
  /\ (forall limit offset : Z,
      (0 <= offset)%Z -> (0 <= limit)%Z ->
      let transform :=
        TransformState.make filters sort
          (Some (Pagination.make (Some limit) (Some offset))) in
      let result := NativeArrayProvider.query h p transform in
      QueryResult.data result
      = firstn (Z.to_nat limit)
          (skipn (Z.to_nat offset) (Props.ordered h p transform))
      /\ ((Z.of_nat (List.length (Props.passing h p filters)) <= offset)%Z ->
          QueryResult.data result = [])).
Proof.
  split.
  - intros pagination. rewrite query_unfold. simpl.
    now rewrite ordered_length.
  - intros limit offset Ho Hl transform result.
    assert (Hdata : QueryResult.data result
                    = firstn (Z.to_nat limit)
                        (skipn (Z.to_nat offset)
                           (Props.ordered h p transform))).
    { unfold result. rewrite query_unfold. simpl.
      now apply slice_window. }
    split; [exact Hdata|].
    intros Hbeyond. rewrite Hdata.
    rewrite skipn_all2; [now rewrite firstn_nil|].
    rewrite ordered_length. simpl. lia.
Qed.

Lemma unknown_operator_passes_witness :
  ~ In (CanonicalFilter.operator Examples.invalidFilter)
      Props.recognizedOperators
  /\ CanonicalFilter.columns Examples.invalidFilter <> Some []
  /\ NativeArrayProvider.checkCondition Examples.host (VStr "Bob")
       "INVALID_OP" (VStr "Alice") = true
  /\ NativeArrayProvider.query Examples.host Examples.native
       (TransformState.make [Examples.invalidFilter] [] None)
     = NativeArrayProvider.query Examples.host Examples.native
         (TransformState.make [] [] None).
Proof.
  assert (Hop : ~ In (CanonicalFilter.operator Examples.invalidFilter)
                    Props.recognizedOperators).
  { simpl. intuition discriminate. }
  assert (Hcols : CanonicalFilter.columns Examples.invalidFilter <> Some []).
  { discriminate. }
  destruct (unknown_operator_passes Examples.host Examples.invalidFilter Hop)
    as [Hcheck Hquery].
  exact (conj Hop (conj Hcols (conj (Hcheck _ _)
           (Hquery Hcols Examples.native [] [] [] None)))).
Defined.

Lemma query_pagination_witness :
  (0 <= 49900)%Z /\ (0 <= 50)%Z
  /\ QueryResult.totalCount
       (NativeArrayProvider.query Examples.host Examples.native
          (TransformState.make [Examples.activeFilter] []
             (Some (Pagination.make (Some 50%Z) (Some 49900%Z)))))
     = VNum 2
  /\ QueryResult.data
       (NativeArrayProvider.query Examples.host Examples.native
          (TransformState.make [Examples.activeFilter] []
             (Some (Pagination.make (Some 50%Z) (Some 49900%Z)))))
     = [].
Proof.
  assert (Ho : (0 <= 49900)%Z) by lia.
  assert (Hl : (0 <= 50)%Z) by lia.
  destruct (query_pagination Examples.host Examples.native
              [Examples.activeFilter] []) as [Hcount Hdata].
  split; [exact Ho|]. split; [exact Hl|]. split.
  - rewrite Hcount. reflexivity.
  - apply (proj2 (Hdata 50%Z 49900%Z Ho Hl)). vm_compute. discriminate.
Defined.

(** The transform builder only produces paginations that are not
    negative. *)
Lemma toPagination_not_negative (h : Host) (st : SpecManager.State)
  (pg : Pagination.t) :
  SpecManager.toPagination h st = Some pg ->
  exists limit offset,
    Pagination.limit pg = Some limit /\ Pagination.offset pg = Some offset
    /\ (0 <= limit)%Z /\ (0 <= offset)%Z.
Proof.
  unfold SpecManager.toPagination.
  set (safePageSize := match ToNumber h (SpecManager.pageSize st) with
                       | Some n => Z.max 0 n
                       | None => 0%Z
                       end).
  set (safePage := match ToNumber h (SpecManager.page st) with
                   | Some n => Z.max 1 n
                   | None => 1%Z
                   end).
  assert (Hsize : (0 <= safePageSize)%Z).
  { unfold safePageSize.
    destruct (ToNumber h (SpecManager.pageSize st)); lia. }
  assert (Hpage : (1 <= safePage)%Z).
  { unfold safePage. destruct (ToNumber h (SpecManager.page st)); lia. }
  intros Hpg.
  assert (Heq : pg = Pagination.make (Some safePageSize)
                       (Some ((safePage - 1) * safePageSize)%Z)).
  { destruct (SpecManager.pageSize st); try discriminate;
      now injection Hpg as <-. }
  subst pg. exists safePageSize, ((safePage - 1) * safePageSize)%Z.
  simpl. repeat split; nia.
Qed.

(** On a transform made by the builder the page is the window of the
    filtered records, without any condition on the spec's page numbers. *)
Lemma query_of_built_transform (h : Host) (p : NativeArrayProvider.t)
  (st : SpecManager.State) (limit offset : Z) :
  let transform := SpecManager.toTransformState h st in
  TransformState.pagination transform
  = Some (Pagination.make (Some limit) (Some offset)) ->
  QueryResult.data (NativeArrayProvider.query h p transform)
  = firstn (Z.to_nat limit)
      (skipn (Z.to_nat offset) (Props.ordered h p transform)).
Proof.
  intros transform Hpg. rewrite query_unfold. cbn [QueryResult.data].
  rewrite Hpg.
  destruct (toPagination_not_negative h st _ Hpg)
    as [l [o [Hl [Ho [Hl0 Ho0]]]]].
  simpl in Hl, Ho. injection Hl as <-. injection Ho as <-.
  now apply slice_window.
Qed.

(* ================================================================== *)
(** * Row mutations of the native provider *)
(* ================================================================== *)

Lemma find_absent (p : NativeArrayProvider.t) (rowId : Value) :
  Props.rowPresent p rowId = false ->
  find (NativeArrayProvider.has_rowid rowId) (NativeArrayProvider.data p)
  = None.
Proof.
  unfold Props.rowPresent. intros Habs.
  induction (NativeArrayProvider.data p) as [|r rows IH]; [reflexivity|].
  simpl in *. apply orb_false_iff in Habs as [Hr Hrows].
  rewrite Hr. now apply IH.
Qed.

Lemma filter_absent (p : NativeArrayProvider.t) (rowId : Value) :
  Props.rowPresent p rowId = false ->
  filter (fun r => negb (NativeArrayProvider.has_rowid rowId r))
    (NativeArrayProvider.data p)
  = NativeArrayProvider.data p.
Proof.
  unfold Props.rowPresent. intros Habs.
  induction (NativeArrayProvider.data p) as [|r rows IH]; [reflexivity|].
  simpl in *. apply orb_false_iff in Habs as [Hr Hrows].
  rewrite Hr. simpl. now rewrite IH.
Qed.

(** C5, as the code has it: with a row identifier that no row of the
    dataset carries, [updateCell] throws the not-found error, whereas
    [deleteRow] and [duplicateRow] return normally and leave the provider as
    it was. *)
Theorem mutation_of_absent_row (h : Host) (now : Z)
  (p : NativeArrayProvider.t) (rowId : Value) (column : string)
  (value : Value) :
  Props.rowPresent p rowId = false ->
  NativeArrayProvider.updateCell h p rowId column value
  = throw (Error ("Row with ID " ++ ToString rowId ++ " not found.")%string)
  /\ NativeArrayProvider.deleteRow p rowId = ret p
  /\ NativeArrayProvider.duplicateRow now p rowId = ret p.
Proof.
  intros Habs. repeat split.
  - unfold NativeArrayProvider.updateCell. now rewrite find_absent.
  - unfold NativeArrayProvider.deleteRow. rewrite filter_absent by exact Habs.
    now destruct p.
  - unfold NativeArrayProvider.duplicateRow. now rewrite find_absent.
Qed.

Lemma mutation_of_absent_row_witness :
  Props.rowPresent Examples.native (VStr "row_9_0") = false
  /\ NativeArrayProvider.updateCell Examples.host Examples.native
       (VStr "row_9_0") "name" (VStr "Zoe")
     = throw (Error "Row with ID row_9_0 not found.")
  /\ NativeArrayProvider.deleteRow Examples.native (VStr "row_9_0")
     = ret Examples.native
  /\ NativeArrayProvider.duplicateRow 0%Z Examples.native (VStr "row_9_0")
     = ret Examples.native.
Proof.
  assert (Habs : Props.rowPresent Examples.native (VStr "row_9_0") = false)
    by reflexivity.
  split; [exact Habs|].
  exact (mutation_of_absent_row Examples.host 0%Z Examples.native
           (VStr "row_9_0") "name" (VStr "Zoe") Habs).
Defined.

(** Against C5 as stated: no row carries the identifier, and yet [deleteRow]
    and [duplicateRow] do not throw. *)
Lemma delete_absent_row_does_not_throw :
  Props.rowPresent Examples.native (VStr "row_9_0") = false
  /\ (forall e, NativeArrayProvider.deleteRow Examples.native (VStr "row_9_0")
                <> throw e)
  /\ (forall e, NativeArrayProvider.duplicateRow 0%Z Examples.native
                  (VStr "row_9_0") <> throw e).
Proof.
  split; [reflexivity|]. split; intros e; discriminate.
Qed.

(* ================================================================== *)
(** * Properties of the SQL translator *)
(* ================================================================== *)

Lemma assertColumn_unknown (p : DuckDBWasmProvider.t) (columnName : string) :
  Props.knownColumn p columnName = false ->
  exists message,
    DuckDBWasmProvider.assertColumn p columnName = throw (Error message).
Proof.
  unfold Props.knownColumn, DuckDBWasmProvider.assertColumn.
  destruct (DuckDBWasmProvider.columnSet p) as [cs|]; intros Hk.
  - destruct (List.length (Schema.columns (DuckDBWasmProvider.schema p)) =? 0).
    + eexists; reflexivity.
    + rewrite Hk. simpl. eexists; reflexivity.
  - eexists; reflexivity.
Qed.

Lemma mapM_throws {A B : Type} (f : A -> Result B) (l : list A) (x : A) :
  In x l -> (exists e, f x = throw e) -> exists e, mapM f l = throw e.
Proof.
  intros Hin [e He]. induction l as [|y l IH]; [contradiction|].
  simpl. destruct Hin as [->|Hin].
  - rewrite He. now exists e.
  - destruct (f y) as [e'|b]; simpl; [now exists e'|].
    destruct (IH Hin) as [e'' ->]. now exists e''.
Qed.

Lemma buildClause_unknown (p : DuckDBWasmProvider.t) (f : CanonicalFilter.t) :
  Props.knownColumn p (CanonicalFilter.column f) = false ->
  exists e, DuckDBWasmProvider.buildClause p f = throw e.
Proof.
  intros Hk. destruct (assertColumn_unknown p _ Hk) as [m Hm].
  unfold DuckDBWasmProvider.buildClause. rewrite Hm. now eexists.
Qed.

Lemma buildOrderItem_unknown (p : DuckDBWasmProvider.t) (r : SortRule.t) :
  Props.knownColumn p (SortRule.column r) = false ->
  exists e, DuckDBWasmProvider.buildOrderItem p r = throw e.
Proof.
  intros Hk. destruct (assertColumn_unknown p _ Hk) as [m Hm].
  unfold DuckDBWasmProvider.buildOrderItem. rewrite Hm. now eexists.
Qed.

Lemma buildWhereClause_unknown (p : DuckDBWasmProvider.t)
  (filters : list CanonicalFilter.t) (f : CanonicalFilter.t) :
  In f filters ->
  Props.knownColumn p (CanonicalFilter.column f) = false ->
  exists e, DuckDBWasmProvider.buildWhereClause p filters = throw e.
Proof.
  intros Hin Hk. unfold DuckDBWasmProvider.buildWhereClause.
  destruct filters as [|g gs]; [contradiction|].
  change (List.length (g :: gs) =? 0) with false. cbv iota.
  destruct (mapM_throws (DuckDBWasmProvider.buildClause p) (g :: gs) f Hin
              (buildClause_unknown p f Hk)) as [e ->].
  now exists e.
Qed.

Lemma buildOrderClause_unknown (p : DuckDBWasmProvider.t)
  (sort : list SortRule.t) (rule : SortRule.t) :
  In rule sort ->
  Props.knownColumn p (SortRule.column rule) = false ->
  exists e, DuckDBWasmProvider.buildOrderClause p sort = throw e.
Proof.
  intros Hin Hk. unfold DuckDBWasmProvider.buildOrderClause.
  destruct sort as [|g gs]; [contradiction|].
  change (List.length (g :: gs) =? 0) with false. cbv iota.
  destruct (mapM_throws (DuckDBWasmProvider.buildOrderItem p) (g :: gs)
              rule Hin (buildOrderItem_unknown p rule Hk)) as [e ->].
  now exists e.
Qed.

Lemma ensureSchema_loaded (conn : string -> Result (list Row))
  (p : DuckDBWasmProvider.t) :
  Schema.columns (DuckDBWasmProvider.schema p) <> [] ->
  DuckDBWasmProvider.ensureSchema conn p = ret p.
Proof.
  intros Hcols. unfold DuckDBWasmProvider.ensureSchema.
  now destruct (Schema.columns (DuckDBWasmProvider.schema p)).
Qed.

(** C7: when a filter names a column outside the loaded schema's column
    set, [buildWhereClause] throws and yields no clause; when a sort rule
    does, [buildOrderClause] throws and yields no clause; in both cases
    [query], on a provider whose schema is loaded, throws whatever the
    engine.  The column name reaches the statement text only through
    [assertColumn], which throws for it instead of returning the quoted
    name. *)
Theorem unknown_column_rejected (p : DuckDBWasmProvider.t) :
  (forall filters f,
      In f filters ->
      Props.knownColumn p (CanonicalFilter.column f) = false ->
      exists e, DuckDBWasmProvider.buildWhereClause p filters = throw e)
  /\ (forall sort rule,
      In rule sort ->
      Props.knownColumn p (SortRule.column rule) = false ->
      exists e, DuckDBWasmProvider.buildOrderClause p sort = throw e)
  /\ (forall columnName,
      Props.knownColumn p columnName = false ->
      exists message,
        DuckDBWasmProvider.assertColumn p columnName = throw (Error message))
  /\ (forall conn transform,
      Schema.columns (DuckDBWasmProvider.schema p) <> [] ->
      (exists f,
          In f (TransformState.filters transform)
          /\ Props.knownColumn p (CanonicalFilter.column f) = false)
      \/ (exists rule,
             In rule (TransformState.sort transform)
             /\ Props.knownColumn p (SortRule.column rule) = false) ->
      exists e, DuckDBWasmProvider.query conn p transform = throw e).
Proof.
  split; [|split; [|split]].
  - intros filters f. apply buildWhereClause_unknown.
  - intros sort rule. apply buildOrderClause_unknown.
  - intros columnName. apply assertColumn_unknown.
  - intros conn transform Hcols Hbad. unfold DuckDBWasmProvider.query.
    rewrite (ensureSchema_loaded conn p Hcols). cbn [bind ret].
    destruct Hbad as [[f [Hin Hk]]|[rule [Hin Hk]]].
    + destruct (buildWhereClause_unknown p _ f Hin Hk) as [e ->].
      now exists e.
    + destruct (DuckDBWasmProvider.buildWhereClause p
                  (TransformState.filters transform)) as [e|w];
        [now exists e|].
      destruct (buildOrderClause_unknown p _ rule Hin Hk) as [e ->].
      now exists e.
Qed.

Lemma unknown_column_rejected_witness :
  In (CanonicalFilter.make "salary; DROP TABLE data" None "=" (VNum 1) None)
    [Examples.nameEquals;
     CanonicalFilter.make "salary; DROP TABLE data" None "=" (VNum 1) None]
  /\ Props.knownColumn Examples.duck "salary; DROP TABLE data" = false
  /\ (exists e,
         DuckDBWasmProvider.buildWhereClause Examples.duck
           [Examples.nameEquals;
            CanonicalFilter.make "salary; DROP TABLE data" None "="
              (VNum 1) None] = throw e)
  /\ In (SortRule.make "nope" "asc") [SortRule.make "nope" "asc"]
  /\ Props.knownColumn Examples.duck "nope" = false
  /\ (exists e,
         DuckDBWasmProvider.buildOrderClause Examples.duck
           [SortRule.make "nope" "asc"] = throw e)
  /\ Schema.columns (DuckDBWasmProvider.schema Examples.duck) <> []
  /\ (exists e,
         DuckDBWasmProvider.query Examples.silent Examples.duck
           (TransformState.make [] [SortRule.make "nope" "asc"] None)
         = throw e).
Proof.
  destruct (unknown_column_rejected Examples.duck)
    as [Hwhere [Horder [_ Hquery]]].
  assert (Hin : In (CanonicalFilter.make "salary; DROP TABLE data" None "="
                      (VNum 1) None)
                  [Examples.nameEquals;
                   CanonicalFilter.make "salary; DROP TABLE data" None "="
                     (VNum 1) None]).
  { right. left. reflexivity. }
  assert (Hin' : In (SortRule.make "nope" "asc") [SortRule.make "nope" "asc"]).
  { left. reflexivity. }
  assert (Hcols : Schema.columns (DuckDBWasmProvider.schema Examples.duck)
                  <> []) by discriminate.
  exact (conj Hin (conj eq_refl (conj (Hwhere _ _ Hin eq_refl)
           (conj Hin' (conj eq_refl (conj (Horder _ _ Hin' eq_refl)
              (conj Hcols
                 (Hquery Examples.silent
                    (TransformState.make [] [SortRule.make "nope" "asc"]
                       None)
                    Hcols
                    (or_intror (ex_intro _ _ (conj Hin' eq_refl))))))))))).
Defined.

Lemma assertColumn_known (p : DuckDBWasmProvider.t) (columnName : string) :
  Props.knownColumn p columnName = true ->
  Schema.columns (DuckDBWasmProvider.schema p) <> [] ->
  DuckDBWasmProvider.assertColumn p columnName
  = ret (DuckDBWasmProvider.quoteIdentifier columnName).
Proof.
  unfold Props.knownColumn, DuckDBWasmProvider.assertColumn.
  destruct (DuckDBWasmProvider.columnSet p) as [cs|]; [|discriminate].
  intros Hk Hcols.
  destruct (Schema.columns (DuckDBWasmProvider.schema p)); [congruence|].
  simpl. now rewrite Hk.
Qed.

(** C4, as the code has it: for a filter on a known column whose operator
    upper-cases to [LIKE], the clause applies SQL [LIKE] to the quoted column
    and the escaped value.  For one whose operator upper-cases to [ILIKE] the
    clause holds no [ILIKE]: the case falls through to the body of [IN], so
    the clause is an [IN] list for an array value ([FALSE] for the empty
    array) and the equality [column = value] for any other value. *)
Theorem like_and_ilike_clauses (p : DuckDBWasmProvider.t)
  (f : CanonicalFilter.t) :
  Props.knownColumn p (CanonicalFilter.column f) = true ->
  Schema.columns (DuckDBWasmProvider.schema p) <> [] ->
  let column :=
    DuckDBWasmProvider.quoteIdentifier (CanonicalFilter.column f) in
  let value := DuckDBWasmProvider.escapeValue (CanonicalFilter.value f) in
  (Props.sqlOperator f = "LIKE" ->
   DuckDBWasmProvider.buildClause p f
   = ret (column ++ " LIKE " ++ value)%string)
  /\ (Props.sqlOperator f = "ILIKE" ->
      DuckDBWasmProvider.buildClause p f
      = match CanonicalFilter.value f with
        | VArr [] => ret "FALSE"
        | VArr vals =>
            ret (column ++ " IN ("
                 ++ join ", " (map DuckDBWasmProvider.escapeValue vals)
                 ++ ")")%string
        | _ => ret (column ++ " = " ++ value)%string
        end).
Proof.
  intros Hk Hcols column value.
  unfold DuckDBWasmProvider.buildClause.
  rewrite (assertColumn_known p _ Hk Hcols). cbn [bind].
  fold (Props.sqlOperator f). fold column. fold value.
  split; intros ->; cbn [String.eqb Ascii.eqb Bool.eqb orb]; reflexivity.
Qed.

Lemma like_and_ilike_clauses_witness :
  Props.knownColumn Examples.duck "name" = true
  /\ Schema.columns (DuckDBWasmProvider.schema Examples.duck) <> []
  /\ Props.sqlOperator Examples.nameLike = "LIKE"
  /\ Props.sqlOperator Examples.nameIlike = "ILIKE"
  /\ DuckDBWasmProvider.buildClause Examples.duck Examples.nameLike
     = ret (DuckDBWasmProvider.dqs ++ "name" ++ DuckDBWasmProvider.dqs
            ++ " LIKE 'Al'")%string
  /\ DuckDBWasmProvider.buildClause Examples.duck Examples.nameIlike
     = ret (DuckDBWasmProvider.dqs ++ "name" ++ DuckDBWasmProvider.dqs
            ++ " = 'al'")%string.
Proof.
  assert (Hk : Props.knownColumn Examples.duck "name" = true) by reflexivity.
  assert (Hcols : Schema.columns (DuckDBWasmProvider.schema Examples.duck)
                  <> []) by discriminate.
  exact (conj Hk (conj Hcols (conj eq_refl (conj eq_refl
           (conj
              (proj1 (like_and_ilike_clauses Examples.duck Examples.nameLike
                        Hk Hcols) eq_refl)
              (proj2 (like_and_ilike_clauses Examples.duck Examples.nameIlike
                        Hk Hcols) eq_refl)))))).
Defined.

(** The [WHERE] clause generated for the sample [ILIKE] filter is an
    equality test. *)
Lemma ilike_where_clause :
  DuckDBWasmProvider.buildWhereClause Examples.duck [Examples.nameIlike]
  = ret ("WHERE " ++ DuckDBWasmProvider.dqs ++ "name"
         ++ DuckDBWasmProvider.dqs ++ " = 'al'")%string.
Proof. reflexivity. Qed.

(* ================================================================== *)
(** * Properties of the transform builder *)
(* ================================================================== *)

Section Builder.

Import Props SpecManager.

Lemma findGroup_addFilter c gs f :
  findGroup c (addFilter gs f)
  = if String.eqb (FilterEntry.column f) c
    then Some (match findGroup c gs with
               | None => (f, [])
               | Some g => (fst g, snd g ++ [f])
               end)
    else findGroup c gs.
Proof.
  induction gs as [|[k g] gs IH]; simpl.
  - reflexivity.
  - destruct (String.eqb_spec k (FilterEntry.column f)) as [->|Hk]; simpl.
    + destruct (String.eqb_spec (FilterEntry.column f) c); reflexivity.
    + destruct (String.eqb_spec k c) as [->|Hc].
      * destruct (String.eqb_spec (FilterEntry.column f) c);
          [congruence|reflexivity].
      * exact IH.
Qed.

Lemma entriesOf_addFilter c gs f :
  entriesOf c (addFilter gs f)
  = entriesOf c gs
    ++ (if String.eqb (FilterEntry.column f) c then [f] else []).
Proof.
  unfold entriesOf. rewrite findGroup_addFilter.
  destruct (String.eqb (FilterEntry.column f) c).
  - destruct (findGroup c gs) as [[e r]|]; reflexivity.
  - now rewrite app_nil_r.
Qed.

Lemma entriesOf_fold c l gs :
  entriesOf c (fold_left addFilter l gs)
  = entriesOf c gs
    ++ filter (fun e => String.eqb (FilterEntry.column e) c) l.
Proof.
  revert gs. induction l as [|f l IH]; intros gs; simpl.
  - now rewrite app_nil_r.
  - rewrite IH, entriesOf_addFilter, <- app_assoc.
    now destruct (String.eqb (FilterEntry.column f) c).
Qed.

Lemma entriesOf_filtersByColumn c fs :
  entriesOf c (filtersByColumn fs) = group c fs.
Proof. unfold filtersByColumn. now rewrite entriesOf_fold. Qed.

Lemma keys_addFilter gs f :
  map fst (addFilter gs f)
  = if existsb (String.eqb (FilterEntry.column f)) (map fst gs)
    then map fst gs else map fst gs ++ [FilterEntry.column f].
Proof.
  induction gs as [|[k g] gs IH]; simpl; [reflexivity|].
  rewrite (String.eqb_sym (FilterEntry.column f) k).
  destruct (String.eqb k (FilterEntry.column f)); simpl; [reflexivity|].
  rewrite IH. now destruct (existsb _ _).
Qed.

Lemma wellKeyed_addFilter gs f : wellKeyed gs -> wellKeyed (addFilter gs f).
Proof.
  intros [Hnd Hcol]. split.
  - rewrite keys_addFilter.
    destruct (existsb _ _) eqn:Hex; [exact Hnd|].
    apply NoDup_app; [exact Hnd|repeat constructor; intros []|].
    intros x Hx [<-|[]].
    assert (existsb (String.eqb (FilterEntry.column f)) (map fst gs) = true).
    { apply existsb_exists. exists (FilterEntry.column f).
      split; [exact Hx|apply String.eqb_refl]. }
    congruence.
  - clear Hnd. induction gs as [|[k g] gs IH]; simpl.
    + repeat constructor.
    + inversion Hcol as [|? ? Hk Hrest]; subst.
      destruct (String.eqb k (FilterEntry.column f)); constructor; auto.
Qed.

Lemma wellKeyed_filtersByColumn fs : wellKeyed (filtersByColumn fs).
Proof.
  unfold filtersByColumn.
  assert (Hnil : wellKeyed []) by (split; constructor).
  revert Hnil. generalize (@nil (string * Group)).
  induction (filter FilterEntry.enabled fs) as [|f l IH]; intros gs Hgs.
  - exact Hgs.
  - simpl. apply IH. now apply wellKeyed_addFilter.
Qed.

Lemma toCanonical_column cg :
  FilterEntry.column (fst (snd cg)) = fst cg ->
  CanonicalFilter.column (toCanonical cg) = fst cg.
Proof.
  destruct cg as [k [e r]]. simpl. intros He. now destruct r.
Qed.

Lemma findGroup_some_in c gs g : findGroup c gs = Some g -> In c (map fst gs).
Proof.
  induction gs as [|[k g'] gs IH]; simpl; [discriminate|].
  destruct (String.eqb_spec k c); [now left|]. intros Hf. right. now apply IH.
Qed.

Lemma canonicalFor_map c gs :
  wellKeyed gs ->
  canonicalFor c (map toCanonical gs)
  = match findGroup c gs with
    | Some g => [toCanonical (c, g)]
    | None => []
    end.
Proof.
  intros [Hnd Hcol]. induction gs as [|[k g] gs IH]; [reflexivity|].
  inversion Hnd as [|? ? Hk Hnd']; subst.
  inversion Hcol as [|? ? Hg Hcol']; subst.
  unfold canonicalFor in *. cbn [map filter findGroup].
  rewrite (toCanonical_column (k, g) Hg). cbn [fst].
  destruct (String.eqb_spec k c) as [->|Hkc].
  - f_equal. rewrite IH by assumption.
    destruct (findGroup c gs) eqn:Hf; [|reflexivity].
    exfalso. apply Hk. eapply findGroup_some_in; eassumption.
  - now apply IH.
Qed.

(** The canonical filters for a column, from the group of the column. *)
Lemma canonicalFor_group (h : Host) (st : State) (c : string) :
  canonicalFor c (TransformState.filters (toTransformState h st))
  = match group c (filters st) with
    | [] => []
    | [e] =>
        [CanonicalFilter.make c None (FilterEntry.operator e)
           (FilterEntry.value e) None]
    | e :: _ :: _ =>
        [CanonicalFilter.make c None
           (if String.eqb (modeOf e) "ANY" then "in" else "in_all")
           (VArr (map FilterEntry.value (group c (filters st))))
           (Some (modeOf e))]
    end.
Proof.
  unfold toTransformState. cbn [TransformState.filters].
  rewrite canonicalFor_map by apply wellKeyed_filtersByColumn.
  pose proof (entriesOf_filtersByColumn c (filters st)) as Hent.
  pose proof (wellKeyed_filtersByColumn (filters st)) as [_ Hcol].
  unfold entriesOf in Hent.
  destruct (findGroup c (filtersByColumn (filters st))) as [[e r]|] eqn:Hf.
  - rewrite <- Hent. unfold entries. cbn [fst snd toCanonical].
    destruct r as [|e' r']; [|reflexivity].
    f_equal. f_equal.
    assert (Hin : In (c, (e, @nil FilterEntry.t))
                    (filtersByColumn (filters st))).
    { clear -Hf. revert Hf.
      induction (filtersByColumn (filters st)) as [|[k g] gs IH];
        simpl; [discriminate|].
      destruct (String.eqb_spec k c) as [->|]; intros Hf;
        [left; now inversion Hf|right; now apply IH]. }
    rewrite Forall_forall in Hcol. exact (Hcol _ Hin).
  - now rewrite <- Hent.
Qed.

End Builder.

(** C2, as the code has it.  For every filter list and every column [c],
    with the group of [c] being the enabled entries that target [c]:
    the output holds no canonical filter for [c] when the group is empty;
    exactly one, with the entry's own operator and value, when the group has
    one entry; exactly one, with operator [in] when the mode of the group
    (read on its first entry, [ANY] when absent) is [ANY] and [in_all]
    otherwise, and with the list of the group's values as value, when the
    group has two entries or more.  Consequently the output holds an
    operator [in] or [in_all] for [c] iff the group has two entries or more,
    or has one entry that itself carries such an operator. *)
Theorem toTransformState_filters (h : Host) (st : SpecManager.State)
  (c : string) :
  let out := TransformState.filters (SpecManager.toTransformState h st) in
  let g := Props.group c (SpecManager.filters st) in
  Props.canonicalFor c out
  = match g with
    | [] => []
    | [e] =>
        [CanonicalFilter.make c None (FilterEntry.operator e)
           (FilterEntry.value e) None]
    | e :: _ :: _ =>
        [CanonicalFilter.make c None
           (if String.eqb (SpecManager.modeOf e) "ANY" then "in"
            else "in_all")
           (VArr (map FilterEntry.value g))
           (Some (SpecManager.modeOf e))]
    end
  /\ (forall e,
         (FilterEntry.mode e = None \/ FilterEntry.mode e = Some "ANY" ->
          SpecManager.modeOf e = "ANY")
         /\ (FilterEntry.mode e = Some "ALL" ->
             SpecManager.modeOf e = "ALL"))
  /\ ((exists cf,
          In cf out /\ CanonicalFilter.column cf = c
          /\ Props.isMulti (CanonicalFilter.operator cf))
      <-> (2 <= List.length g
           \/ exists e, g = [e] /\ Props.isMulti (FilterEntry.operator e))).
Proof.
  intros out g.
  pose proof (canonicalFor_group h st c) as Hcan.
  fold out in Hcan. fold g in Hcan.
  split; [exact Hcan|]. split.
  - intros e. unfold SpecManager.modeOf. split.
    + intros [-> | ->]; reflexivity.
    + intros ->. reflexivity.
  - assert (Hmem : forall cf,
               In cf out /\ CanonicalFilter.column cf = c
               <-> In cf (Props.canonicalFor c out)).
    { intros cf. unfold Props.canonicalFor. rewrite filter_In.
      now rewrite String.eqb_eq. }
    split.
    + intros [cf [Hin [Hc Hop]]].
      assert (Hcf : In cf (Props.canonicalFor c out)) by now apply Hmem.
      rewrite Hcan in Hcf.
      destruct g as [|e [|e' r]].
      * destruct Hcf.
      * destruct Hcf as [<-|[]]. right. exists e. split; [reflexivity|].
        exact Hop.
      * left. simpl. lia.
    + assert (Hone : forall cf,
                 Props.canonicalFor c out = [cf] ->
                 In cf out /\ CanonicalFilter.column cf = c).
      { intros cf Heq. apply Hmem. rewrite Heq. now left. }
      intros [Hlen | [e [Hg Hop]]].
      * destruct g as [|e [|e' r]]; simpl in Hlen; try lia.
        destruct (Hone _ Hcan) as [Hin Hc].
        eexists. split; [exact Hin|]. split; [exact Hc|].
        cbn [CanonicalFilter.operator]. unfold Props.isMulti.
        destruct (String.eqb (SpecManager.modeOf e) "ANY");
          [now left|now right].
      * rewrite Hg in Hcan. destruct (Hone _ Hcan) as [Hin Hc].
        eexists. split; [exact Hin|]. split; [exact Hc|exact Hop].
Qed.

Lemma toTransformState_filters_witness :
  FilterEntry.mode Examples.deptSales = Some "ALL"
  /\ SpecManager.modeOf Examples.deptSales = "ALL"
  /\ Props.canonicalFor "department"
       (TransformState.filters
          (SpecManager.toTransformState Examples.host
             (Examples.state
                [Examples.deptSales; Examples.disabledEntry;
                 Examples.tagsEntry; Examples.deptMarketing])))
     = [CanonicalFilter.make "department" None "in_all"
          (VArr [VStr "Sales"; VStr "Marketing"]) (Some "ALL")].
Proof.
  destruct (toTransformState_filters Examples.host
              (Examples.state
                 [Examples.deptSales; Examples.disabledEntry;
                  Examples.tagsEntry; Examples.deptMarketing])
              "department") as [Hcan [Hmode _]].
  exact (conj eq_refl
           (conj (proj2 (Hmode Examples.deptSales) eq_refl) Hcan)).
Defined.

(** Against C2 as stated: a single enabled entry that carries the operator
    [in] passes through, so the output holds the operator [in] for its
    column although the group of the column has one entry. *)
Lemma single_entry_with_in_operator :
  ~ ((exists cf,
         In cf (TransformState.filters
                  (SpecManager.toTransformState Examples.host
                     (Examples.state [Examples.tagsEntry])))
         /\ CanonicalFilter.column cf = "tags"
         /\ Props.isMulti (CanonicalFilter.operator cf))
     <-> 2 <= List.length (Props.group "tags" [Examples.tagsEntry])).
Proof.
  intros [Hlr _].
  assert (Hlen : 2 <= List.length (Props.group "tags" [Examples.tagsEntry])).
  { apply Hlr. eexists. split; [left; reflexivity|].
    split; [reflexivity|left; reflexivity]. }
  simpl in Hlen. lia.
Qed.

(* ================================================================== *)
(** * Text-entered filters against numeric fields *)
(* ================================================================== *)

Lemma forallb_false_of {A : Type} (f : A -> bool) (l : list A) (x : A) :
  In x l -> f x = false -> forallb f l = false.
Proof.
  intros Hin Hx. destruct (forallb f l) eqn:Hall; [|reflexivity].
  rewrite forallb_forall in Hall. rewrite (Hall x Hin) in Hx. discriminate.
Qed.

Lemma applyBlocks_entries (schema : Schema.t)
  (blocks : list FilterSearch.Block) (e : FilterEntry.t) :
  In e (FilterSearch.applyBlocks schema blocks) ->
  FilterEntry.enabled e = true /\ FilterEntry.mode e = None
  /\ exists s, FilterEntry.value e = VStr s.
Proof.
  unfold FilterSearch.applyBlocks. rewrite in_flat_map.
  intros [b [_ Hin]]. destruct b as [column operator value raw|value raw];
    simpl in Hin.
  - destruct Hin as [<-|[]]. simpl. eauto.
  - apply in_map_iff in Hin as [col [<- _]]. simpl. eauto.
Qed.

Lemma strings_exclude_number (vs : list Value) (n : Z) :
  Forall (fun v => exists s, v = VStr s) vs ->
  arr_includes vs (VNum n) = false.
Proof.
  induction 1 as [|v vs [s ->] _ IH]; simpl; [reflexivity|exact IH].
Qed.

(** C10: [=] and [!=] compare a scalar field without coercion.  A field
    holding the number [n] is never equal to a string, in particular not to
    the decimal numeral of [n]: the [=] filter rejects the record and the
    [!=] filter accepts it.  The values [parseExpression] produces are
    strings, so whenever the entries built from a typed expression hold an
    [=] entry on a column where the record has a number, the record fails the
    filters of the resulting transform. *)
Theorem equality_is_strict (h : Host) (n : Z) :
  (forall s,
      NativeArrayProvider.checkCondition h (VNum n) "=" (VStr s) = false
      /\ NativeArrayProvider.checkCondition h (VNum n) "!=" (VStr s) = true)
  /\ (forall row column mode,
         get row column = VNum n ->
         NativeArrayProvider.matchesFilters h row
           [CanonicalFilter.make column None "=" (VStr (Z_to_string n)) mode]
         = false
         /\ NativeArrayProvider.matchesFilters h row
              [CanonicalFilter.make column None "!=" (VStr (Z_to_string n))
                 mode]
            = true)
  /\ (forall schema text sort page pageSize e row,
         let es :=
           FilterSearch.applyBlocks schema
             (FilterSearch.parseExpression text) in
         In e es ->
         FilterEntry.operator e = "=" ->
         get row (FilterEntry.column e) = VNum n ->
         NativeArrayProvider.matchesFilters h row
           (TransformState.filters
              (SpecManager.toTransformState h
                 (SpecManager.makeState es sort page pageSize)))
         = false).
Proof.
  split; [|split].
  - intros s. split; reflexivity.
  - intros row column mode Hrow.
    unfold NativeArrayProvider.matchesFilters,
      NativeArrayProvider.matchesFilter. simpl.
    rewrite Hrow. split; reflexivity.
  - intros schema text sort page pageSize e row es Hin Hop Hrow.
    set (st := SpecManager.makeState es sort page pageSize).
    set (c := FilterEntry.column e) in *.
    pose proof (canonicalFor_group h st c) as Hcan.
    assert (Hall : forall x, In x (Props.group c es) ->
                     FilterEntry.mode x = None
                     /\ exists s, FilterEntry.value x = VStr s).
    { intros x Hx. unfold Props.group in Hx.
      apply filter_In in Hx as [Hx _]. apply filter_In in Hx as [Hx _].
      destruct (applyBlocks_entries _ _ _ Hx) as [_ Hrest]. exact Hrest. }
    assert (Heg : In e (Props.group c es)).
    { unfold Props.group. rewrite !filter_In. repeat split.
      - exact Hin.
      - now destruct (applyBlocks_entries _ _ _ Hin).
      - apply String.eqb_refl. }
    assert (Hfail : exists cf,
               Props.canonicalFor c
                 (TransformState.filters (SpecManager.toTransformState h st))
               = [cf]
               /\ NativeArrayProvider.matchesFilter h row cf = false).
    { rewrite Hcan. cbn [SpecManager.filters st].
      destruct (Props.group c es) as [|e1 [|e2 r]] eqn:Hg.
      - destruct Heg.
      - destruct Heg as [->|[]]. eexists. split; [reflexivity|].
        unfold NativeArrayProvider.matchesFilter.
        cbn [CanonicalFilter.columns CanonicalFilter.column
             CanonicalFilter.operator CanonicalFilter.value].
        rewrite Hrow, Hop.
        destruct (Hall e (or_introl eq_refl)) as [_ [s ->]]. reflexivity.
      - eexists. split; [reflexivity|].
        unfold NativeArrayProvider.matchesFilter.
        cbn [CanonicalFilter.columns CanonicalFilter.column
             CanonicalFilter.operator CanonicalFilter.value].
        rewrite Hrow.
        destruct (Hall e1 (or_introl eq_refl)) as [Hmode _].
        unfold SpecManager.modeOf. rewrite Hmode.
        change (NativeArrayProvider.checkCondition h (VNum n) "in"
                  (VArr (map FilterEntry.value (e1 :: e2 :: r))))
          with (arr_includes (map FilterEntry.value (e1 :: e2 :: r))
                  (VNum n)).
        apply strings_exclude_number. rewrite Forall_forall.
        intros v Hv. apply in_map_iff in Hv as [x [<- Hx]].
        now destruct (Hall x Hx). }
    destruct Hfail as [cf [Hcf Hfalse]].
    apply (forallb_false_of _ _ cf); [|exact Hfalse].
    assert (Hmem : In cf (Props.canonicalFor c
                            (TransformState.filters
                               (SpecManager.toTransformState h st)))).
    { rewrite Hcf. now left. }
    unfold Props.canonicalFor in Hmem. now apply filter_In in Hmem.
Qed.

Lemma equality_is_strict_witness :
  get (Examples.employee 1 "Alice" "Engineering > Backend" 120000 true)
    "salary" = VNum 120000
  /\ NativeArrayProvider.matchesFilters Examples.host
       (Examples.employee 1 "Alice" "Engineering > Backend" 120000 true)
       [CanonicalFilter.make "salary" None "=" (VStr "120000") None] = false
  /\ In (FilterEntry.make "salary" "=" (VStr "120000") true None)
       (FilterSearch.applyBlocks Schema.empty
          (FilterSearch.parseExpression "name:Alice salary:120000"))
  /\ NativeArrayProvider.matchesFilters Examples.host
       (Examples.employee 1 "Alice" "Engineering > Backend" 120000 true)
       (TransformState.filters
          (SpecManager.toTransformState Examples.host
             (SpecManager.makeState
                (FilterSearch.applyBlocks Schema.empty
                   (FilterSearch.parseExpression "name:Alice salary:120000"))
                [] (VNum 1) (VNum 50))))
     = false.
Proof.
  destruct (equality_is_strict Examples.host 120000) as [_ [Hrow Htext]].
  assert (Hfield :
            get (Examples.employee 1 "Alice" "Engineering > Backend" 120000
                   true) "salary" = VNum 120000) by reflexivity.
  assert (Hin : In (FilterEntry.make "salary" "=" (VStr "120000") true None)
                  (FilterSearch.applyBlocks Schema.empty
                     (FilterSearch.parseExpression
                        "name:Alice salary:120000"))).
  { right. left. reflexivity. }
  exact (conj Hfield
           (conj (proj1 (Hrow _ "salary" None Hfield))
              (conj Hin
                 (Htext Schema.empty "name:Alice salary:120000" []
                    (VNum 1) (VNum 50) _ _ Hin eq_refl Hfield)))).
Defined.

(* ================================================================== *)
(** * Schema inference *)
(* ================================================================== *)

Lemma lookup_set_same {A : Type} (m : Dict A) (k : string) (v : A) :
  lookup (set m k v) k = Some v.
Proof.
  induction m as [|[k' w] m IH]; simpl.
  - now rewrite String.eqb_refl.
  - destruct (String.eqb_spec k' k) as [->|Hk]; simpl.
    + now rewrite String.eqb_refl.
    + destruct (String.eqb_spec k' k); [contradiction|exact IH].
Qed.

Lemma lookup_set_other {A : Type} (m : Dict A) (k k' : string) (v : A) :
  k <> k' -> lookup (set m k v) k' = lookup m k'.
Proof.
  intros Hne. induction m as [|[k0 w] m IH]; simpl.
  - destruct (String.eqb_spec k k'); [contradiction|reflexivity].
  - destruct (String.eqb_spec k0 k) as [->|Hk]; simpl.
    + destruct (String.eqb_spec k k'); [contradiction|reflexivity].
    + now rewrite IH.
Qed.

Section Inference.

Variable h : Host.
Variable sample : Row.
Variable key : string.
Variable s : string.
Hypothesis Hvalue : get sample key = VStr s.
Hypothesis Hdelim : includes s ">" = true.
Hypothesis Hname : startsWith key "__" = false.

Lemma inferColumn_marks (acc : Schema.t) :
  Props.marked key (NativeArrayProvider.inferColumn h sample acc key).
Proof.
  unfold NativeArrayProvider.inferColumn, Props.marked.
  rewrite Hname, Hvalue, Hdelim. simpl.
  now rewrite !lookup_set_same.
Qed.

Lemma inferColumn_keeps (acc : Schema.t) (k : string) :
  Props.marked key acc ->
  Props.marked key (NativeArrayProvider.inferColumn h sample acc k).
Proof.
  intros Hacc. destruct (String.eqb_spec k key) as [->|Hne].
  - apply inferColumn_marks.
  - destruct Hacc as [Ht Hh].
    unfold NativeArrayProvider.inferColumn, Props.marked.
    destruct (startsWith k "__"); [now split|].
    destruct (get sample k) as [| |b|n|v|elems]; simpl;
      try (now rewrite lookup_set_other by exact Hne).
    destruct (includes v ">"); simpl;
      now rewrite !lookup_set_other by exact Hne.
Qed.

Lemma fold_keeps (ks : list string) (acc : Schema.t) :
  Props.marked key acc ->
  Props.marked key
    (fold_left (NativeArrayProvider.inferColumn h sample) ks acc).
Proof.
  revert acc. induction ks as [|k ks IH]; intros acc Hacc; simpl.
  - exact Hacc.
  - apply IH. now apply inferColumn_keeps.
Qed.

Lemma fold_marks (ks : list string) (acc : Schema.t) :
  In key ks ->
  Props.marked key
    (fold_left (NativeArrayProvider.inferColumn h sample) ks acc).
Proof.
  intros Hin. apply in_split in Hin as [before [after ->]].
  rewrite fold_left_app. simpl. apply fold_keeps, inferColumn_marks.
Qed.

End Inference.

(** ** The column list and the type map *)

Section SchemaFacts.
Variable h : Host.
Variable sample : Row.

Lemma inferColumn_columns (acc : Schema.t) (key : string) :
  Schema.columns (NativeArrayProvider.inferColumn h sample acc key)
  = Schema.columns acc
    ++ (if Notions.reserved key then []
        else [(VStr key,
               VStr (NativeArrayProvider.inferType h (get sample key)))]).
Proof.
  unfold NativeArrayProvider.inferColumn, Notions.reserved.
  destruct (startsWith key "__"); [now rewrite app_nil_r|].
  destruct (get sample key) as [| |b|n|s|elems]; try reflexivity.
  now destruct (includes s ">").
Qed.

Lemma fold_columns (ks : list string) (acc : Schema.t) :
  Schema.columns (fold_left (NativeArrayProvider.inferColumn h sample) ks acc)
  = Schema.columns acc
    ++ map (fun key =>
              (VStr key,
               VStr (NativeArrayProvider.inferType h (get sample key))))
         (filter (fun key => negb (Notions.reserved key)) ks).
Proof.
  revert acc. induction ks as [|k ks IH]; intros acc; simpl.
  - now rewrite app_nil_r.
  - rewrite IH, inferColumn_columns, <- app_assoc.
    now destruct (Notions.reserved k).
Qed.

Lemma inferColumn_types (acc : Schema.t) (key k : string) :
  lookup (Schema.types (NativeArrayProvider.inferColumn h sample acc key)) k
  = if negb (Notions.reserved key) && String.eqb key k
    then Some (VStr (Notions.mapType h (get sample key)))
    else lookup (Schema.types acc) k.
Proof.
  unfold NativeArrayProvider.inferColumn, Notions.reserved, Notions.mapType.
  destruct (startsWith key "__"); [reflexivity|]. cbn [negb andb].
  destruct (String.eqb_spec key k) as [->|Hne].
  - destruct (get sample k) as [| |b|n|s|elems]; cbn [Schema.types];
      rewrite ?lookup_set_same; try reflexivity.
    destruct (includes s ">"); cbn [Schema.types];
      now rewrite ?lookup_set_same.
  - destruct (get sample key) as [| |b|n|s|elems]; cbn [Schema.types];
      rewrite ?lookup_set_other by exact Hne; try reflexivity.
    destruct (includes s ">"); cbn [Schema.types];
      now rewrite ?lookup_set_other by exact Hne.
Qed.

Lemma fold_types (ks : list string) (acc : Schema.t) (k : string) :
  lookup
    (Schema.types (fold_left (NativeArrayProvider.inferColumn h sample) ks acc))
    k
  = if negb (Notions.reserved k) && existsb (String.eqb k) ks
    then Some (VStr (Notions.mapType h (get sample k)))
    else lookup (Schema.types acc) k.
Proof.
  revert acc. induction ks as [|key ks IH]; intros acc; simpl.
  - now rewrite andb_false_r.
  - rewrite IH, inferColumn_types. rewrite (String.eqb_sym k key).
    destruct (String.eqb_spec key k) as [->|Hne]; simpl.
    + destruct (Notions.reserved k); simpl; [reflexivity|].
      now destruct (existsb (String.eqb k) ks).
    + now rewrite andb_false_r.
Qed.

Lemma inferType_primitive (value : Value) :
  NativeArrayProvider.inferType h value <> "hierarchy".
Proof.
  unfold NativeArrayProvider.inferType.
  destruct value as [| |b|n|t|elems]; try discriminate.
  destruct (DateParses h t); [discriminate|].
  destruct (StringToNumber h t); discriminate.
Qed.

End SchemaFacts.

(** C9, as the code has it: on a non-empty dataset, a column of the first
    row that is not reserved (its name does not start with two underscores)
    and whose value there is a string containing [>] has type [hierarchy] in
    the schema's type map and the entry [{delimiter: '>'}] in its hierarchy
    map, whatever type [inferType] gives the value (string, date or number).
    The override stops there: the entry of the column in the schema's column
    list is pushed before it and keeps the type [inferType] gave, and no
    entry of the column list of any dataset has the type [hierarchy]. *)
Theorem hierarchy_detection (h : Host) (sample : Row) (rest : list Row)
  (key s : string) :
  In key (keys sample) ->
  startsWith key "__" = false ->
  get sample key = VStr s ->
  includes s ">" = true ->
  let schema := NativeArrayProvider.inferSchema h (sample :: rest) in
  lookup (Schema.types schema) key = Some (VStr "hierarchy")
  /\ lookup (Schema.hierarchy schema) key = Some ">"
  /\ In (VStr key, VStr (NativeArrayProvider.inferType h (VStr s)))
       (Schema.columns schema)
  /\ (forall data entry,
         In entry (Schema.columns (NativeArrayProvider.inferSchema h data)) ->
         snd entry <> VStr "hierarchy").
Proof.
  intros Hin Hname Hvalue Hdelim schema.
  destruct (fold_marks h sample key s Hvalue Hdelim Hname (keys sample)
              Schema.empty Hin) as [Htypes Hhier].
  split; [exact Htypes|]. split; [exact Hhier|]. split.
  - unfold schema, NativeArrayProvider.inferSchema. rewrite fold_columns.
    apply in_or_app. right. apply in_map_iff. exists key. split.
    + now rewrite Hvalue.
    + apply filter_In. split; [exact Hin|].
      unfold Notions.reserved. now rewrite Hname.
  - intros data entry Hentry. unfold NativeArrayProvider.inferSchema in Hentry.
    destruct data as [|first others]; [destruct Hentry|].
    rewrite fold_columns in Hentry. apply in_app_or in Hentry as [[]|Hentry].
    apply in_map_iff in Hentry as [k [<- _]]. cbn [snd].
    intros Heq. injection Heq as Heq.
    exact (inferType_primitive h _ Heq).
Qed.

Lemma hierarchy_detection_witness :
  In "department" (keys (Examples.employee 1 "Alice" "Engineering > Backend"
                           120000 true))
  /\ startsWith "department" "__" = false
  /\ get (Examples.employee 1 "Alice" "Engineering > Backend" 120000 true)
       "department" = VStr "Engineering > Backend"
  /\ includes "Engineering > Backend" ">" = true
  /\ lookup (Schema.types
               (NativeArrayProvider.inferSchema Examples.host
                  Examples.employees)) "department"
     = Some (VStr "hierarchy")
  /\ lookup (Schema.hierarchy
               (NativeArrayProvider.inferSchema Examples.host
                  Examples.employees)) "department"
     = Some ">"
  /\ In (VStr "department", VStr "string")
       (Schema.columns
          (NativeArrayProvider.inferSchema Examples.host Examples.employees)).
Proof.
  assert (Hin : In "department"
                  (keys (Examples.employee 1 "Alice" "Engineering > Backend"
                           120000 true))).
  { right. right. left. reflexivity. }
  destruct (hierarchy_detection Examples.host _
              (tl Examples.employees) "department" "Engineering > Backend"
              Hin eq_refl eq_refl eq_refl)
    as [Htypes [Hhier [Hcolumn _]]].
  exact (conj Hin (conj eq_refl (conj eq_refl (conj eq_refl
           (conj Htypes (conj Hhier Hcolumn)))))).
Defined.

(** The column list keeps the type [inferType] gave: for the sample data the
    entry of [department] in [columns] reads [string]. *)
Lemma hierarchy_column_entry :
  In (VStr "department", VStr "string")
    (Schema.columns
       (NativeArrayProvider.inferSchema Examples.host Examples.employees)).
Proof. right. right. left. reflexivity. Qed.

(* ================================================================== *)
(** * Properties of the expression parser and serializer *)
(* ================================================================== *)

Section Parser.

Import FilterSearch Props.

Lemma space_not_word (c : ascii) : is_space c = true -> is_word c = false.
Proof.
  unfold is_space, is_word, code. intros Hs.
  destruct c as [[] [] [] [] [] [] [] []]; vm_compute in Hs |- *; congruence.
Qed.

Lemma colon_not_word (c : ascii) :
  Ascii.eqb c colon = true -> is_word c = false.
Proof. intros Hc. apply Ascii.eqb_eq in Hc. now subst. Qed.

Lemma prefix_drop (p s : string) :
  String.prefix p s = true -> s = (p ++ drop (String.length p) s)%string.
Proof.
  revert s. induction p as [|a p IH]; intros [|b s]; simpl;
    try reflexivity; try discriminate.
  destruct (ascii_dec a b) as [->|]; intros Hp; [|discriminate].
  f_equal. now apply IH.
Qed.

Lemma span_stop (f : ascii -> bool) (a b : string) :
  all_chars f a = true -> first_is f b = false ->
  span f (a ++ b) = (a, b).
Proof.
  intros Ha Hb. induction a as [|c a IH]; simpl in *.
  - destruct b as [|c b]; [reflexivity|]. simpl in *. now rewrite Hb.
  - apply andb_true_iff in Ha as [Hc Ha]. now rewrite Hc, IH.
Qed.

Lemma stops_word (tail : string) :
  stops tail = true -> first_is is_word tail = false.
Proof.
  unfold stops. destruct tail as [|c t]; [reflexivity|]. simpl.
  unfold not_space. rewrite negb_involutive. apply space_not_word.
Qed.

Lemma stops_not_space (tail : string) :
  stops tail = true -> first_is not_space tail = false.
Proof. unfold stops. now rewrite negb_true_iff. Qed.

Lemma stops_not_space_or_colon (tail : string) :
  stops tail = true -> first_is not_space_or_colon tail = false.
Proof.
  unfold stops. destruct tail as [|c t]; [reflexivity|]. simpl.
  unfold not_space, not_space_or_colon. rewrite negb_involutive. now intros ->.
Qed.

Lemma matchKeyValue_token (column rest tail : string) :
  tokenShape (KeyValue column rest) = true -> stops tail = true ->
  matchKeyValue (column ++ String colon (rest ++ tail))
  = Some (column, rest, tail).
Proof.
  simpl. rewrite !andb_true_iff. intros [[[Hc Hcw] Hr] Hrs] Htail.
  unfold matchKeyValue.
  rewrite (span_stop is_word column) by (try exact Hcw; reflexivity).
  destruct column as [|c0 column]; [discriminate|].
  rewrite Ascii.eqb_refl.
  rewrite (span_stop not_space rest tail Hrs (stops_not_space _ Htail)).
  now destruct rest.
Qed.

Lemma span_word_no_colon (w tail : string) :
  all_chars not_space_or_colon w = true -> stops tail = true ->
  first_is (fun c => Ascii.eqb c colon) (snd (span is_word (w ++ tail)))
  = false.
Proof.
  intros Hw Htail. induction w as [|c w IH]; simpl in *.
  - destruct tail as [|c t]; [reflexivity|]. simpl.
    pose proof (stops_word _ Htail) as Hword. simpl in Hword.
    rewrite Hword. simpl.
    pose proof (stops_not_space_or_colon _ Htail) as Hn. simpl in Hn.
    unfold not_space_or_colon in Hn. unfold stops in Htail. simpl in Htail.
    unfold not_space in Htail. rewrite negb_involutive in Htail.
    destruct (Ascii.eqb c colon) eqn:Hc; [|reflexivity].
    apply Ascii.eqb_eq in Hc. subst c. discriminate.
  - apply andb_true_iff in Hw as [Hc Hw].
    destruct (is_word c).
    + destruct (span is_word (w ++ tail)) as [a b] eqn:Hsp. simpl in *.
      now apply IH.
    + simpl. unfold not_space_or_colon in Hc.
      apply andb_true_iff in Hc as [_ Hc]. now apply negb_true_iff in Hc.
Qed.

Lemma matchKeyValue_word (w tail : string) :
  all_chars not_space_or_colon w = true -> stops tail = true ->
  matchKeyValue (w ++ tail) = None.
Proof.
  intros Hw Htail. pose proof (span_word_no_colon w tail Hw Htail) as Hno.
  unfold matchKeyValue. destruct (span is_word (w ++ tail)) as [a b].
  simpl in Hno. destruct a; [reflexivity|].
  destruct b as [|c b]; [reflexivity|]. simpl in Hno. now rewrite Hno.
Qed.

Lemma matchWord_token (w tail : string) :
  tokenShape (Word w) = true -> stops tail = true ->
  matchWord (w ++ tail) = Some (w, tail).
Proof.
  simpl. rewrite andb_true_iff. intros [Hne Hw] Htail. unfold matchWord.
  rewrite (span_stop _ w tail Hw (stops_not_space_or_colon _ Htail)).
  now destruct w.
Qed.

Lemma render_nonEmpty (t : Token) :
  tokenShape t = true -> nonEmpty (render t) = true.
Proof.
  destruct t as [column rest|w]; simpl.
  - now destruct column.
  - now destruct w.
Qed.

Lemma append_assoc (a b c : string) :
  ((a ++ b) ++ c)%string = (a ++ (b ++ c))%string.
Proof. induction a as [|x a IH]; simpl; [reflexivity|now rewrite IH]. Qed.

Lemma append_empty (a : string) : (a ++ EmptyString)%string = a.
Proof. induction a as [|x a IH]; simpl; [reflexivity|now rewrite IH]. Qed.

Lemma length_append (a b : string) :
  String.length (a ++ b) = String.length a + String.length b.
Proof. induction a as [|x a IH]; simpl; [reflexivity|now rewrite IH]. Qed.

Lemma nonEmpty_length (s : string) : nonEmpty s = true -> 1 <= String.length s.
Proof. destruct s; [discriminate|simpl; lia]. Qed.

(** One turn of the loop, when there is text left. *)
Lemma parseFrom_turn (fuel : nat) (s : string) :
  nonEmpty s = true ->
  parseFrom (S fuel) s
  = match matchKeyValue s with
    | Some (column, value, rest) =>
        let (operator, cleanValue) := splitOperator value in
        Filter column (normalizeOperator operator) cleanValue
          (column ++ String colon value)%string
        :: parseFrom fuel rest
    | None =>
        match matchWord s with
        | Some (w, rest) => Fulltext w w :: parseFrom fuel rest
        | None => parseFrom fuel (drop 1 s)
        end
    end.
Proof. destruct s; [discriminate|reflexivity]. Qed.

Lemma parseFrom_empty (fuel : nat) : parseFrom fuel EmptyString = [].
Proof. now destruct fuel. Qed.

(** One turn of the loop on a token. *)
Lemma parseFrom_token (fuel : nat) (t : Token) (tail : string) :
  tokenShape t = true -> stops tail = true ->
  parseFrom (S fuel) (render t ++ tail) = blockOf t :: parseFrom fuel tail.
Proof.
  intros Ht Htail. pose proof (render_nonEmpty t Ht) as Hne.
  rewrite parseFrom_turn by (destruct (render t); [discriminate|reflexivity]).
  destruct t as [column rest|w]; cbn [render blockOf].
  - rewrite append_assoc. cbn [String.append].
    rewrite (matchKeyValue_token column rest tail Ht Htail).
    now destruct (splitOperator rest).
  - simpl in Ht. apply andb_true_iff in Ht as [Hw Hall].
    rewrite (matchKeyValue_word w tail Hall Htail).
    rewrite (matchWord_token w tail)
      by (try exact Htail; simpl; now rewrite Hw).
    reflexivity.
Qed.

(** One turn of the loop on white space: no match starts there. *)
Lemma parseFrom_space (fuel : nat) (c : ascii) (s : string) :
  is_space c = true ->
  parseFrom (S fuel) (String c s) = parseFrom fuel s.
Proof.
  intros Hc. cbn [parseFrom]. unfold matchKeyValue, matchWord.
  cbn [span]. rewrite (space_not_word c Hc).
  unfold not_space_or_colon. rewrite Hc. reflexivity.
Qed.

Lemma expression_cons (t : Token) (ts : list Token) :
  expression (t :: ts)
  = match ts with
    | [] => render t
    | _ :: _ => (render t ++ String " " (expression ts))%string
    end.
Proof. unfold expression, join. simpl. now destruct ts. Qed.

Lemma parseFrom_expression (ts : list Token) :
  forallb tokenShape ts = true ->
  forall fuel, String.length (expression ts) <= fuel ->
  parseFrom fuel (expression ts) = map blockOf ts.
Proof.
  induction ts as [|t ts IH]; intros Hts fuel Hfuel.
  - apply parseFrom_empty.
  - simpl in Hts. apply andb_true_iff in Hts as [Ht Hts].
    rewrite expression_cons in *.
    pose proof (nonEmpty_length _ (render_nonEmpty t Ht)) as Hlen.
    destruct ts as [|t' ts'].
    + destruct fuel as [|fuel]; [lia|].
      rewrite <- (append_empty (render t)).
      rewrite parseFrom_token by (try exact Ht; reflexivity).
      now rewrite parseFrom_empty.
    + rewrite length_append in Hfuel. cbn [String.length] in Hfuel.
      destruct fuel as [|[|fuel]]; try lia.
      rewrite parseFrom_token by (try exact Ht; reflexivity).
      rewrite parseFrom_space by reflexivity.
      cbn [map]. f_equal. apply IH; [exact Hts|lia].
Qed.

Lemma serializeBlock_blockOf (t : Token) :
  writtenBack t = true -> serializeBlock (blockOf t) = render t.
Proof.
  destruct t as [column rest|w]; [|reflexivity].
  cbn [writtenBack]. rewrite andb_true_iff, !negb_true_iff. intros [Heq Htilde].
  cbn [blockOf render]. unfold splitOperator, sigils. cbn [matchSigil].
  rewrite Heq, Htilde.
  repeat match goal with
  | |- context [String.prefix ?op rest] =>
      let H := fresh "Hp" in
      destruct (String.prefix op rest) eqn:H;
        [apply prefix_drop in H; simpl in H; simpl; now rewrite <- H |]
  end.
  reflexivity.
Qed.

Lemma writtenAs_typed (t : Token) : writtenBack t = true -> writtenAs t = t.
Proof.
  destruct t as [column [|c r]|w]; try reflexivity.
  cbn [writtenBack writtenAs String.prefix].
  destruct (Ascii.eqb_spec c "~") as [->|_].
  - destruct r; discriminate.
  - destruct (Ascii.eqb_spec c "=") as [->|_]; [|reflexivity].
    destruct r; discriminate.
Qed.

Lemma serializeBlock_writtenAs (t : Token) :
  serializeBlock (blockOf t) = render (writtenAs t).
Proof.
  destruct (writtenBack t) eqn:Hback.
  - now rewrite (writtenAs_typed t Hback), serializeBlock_blockOf.
  - destruct t as [column [|c r]|w]; try discriminate.
    cbn [writtenAs].
    destruct (Ascii.eqb_spec c "~") as [->|Htilde]; [now destruct r|].
    destruct (Ascii.eqb_spec c "=") as [->|Heq]; [now destruct r|].
    exfalso. cbn [writtenBack String.prefix] in Hback.
    destruct (ascii_dec "=" c) as [<-|_]; [congruence|].
    destruct (ascii_dec "~" c) as [<-|_]; [congruence|discriminate].
Qed.

Lemma serialize_tokens (ts : list Token) :
  serializeBlocks (map blockOf ts) = expression (map writtenAs ts).
Proof.
  unfold serializeBlocks, expression. f_equal. rewrite !map_map.
  apply map_ext. intros t. apply serializeBlock_writtenAs.
Qed.

Lemma parseExpression_token (t : Token) :
  tokenShape t = true -> parseExpression (render t) = [blockOf t].
Proof.
  intros Ht. unfold parseExpression.
  change (render t) with (expression [t]).
  apply (parseFrom_expression [t]); [cbn [forallb]; now rewrite Ht|].
  apply Nat.le_refl.
Qed.

End Parser.

(** C3, as the code has it.  Take an expression made of tokens separated by
    single spaces, each token a bare word or [column:rest].  Parsing it
    yields one block per token, and serializing these blocks gives the
    expression with every token [column:~value] written [column:LIKEvalue]
    and every token [column:=value] written [column:value]; the expression
    comes back unchanged when no [rest] starts with the sigil [=] or [~].
    A filter block whose operator is [=] is written [column:value], without
    the operator.  A token [column:~value] alone is parsed to one block with
    the operator [LIKE] and comes back as [column:LIKEvalue]; a token
    [column:=value] alone is parsed to one block with the operator [=] and
    comes back as [column:value]. *)
Theorem serialize_parse_roundtrip (ts : list Props.Token) :
  forallb Props.tokenShape ts = true ->
  FilterSearch.parseExpression (Props.expression ts) = map Props.blockOf ts
  /\ FilterSearch.serializeBlocks
       (FilterSearch.parseExpression (Props.expression ts))
     = Props.expression (map Props.writtenAs ts)
  /\ (forallb Props.writtenBack ts = true ->
      FilterSearch.serializeBlocks
        (FilterSearch.parseExpression (Props.expression ts))
      = Props.expression ts)
  /\ (forall column value raw,
         FilterSearch.serializeBlock
           (FilterSearch.Filter column "=" value raw)
         = (column ++ String FilterSearch.colon value)%string)
  /\ (forall column value,
         Props.tokenShape (Props.KeyValue column (String "~" value)) = true ->
         FilterSearch.parseExpression (column ++ ":~" ++ value)
         = [FilterSearch.Filter column "LIKE" value
              (column ++ ":~" ++ value)]
         /\ FilterSearch.serializeBlocks
              (FilterSearch.parseExpression (column ++ ":~" ++ value))
            = (column ++ ":LIKE" ++ value)%string)
  /\ (forall column value,
         Props.tokenShape (Props.KeyValue column (String "=" value)) = true ->
         FilterSearch.parseExpression (column ++ ":=" ++ value)
         = [FilterSearch.Filter column "=" value (column ++ ":=" ++ value)]
         /\ FilterSearch.serializeBlocks
              (FilterSearch.parseExpression (column ++ ":=" ++ value))
            = (column ++ ":" ++ value)%string).
Proof.
  intros Hshape.
  assert (Hparse : FilterSearch.parseExpression (Props.expression ts)
                   = map Props.blockOf ts).
  { unfold FilterSearch.parseExpression.
    now apply parseFrom_expression. }
  assert (Hwritten : FilterSearch.serializeBlocks
                       (FilterSearch.parseExpression (Props.expression ts))
                     = Props.expression (map Props.writtenAs ts)).
  { rewrite Hparse. apply serialize_tokens. }
  split; [exact Hparse|]. split; [exact Hwritten|].
  split; [|split; [reflexivity|split]].
  - intros Hback. rewrite Hwritten. f_equal.
    rewrite <- (map_id ts) at 2. apply map_ext_in. intros t Hin.
    apply writtenAs_typed. rewrite forallb_forall in Hback. now apply Hback.
  - intros column value Htoken.
    change (column ++ ":~" ++ value)%string
      with (Props.render (Props.KeyValue column (String "~" value))).
    rewrite (parseExpression_token _ Htoken).
    split; [now destruct value|].
    change [Props.blockOf (Props.KeyValue column (String "~" value))]
      with (map Props.blockOf [Props.KeyValue column (String "~" value)]).
    now rewrite serialize_tokens.
  - intros column value Htoken.
    change (column ++ ":=" ++ value)%string
      with (Props.render (Props.KeyValue column (String "=" value))).
    rewrite (parseExpression_token _ Htoken).
    split; [now destruct value|].
    change [Props.blockOf (Props.KeyValue column (String "=" value))]
      with (map Props.blockOf [Props.KeyValue column (String "=" value)]).
    now rewrite serialize_tokens.
Qed.

Lemma serialize_parse_roundtrip_witness :
  forallb Props.tokenShape
    [Props.KeyValue "department" "Engineering";
     Props.KeyValue "salary" ">=50000"; Props.Word "senior"] = true
  /\ forallb Props.writtenBack
       [Props.KeyValue "department" "Engineering";
        Props.KeyValue "salary" ">=50000"; Props.Word "senior"] = true
  /\ Props.expression
       [Props.KeyValue "department" "Engineering";
        Props.KeyValue "salary" ">=50000"; Props.Word "senior"]
     = "department:Engineering salary:>=50000 senior"
  /\ FilterSearch.serializeBlocks
       (FilterSearch.parseExpression
          (Props.expression
             [Props.KeyValue "department" "Engineering";
              Props.KeyValue "salary" ">=50000"; Props.Word "senior"]))
     = Props.expression
         [Props.KeyValue "department" "Engineering";
          Props.KeyValue "salary" ">=50000"; Props.Word "senior"]
  /\ Props.tokenShape (Props.KeyValue "name" "~John") = true
  /\ FilterSearch.serializeBlocks (FilterSearch.parseExpression "name:~John")
     = "name:LIKEJohn"
  /\ Props.tokenShape (Props.KeyValue "name" "=Alice") = true
  /\ FilterSearch.serializeBlocks
       (FilterSearch.parseExpression "name:=Alice")
     = "name:Alice".
Proof.
  destruct (serialize_parse_roundtrip
              [Props.KeyValue "department" "Engineering";
               Props.KeyValue "salary" ">=50000"; Props.Word "senior"]
              eq_refl)
    as [_ [_ [Hback [_ [Htilde Hequals]]]]].
  exact (conj eq_refl (conj eq_refl (conj eq_refl
           (conj (Hback eq_refl)
              (conj eq_refl
                 (conj (proj2 (Htilde "name" "John" eq_refl))
                    (conj eq_refl
                       (proj2 (Hequals "name" "Alice" eq_refl))))))))).
Defined.

(** Against C3 as stated: the expression [engineering  manager], two bare
    words separated by two spaces, holds no operator at all; it is parsed
    to the two full-text blocks, which the serializer joins with a single
    space. *)
Lemma spacing_is_not_restored :
  FilterSearch.parseExpression "engineering  manager"
  = [FilterSearch.Fulltext "engineering" "engineering";
     FilterSearch.Fulltext "manager" "manager"]
  /\ FilterSearch.serializeBlocks
       (FilterSearch.parseExpression "engineering  manager")
     = "engineering manager"
  /\ FilterSearch.serializeBlocks
       (FilterSearch.parseExpression "engineering  manager")
     <> "engineering  manager".
Proof.
  split; [vm_compute; reflexivity|].
  split; [vm_compute; reflexivity|].
  vm_compute. discriminate.
Qed.

(** The expression [name:~Al] has the shape of a filter token with the
    operator [~], and the serializer writes its block back as
    [name:LIKEAl]. *)
Lemma tilde_comes_back_as_like :
  Props.tokenShape (Props.KeyValue "name" "~Al") = true
  /\ Props.expression [Props.KeyValue "name" "~Al"] = "name:~Al"
  /\ FilterSearch.serializeBlocks (FilterSearch.parseExpression "name:~Al")
     = "name:LIKEAl"
  /\ FilterSearch.serializeBlocks (FilterSearch.parseExpression "name:~Al")
     <> "name:~Al".
Proof. repeat split. discriminate. Qed.

(* ================================================================== *)
(** * The two executors on one transform *)
(* ================================================================== *)

Lemma mapM_at {A B : Type} (f : A -> Result B) (before after : list A)
  (x y : A) :
  f x = f y -> mapM f (before ++ x :: after) = mapM f (before ++ y :: after).
Proof.
  intros Hxy. induction before as [|b before IH]; simpl.
  - now rewrite Hxy.
  - now rewrite IH.
Qed.

(** The default case of the [switch] of [buildWhereClause] writes the
    clause of [=]. *)
Lemma buildClause_default (p : DuckDBWasmProvider.t) (f : CanonicalFilter.t) :
  ~ In (Props.sqlOperator f) Props.sqlOperators ->
  DuckDBWasmProvider.buildClause p f
  = DuckDBWasmProvider.buildClause p (Props.withOperator "=" f).
Proof.
  intros Hop. unfold DuckDBWasmProvider.buildClause.
  cbn [Props.withOperator CanonicalFilter.column CanonicalFilter.operator
       CanonicalFilter.value].
  fold (Props.sqlOperator f).
  destruct (DuckDBWasmProvider.assertColumn p (CanonicalFilter.column f))
    as [e|column]; [reflexivity|]. cbn [bind].
  skip_cases (Props.sqlOperator f) Props.sqlOperators Hop.
  reflexivity.
Qed.

Lemma buildWhereClause_default (p : DuckDBWasmProvider.t)
  (f : CanonicalFilter.t) (before after : list CanonicalFilter.t) :
  ~ In (Props.sqlOperator f) Props.sqlOperators ->
  DuckDBWasmProvider.buildWhereClause p (before ++ f :: after)
  = DuckDBWasmProvider.buildWhereClause p
      (before ++ Props.withOperator "=" f :: after).
Proof.
  intros Hop. unfold DuckDBWasmProvider.buildWhereClause.
  rewrite !length_app. cbn [List.length].
  now rewrite (mapM_at _ before after f (Props.withOperator "=" f)
                 (buildClause_default p f Hop)).
Qed.

Lemma sql_query_default (conn : string -> Result (list Row))
  (p : DuckDBWasmProvider.t) (f : CanonicalFilter.t)
  (before after : list CanonicalFilter.t) (sort : list SortRule.t)
  (pagination : option Pagination.t) :
  ~ In (Props.sqlOperator f) Props.sqlOperators ->
  DuckDBWasmProvider.query conn p
    (TransformState.make (before ++ f :: after) sort pagination)
  = DuckDBWasmProvider.query conn p
      (TransformState.make (before ++ Props.withOperator "=" f :: after)
         sort pagination).
Proof.
  intros Hop. unfold DuckDBWasmProvider.query.
  destruct (DuckDBWasmProvider.ensureSchema conn p) as [e|p']; [reflexivity|].
  cbn [bind TransformState.filters].
  now rewrite (buildWhereClause_default p' f before after Hop).
Qed.

Lemma native_query_default (h : Host) (p : NativeArrayProvider.t)
  (f : CanonicalFilter.t) (before after : list CanonicalFilter.t)
  (sort : list SortRule.t) (pagination : option Pagination.t) :
  ~ In (CanonicalFilter.operator f) Props.recognizedOperators ->
  CanonicalFilter.columns f <> Some [] ->
  NativeArrayProvider.query h p
    (TransformState.make (before ++ f :: after) sort pagination)
  = NativeArrayProvider.query h p
      (TransformState.make (before ++ after) sort pagination).
Proof.
  intros Hop Hcols. rewrite !query_unfold.
  assert (Hpass : Props.passing h p (before ++ f :: after)
                  = Props.passing h p (before ++ after)).
  { unfold Props.passing. apply filter_ext. intros row.
    now apply matchesFilters_drop. }
  unfold Props.ordered. simpl. now rewrite Hpass.
Qed.

(** C1, as the code has it.  The executors do not agree on every transform.
    For a filter whose operator neither executor has a case for, the native
    executor returns what it returns without the filter, whereas the SQL
    executor, whatever the engine behind it, issues the statements of the
    same transform with the operator replaced by [=] and returns their
    result. *)
Theorem executors_on_unknown_operator (h : Host)
  (conn : string -> Result (list Row)) (native : NativeArrayProvider.t)
  (sql : DuckDBWasmProvider.t) (f : CanonicalFilter.t)
  (before after : list CanonicalFilter.t) (sort : list SortRule.t)
  (pagination : option Pagination.t) :
  ~ In (CanonicalFilter.operator f) Props.recognizedOperators ->
  ~ In (Props.sqlOperator f) Props.sqlOperators ->
  CanonicalFilter.columns f <> Some [] ->
  NativeArrayProvider.query h native
    (TransformState.make (before ++ f :: after) sort pagination)
  = NativeArrayProvider.query h native
      (TransformState.make (before ++ after) sort pagination)
  /\ DuckDBWasmProvider.query conn sql
       (TransformState.make (before ++ f :: after) sort pagination)
     = DuckDBWasmProvider.query conn sql
         (TransformState.make (before ++ Props.withOperator "=" f :: after)
            sort pagination).
Proof.
  intros Hnative Hsql Hcols. split.
  - now apply native_query_default.
  - now apply sql_query_default.
Qed.

Lemma invalid_not_recognized :
  ~ In (CanonicalFilter.operator Examples.invalidFilter)
      Props.recognizedOperators.
Proof. simpl. intuition discriminate. Defined.

Lemma invalid_not_sql :
  ~ In (Props.sqlOperator Examples.invalidFilter) Props.sqlOperators.
Proof. vm_compute. intuition discriminate. Defined.

Lemma executors_on_unknown_operator_witness :
  ~ In (CanonicalFilter.operator Examples.invalidFilter)
      Props.recognizedOperators
  /\ ~ In (Props.sqlOperator Examples.invalidFilter) Props.sqlOperators
  /\ CanonicalFilter.columns Examples.invalidFilter <> Some []
  /\ NativeArrayProvider.query Examples.host Examples.native
       (TransformState.make [Examples.invalidFilter] [] None)
     = NativeArrayProvider.query Examples.host Examples.native
         (TransformState.make [] [] None)
  /\ DuckDBWasmProvider.query Examples.silent Examples.duck
       (TransformState.make [Examples.invalidFilter] [] None)
     = DuckDBWasmProvider.query Examples.silent Examples.duck
         (TransformState.make [Examples.nameEquals] [] None).
Proof.
  assert (Hcols : CanonicalFilter.columns Examples.invalidFilter <> Some []).
  { discriminate. }
  exact (conj invalid_not_recognized (conj invalid_not_sql (conj Hcols
           (executors_on_unknown_operator Examples.host Examples.silent
              Examples.native Examples.duck Examples.invalidFilter [] [] []
              None invalid_not_recognized invalid_not_sql Hcols)))).
Defined.

(** Against C1 as stated: on the sample dataset no engine and no state of
    the SQL provider make the SQL executor agree with the native executor
    both on the filter [name INVALID_OP 'Alice'] and on the filter
    [name = 'Alice'].  The SQL executor answers the two alike, the native
    executor counts five records for the first and one for the second. *)
Lemma executors_disagree :
  ~ exists (conn : string -> Result (list Row)) (sql : DuckDBWasmProvider.t),
      Props.sameAnswer
        (DuckDBWasmProvider.query conn sql
           (TransformState.make [Examples.invalidFilter] [] None))
        (NativeArrayProvider.query Examples.host Examples.native
           (TransformState.make [Examples.invalidFilter] [] None))
      /\ Props.sameAnswer
           (DuckDBWasmProvider.query conn sql
              (TransformState.make [Examples.nameEquals] [] None))
           (NativeArrayProvider.query Examples.host Examples.native
              (TransformState.make [Examples.nameEquals] [] None)).
Proof.
  intros [conn [sql [[p1 [r1 [H1 [_ Hc1]]]] [p2 [r2 [H2 [_ Hc2]]]]]]].
  pose proof (sql_query_default conn sql Examples.invalidFilter [] [] []
                None invalid_not_sql) as Hsame.
  change (DuckDBWasmProvider.query conn sql
            (TransformState.make [Examples.invalidFilter] [] None)
          = DuckDBWasmProvider.query conn sql
              (TransformState.make [Examples.nameEquals] [] None)) in Hsame.
  rewrite Hsame, H2 in H1. injection H1 as _ Hr. subst r2.
  rewrite Hc1 in Hc2. vm_compute in Hc2. discriminate.
Qed.

(* ================================================================== *)
(** * The fuel of the parser loop is never exhausted *)
(* ================================================================== *)

Section Fuel.

Import FilterSearch.

Lemma span_length (f : ascii -> bool) (s : string) :
  String.length (fst (span f s)) + String.length (snd (span f s))
  = String.length s.
Proof.
  induction s as [|c s IH]; simpl; [reflexivity|].
  destruct (f c); [|reflexivity].
  destruct (span f s) as [a b]. simpl in *. now rewrite IH.
Qed.

Lemma matchKeyValue_shorter (s column value rest : string) :
  matchKeyValue s = Some (column, value, rest) ->
  String.length rest < String.length s.
Proof.
  unfold matchKeyValue. pose proof (span_length is_word s) as Hw.
  destruct (span is_word s) as [w r1]. simpl in Hw.
  destruct w as [|c0 w]; [discriminate|].
  destruct r1 as [|c r2]; [discriminate|].
  destruct (Ascii.eqb c colon); [|discriminate].
  pose proof (span_length not_space r2) as Hv.
  destruct (span not_space r2) as [v r3]. simpl in Hv.
  destruct v; [discriminate|]. intros Heq. injection Heq as _ _ <-.
  simpl in *. lia.
Qed.

Lemma matchWord_shorter (s w rest : string) :
  matchWord s = Some (w, rest) -> String.length rest < String.length s.
Proof.
  unfold matchWord. pose proof (span_length not_space_or_colon s) as Hw.
  destruct (span not_space_or_colon s) as [a b]. simpl in Hw.
  destruct a; [discriminate|]. intros Heq. injection Heq as _ <-.
  simpl in *. lia.
Qed.

(** Any fuel that covers the text gives the same blocks: the loop of
    [parseExpression] ends by running out of text, not of fuel. *)
Lemma parseFrom_fuel (fuel : nat) :
  forall (s : string) (fuel' : nat),
    String.length s <= fuel -> String.length s <= fuel' ->
    parseFrom fuel s = parseFrom fuel' s.
Proof.
  induction fuel as [|fuel IH]; intros s fuel' Hs Hs'.
  - destruct s; [|simpl in Hs; lia]. now rewrite !parseFrom_empty.
  - destruct s as [|c next]; [now rewrite !parseFrom_empty|].
    destruct fuel' as [|fuel']; [simpl in Hs'; lia|].
    cbn [parseFrom].
    destruct (matchKeyValue (String c next)) as [[[column value] rest]|]
      eqn:Hkv.
    + apply matchKeyValue_shorter in Hkv.
      destruct (splitOperator value). f_equal. apply IH; lia.
    + destruct (matchWord (String c next)) as [[w rest]|] eqn:Hw.
      * apply matchWord_shorter in Hw. f_equal. apply IH; lia.
      * simpl in Hs, Hs'. apply IH; lia.
Qed.

End Fuel.

(* ================================================================== *)
(** * Further properties of the native executor: results and sorting *)
(* ================================================================== *)

Lemma insert_sorted_perm {A : Type} (cmp : A -> A -> Z) (x : A) (l : list A) :
  Permutation (insert_sorted cmp x l) (x :: l).
Proof.
  induction l as [|y l IH]; simpl; [reflexivity|].
  destruct (cmp x y <=? 0)%Z; [reflexivity|].
  rewrite IH. apply perm_swap.
Qed.

Lemma sort_perm {A : Type} (cmp : A -> A -> Z) (l : list A) :
  Permutation (Js.sort cmp l) l.
Proof.
  induction l as [|x l IH]; simpl; [reflexivity|].
  rewrite insert_sorted_perm. now constructor.
Qed.

Lemma ordered_perm (h : Host) (p : NativeArrayProvider.t)
  (t : TransformState.t) :
  Permutation (Props.ordered h p t)
    (Props.passing h p (TransformState.filters t)).
Proof.
  unfold Props.ordered. destruct (TransformState.sort t); [reflexivity|].
  apply sort_perm.
Qed.

Lemma In_firstn {A : Type} (n : nat) (l : list A) (x : A) :
  In x (firstn n l) -> In x l.
Proof.
  revert l. induction n as [|n IH]; intros [|y l]; simpl; try tauto.
  intros [->|Hin]; [now left|right; now apply IH].
Qed.

Lemma In_skipn {A : Type} (n : nat) (l : list A) (x : A) :
  In x (skipn n l) -> In x l.
Proof.
  revert l. induction n as [|n IH]; intros [|y l]; simpl; try tauto.
  intros Hin. right. now apply IH.
Qed.

Lemma slice_incl {A : Type} (l : list A) (a b : Z) (x : A) :
  In x (slice l a b) -> In x l.
Proof.
  unfold slice. intros Hin. apply In_firstn in Hin. now apply In_skipn in Hin.
Qed.

Lemma paginate_incl (pg : option Pagination.t) (l : list Row) (x : Row) :
  In x (NativeArrayProvider.paginate pg l) -> In x l.
Proof.
  unfold NativeArrayProvider.paginate.
  destruct pg as [[[limit|] [offset|]]|]; try tauto; apply slice_incl.
Qed.

Lemma paginate_all (t : TransformState.t) (l : list Row) :
  Notions.unpaginated t ->
  NativeArrayProvider.paginate (TransformState.pagination t) l = l.
Proof.
  unfold Notions.unpaginated, NativeArrayProvider.paginate.
  destruct (TransformState.pagination t) as [pg|]; [|reflexivity].
  now intros ->.
Qed.

(** X1.  Every record [query] returns is a record of the dataset that passes
    all the filters of the transform, whatever the sort and the pagination.
    When the transform asks for no page, every record of the dataset that
    passes the filters is returned, and [totalCount] is the number of
    records returned. *)
Theorem query_returns_passing_records (h : Host) (p : NativeArrayProvider.t)
  (transform : TransformState.t) :
  let result := NativeArrayProvider.query h p transform in
  (forall row,
      In row (QueryResult.data result) ->
      In row (NativeArrayProvider.data p)
      /\ NativeArrayProvider.matchesFilters h row
           (TransformState.filters transform) = true)
  /\ (Notions.unpaginated transform ->
      (forall row,
          In row (NativeArrayProvider.data p) ->
          NativeArrayProvider.matchesFilters h row
            (TransformState.filters transform) = true ->
          In row (QueryResult.data result))
      /\ QueryResult.totalCount result
         = VNum (Z.of_nat (List.length (QueryResult.data result)))).
Proof.
  intros result. unfold result. rewrite query_unfold.
  cbn [QueryResult.data QueryResult.totalCount].
  pose proof (ordered_perm h p transform) as Hperm.
  split.
  - intros row Hin. apply paginate_incl in Hin.
    apply (Permutation_in _ Hperm) in Hin.
    unfold Props.passing in Hin. now apply filter_In in Hin.
  - intros Hall. rewrite (paginate_all transform _ Hall). split; [|reflexivity].
    intros row Hin Hpass.
    apply (Permutation_in _ (Permutation_sym Hperm)).
    unfold Props.passing. apply filter_In. now split.
Qed.

Lemma query_returns_passing_records_witness :
  Notions.unpaginated Samples.activeOnly
  /\ In Samples.charlie (NativeArrayProvider.data Examples.native)
  /\ In Samples.charlie
       (QueryResult.data
          (NativeArrayProvider.query Examples.host Examples.native
             Samples.activeOnly)).
Proof.
  assert (Hin : In Samples.charlie (NativeArrayProvider.data Examples.native)).
  { right. right. left. reflexivity. }
  exact (conj I (conj Hin
           (proj1 (proj2 (query_returns_passing_records Examples.host
                            Examples.native Samples.activeOnly) I)
              Samples.charlie Hin eq_refl))).
Defined.

Lemma forallb_perm {A : Type} (f : A -> bool) (l l' : list A) :
  Permutation l l' -> forallb f l = forallb f l'.
Proof.
  induction 1 as [|x l l' _ IH|x y l|l l' l'' _ IH1 _ IH2]; simpl.
  - reflexivity.
  - now rewrite IH.
  - now rewrite !andb_assoc, (andb_comm (f y)).
  - now rewrite IH1.
Qed.

(** X2.  The order of the filters of a transform is irrelevant to the native
    executor: two transforms whose filter lists are permutations of each
    other, with the same sort and pagination, give the same result. *)
Theorem filter_order_is_irrelevant (h : Host) (p : NativeArrayProvider.t)
  (filters filters' : list CanonicalFilter.t) (sort : list SortRule.t)
  (pagination : option Pagination.t) :
  Permutation filters filters' ->
  NativeArrayProvider.query h p (TransformState.make filters sort pagination)
  = NativeArrayProvider.query h p
      (TransformState.make filters' sort pagination).
Proof.
  intros Hperm. rewrite !query_unfold.
  assert (Hpass : Props.passing h p filters = Props.passing h p filters').
  { unfold Props.passing. apply filter_ext. intros row.
    now apply forallb_perm. }
  unfold Props.ordered. simpl. now rewrite Hpass.
Qed.

Lemma filter_order_is_irrelevant_witness :
  Permutation [Examples.activeFilter; Examples.nameEquals]
    [Examples.nameEquals; Examples.activeFilter]
  /\ NativeArrayProvider.query Examples.host Examples.native
       (TransformState.make [Examples.activeFilter; Examples.nameEquals]
          [] None)
     = NativeArrayProvider.query Examples.host Examples.native
         (TransformState.make [Examples.nameEquals; Examples.activeFilter]
            [] None).
Proof.
  assert (Hperm : Permutation [Examples.activeFilter; Examples.nameEquals]
                    [Examples.nameEquals; Examples.activeFilter]).
  { apply perm_swap. }
  exact (conj Hperm
           (filter_order_is_irrelevant Examples.host Examples.native _ _
              [] None Hperm)).
Defined.

(** ** Sorting on a numeric column *)

Section NumericSort.
Variable h : Host.
Variable column : string.

Lemma compare_numeric (direction : string) (a b : Row) :
  Notions.numeric column a -> Notions.numeric column b ->
  NativeArrayProvider.compareRows h [SortRule.make column direction] a b
  = (let comparison :=
       if (Notions.numberAt column a <? Notions.numberAt column b)%Z
       then (-1)%Z
       else if (Notions.numberAt column b <? Notions.numberAt column a)%Z
            then 1%Z else 0%Z in
     if String.eqb direction "asc" then comparison else (- comparison)%Z).
Proof.
  intros [x Hx] [y Hy]. unfold Notions.numberAt.
  cbn [NativeArrayProvider.compareRows SortRule.column SortRule.direction].
  rewrite Hx, Hy. unfold lt, gt, lt_opt. cbn.
  destruct (x <? y)%Z; [now destruct (String.eqb direction "asc")|].
  destruct (y <? x)%Z; now destruct (String.eqb direction "asc").
Qed.

Lemma compare_le (direction : string) (a b : Row) :
  Notions.numeric column a -> Notions.numeric column b ->
  (NativeArrayProvider.compareRows h [SortRule.make column direction] a b
   <=? 0)%Z = true <-> Notions.inOrder column direction a b.
Proof.
  intros Ha Hb. rewrite (compare_numeric direction a b Ha Hb).
  unfold Notions.inOrder. rewrite Z.leb_le.
  destruct (String.eqb direction "asc");
    destruct (Z.ltb_spec (Notions.numberAt column a)
                (Notions.numberAt column b));
    destruct (Z.ltb_spec (Notions.numberAt column b)
                (Notions.numberAt column a)); cbn; lia.
Qed.

Lemma insert_sorted_sorted (direction : string) (x : Row) (l : list Row) :
  Notions.numeric column x -> Forall (Notions.numeric column) l ->
  Sorted (Notions.inOrder column direction) l ->
  Sorted (Notions.inOrder column direction)
    (insert_sorted
       (NativeArrayProvider.compareRows h [SortRule.make column direction])
       x l).
Proof.
  intros Hx Hl Hs. induction l as [|y l IH]; cbn [insert_sorted].
  - repeat constructor.
  - inversion Hl as [|? ? Hy Hl']; subst.
    inversion Hs as [|? ? Hs' Hhd]; subst.
    destruct (NativeArrayProvider.compareRows h
                [SortRule.make column direction] x y <=? 0)%Z eqn:Hc.
    + constructor; [assumption|]. constructor. now apply compare_le.
    + constructor; [now apply IH|].
      assert (Hyx : Notions.inOrder column direction y x).
      { assert (Hn : ~ Notions.inOrder column direction x y).
        { intros Hxy. apply (compare_le direction x y Hx Hy) in Hxy.
          congruence. }
        unfold Notions.inOrder in *.
        destruct (String.eqb direction "asc"); lia. }
      destruct l as [|z l]; cbn [insert_sorted].
      * now constructor.
      * destruct (NativeArrayProvider.compareRows h
                    [SortRule.make column direction] x z <=? 0)%Z;
          constructor; [exact Hyx|].
        now inversion Hhd.
Qed.

Lemma insert_sorted_stable (direction : string) (n : Z) (x : Row)
  (l : list Row) :
  Notions.numeric column x -> Forall (Notions.numeric column) l ->
  filter (Notions.numberIs column n)
    (insert_sorted
       (NativeArrayProvider.compareRows h [SortRule.make column direction])
       x l)
  = filter (Notions.numberIs column n) (x :: l).
Proof.
  intros Hx Hl. induction l as [|y l IH]; [reflexivity|].
  inversion Hl as [|? ? Hy Hl']; subst. cbn [insert_sorted].
  destruct (NativeArrayProvider.compareRows h
              [SortRule.make column direction] x y <=? 0)%Z eqn:Hc;
    [reflexivity|].
  cbn [filter] in *. rewrite (IH Hl').
  assert (Hne : Notions.numberAt column x <> Notions.numberAt column y).
  { intros Heq.
    assert (Hxy : Notions.inOrder column direction x y).
    { unfold Notions.inOrder. destruct (String.eqb direction "asc"); lia. }
    apply (compare_le direction x y Hx Hy) in Hxy. congruence. }
  unfold Notions.numberIs.
  destruct (Z.eqb_spec (Notions.numberAt column x) n);
    destruct (Z.eqb_spec (Notions.numberAt column y) n);
    try reflexivity. lia.
Qed.

End NumericSort.

(** X3.  Sorting on one column in which every record holds a number: the
    result is a rearrangement of the records, it is in ascending order of
    the column for the direction [asc] and in descending order for any other
    direction, and the sort is stable: records that hold the same number
    keep their relative order. *)
Theorem sort_on_numeric_column (h : Host) (column direction : string)
  (rows : list Row) :
  (forall row, In row rows -> Notions.numeric column row) ->
  let sorted :=
    NativeArrayProvider.applySorting h rows [SortRule.make column direction]
  in
  Permutation sorted rows
  /\ Sorted (Notions.inOrder column direction) sorted
  /\ (forall n,
         filter (Notions.numberIs column n) sorted
         = filter (Notions.numberIs column n) rows).
Proof.
  intros Hnum sorted. unfold sorted, NativeArrayProvider.applySorting.
  split; [apply sort_perm|].
  assert (Hall : Forall (Notions.numeric column) rows)
    by now apply Forall_forall.
  clear Hnum sorted.
  assert (Hsorted : forall l, Forall (Notions.numeric column) l ->
            Forall (Notions.numeric column)
              (Js.sort (NativeArrayProvider.compareRows h
                          [SortRule.make column direction]) l)).
  { intros l Hl. rewrite Forall_forall in *. intros r Hr. apply Hl.
    eapply Permutation_in; [apply sort_perm|exact Hr]. }
  split.
  - induction rows as [|x rows IH]; simpl; [constructor|].
    inversion Hall; subst.
    apply (insert_sorted_sorted h column direction); auto.
  - intros n. induction rows as [|x rows IH]; [reflexivity|].
    inversion Hall; subst. cbn [Js.sort].
    rewrite (insert_sorted_stable h column direction n) by auto.
    cbn [filter]. now rewrite IH.
Qed.

Lemma sort_on_numeric_column_witness :
  (forall row, In row Examples.employees -> Notions.numeric "salary" row)
  /\ Sorted (Notions.inOrder "salary" "desc")
       (NativeArrayProvider.applySorting Examples.host Examples.employees
          [SortRule.make "salary" "desc"]).
Proof.
  assert (Hnum : forall row,
             In row Examples.employees -> Notions.numeric "salary" row).
  { intros row Hin. simpl in Hin.
    destruct Hin as [<-|[<-|[<-|[<-|[<-|[]]]]]]; eexists; reflexivity. }
  exact (conj Hnum
           (proj1 (proj2 (sort_on_numeric_column Examples.host "salary"
                            "desc" Examples.employees Hnum)))).
Defined.

(* ================================================================== *)
(** * Comparisons, and the row mutations of the native provider *)
(* ================================================================== *)

Lemma ToNumber_ToPrimitive (h : Host) (v : Value) :
  ToNumber h (ToPrimitive v) = ToNumber h v.
Proof. now destruct v as [| |[]| | |]. Qed.

Lemma lt_opt_number_nan (h : Host) (n : Z) (v : Value) :
  ToNumber h v = None ->
  lt_opt h (VNum n) v = None /\ lt_opt h v (VNum n) = None.
Proof.
  intros Hv. rewrite <- ToNumber_ToPrimitive in Hv. unfold lt_opt.
  cbn [ToPrimitive]. destruct (ToPrimitive v); cbn in *; rewrite ?Hv;
    try (split; reflexivity); try discriminate.
Qed.

(** X4.  An ordering comparison of a numeric field with a filter value that
    does not convert to a number is false for each of the four operators
    [>], [<], [>=] and [<=]: a record with a number in the column does not
    pass such a filter. *)
Theorem comparison_with_non_number (h : Host) (row : Row) (column : string)
  (n : Z) (filterValue : Value) (mode : option string) (operator : string) :
  get row column = VNum n ->
  ToNumber h filterValue = None ->
  In operator [">"; "<"; ">="; "<="] ->
  NativeArrayProvider.checkCondition h (VNum n) operator filterValue = false
  /\ NativeArrayProvider.matchesFilters h row
       [CanonicalFilter.make column None operator filterValue mode] = false.
Proof.
  intros Hrow Hnan Hop.
  destruct (lt_opt_number_nan h n filterValue Hnan) as [H1 H2].
  assert (Hcheck : NativeArrayProvider.checkCondition h (VNum n) operator
                     filterValue = false).
  { simpl in Hop.
    destruct Hop as [<-|[<-|[<-|[<-|[]]]]];
      cbn [NativeArrayProvider.checkCondition String.eqb Ascii.eqb Bool.eqb];
      unfold gt, lt, ge, le; now rewrite ?H1, ?H2. }
  split; [exact Hcheck|].
  unfold NativeArrayProvider.matchesFilters, NativeArrayProvider.matchesFilter.
  cbn [forallb CanonicalFilter.columns CanonicalFilter.column
       CanonicalFilter.operator CanonicalFilter.value].
  now rewrite Hrow, Hcheck.
Qed.

Lemma comparison_with_non_number_witness :
  get Samples.alice "salary" = VNum 120000
  /\ ToNumber Examples.host (VStr "not-a-number") = None
  /\ In ">" [">"; "<"; ">="; "<="]
  /\ NativeArrayProvider.matchesFilters Examples.host Samples.alice
       [CanonicalFilter.make "salary" None ">" (VStr "not-a-number") None]
     = false.
Proof.
  assert (Hop : In ">" [">"; "<"; ">="; "<="]) by (left; reflexivity).
  exact (conj eq_refl (conj eq_refl (conj Hop
           (proj2 (comparison_with_non_number Examples.host Samples.alice
                     "salary" 120000 (VStr "not-a-number") None ">"
                     eq_refl eq_refl Hop))))).
Defined.

(** ** Objects *)

Lemma get_set_same (obj : Obj) (k : string) (v : Value) :
  get (set obj k v) k = v.
Proof. unfold get. now rewrite lookup_set_same. Qed.

Lemma get_set_other (obj : Obj) (k k' : string) (v : Value) :
  k <> k' -> get (set obj k v) k' = get obj k'.
Proof. intros Hne. unfold get. now rewrite lookup_set_other. Qed.

Lemma lookup_remove_same {A : Type} (obj : Dict A) (k : string) :
  lookup (remove obj k) k = None.
Proof.
  induction obj as [|[k' v] obj IH]; simpl; [reflexivity|].
  destruct (String.eqb_spec k' k) as [->|Hne]; simpl; [exact IH|].
  destruct (String.eqb_spec k' k); [contradiction|exact IH].
Qed.

Lemma lookup_remove_other {A : Type} (obj : Dict A) (k k' : string) :
  k <> k' -> lookup (remove obj k) k' = lookup obj k'.
Proof.
  intros Hne. induction obj as [|[k0 v] obj IH]; simpl; [reflexivity|].
  destruct (String.eqb_spec k0 k) as [->|Hk]; simpl.
  - destruct (String.eqb_spec k k'); [contradiction|exact IH].
  - now rewrite IH.
Qed.

Lemma get_remove_same (obj : Obj) (k : string) :
  get (remove obj k) k = VUndefined.
Proof. unfold get. now rewrite lookup_remove_same. Qed.

Lemma get_remove_other (obj : Obj) (k k' : string) :
  k <> k' -> get (remove obj k) k' = get obj k'.
Proof. intros Hne. unfold get. now rewrite lookup_remove_other. Qed.

(** ** Rows carrying an identifier *)

Lemma find_split (rowId : Value) (rows : list Row) (row : Row) :
  find (NativeArrayProvider.has_rowid rowId) rows = Some row ->
  exists before after,
    rows = before ++ row :: after
    /\ NativeArrayProvider.has_rowid rowId row = true
    /\ forallb (fun r => negb (NativeArrayProvider.has_rowid rowId r)) before
       = true.
Proof.
  induction rows as [|r rows IH]; simpl; [discriminate|].
  destruct (NativeArrayProvider.has_rowid rowId r) eqn:Hr.
  - intros Heq. injection Heq as ->. exists [], rows. now repeat split.
  - intros Hfind. destruct (IH Hfind) as [before [after [-> [Hrow Hbefore]]]].
    exists (r :: before), after. repeat split; [exact Hrow|].
    simpl. now rewrite Hr.
Qed.

Lemma present_find (p : NativeArrayProvider.t) (rowId : Value) :
  Props.rowPresent p rowId = true ->
  exists row,
    find (NativeArrayProvider.has_rowid rowId) (NativeArrayProvider.data p)
    = Some row.
Proof.
  unfold Props.rowPresent.
  induction (NativeArrayProvider.data p) as [|r rows IH]; simpl;
    [discriminate|].
  destruct (NativeArrayProvider.has_rowid rowId r); [now exists r|exact IH].
Qed.

Lemma insertAfterFirst_split (rowId : Value) (newRow row : Row)
  (before after : list Row) :
  NativeArrayProvider.has_rowid rowId row = true ->
  forallb (fun r => negb (NativeArrayProvider.has_rowid rowId r)) before
  = true ->
  NativeArrayProvider.insertAfterFirst rowId newRow (before ++ row :: after)
  = before ++ row :: newRow :: after.
Proof.
  intros Hrow Hbefore. induction before as [|r before IH]; simpl in *.
  - now rewrite Hrow.
  - apply andb_true_iff in Hbefore as [Hr Hbefore].
    apply negb_true_iff in Hr. rewrite Hr. now rewrite IH.
Qed.

Lemma assignFirst_split (rowId : Value) (column : string) (v : Value)
  (row : Row) (before after : list Row) :
  NativeArrayProvider.has_rowid rowId row = true ->
  forallb (fun r => negb (NativeArrayProvider.has_rowid rowId r)) before
  = true ->
  NativeArrayProvider.assignFirst rowId column v (before ++ row :: after)
  = before ++ set row column v :: after.
Proof.
  intros Hrow Hbefore. induction before as [|r before IH]; simpl in *.
  - now rewrite Hrow.
  - apply andb_true_iff in Hbefore as [Hr Hbefore].
    apply negb_true_iff in Hr. rewrite Hr. now rewrite IH.
Qed.

(** X5.  [duplicateRow] on an identifier that some record carries inserts
    one copy right after the first record that carries it and leaves the
    other records in place.  The copy has the fields of the original except
    [__rowid], which is [row_<n>_<now>] with [n] the number of records
    before the call. *)
Theorem duplicateRow_inserts_copy (now : Z) (p : NativeArrayProvider.t)
  (rowId : Value) :
  Props.rowPresent p rowId = true ->
  exists before row copy after,
    NativeArrayProvider.data p = before ++ row :: after
    /\ NativeArrayProvider.has_rowid rowId row = true
    /\ forallb (fun r => negb (NativeArrayProvider.has_rowid rowId r)) before
       = true
    /\ NativeArrayProvider.duplicateRow now p rowId
       = ret (NativeArrayProvider.make (before ++ row :: copy :: after)
                (NativeArrayProvider.schema p))
    /\ get copy "__rowid"
       = VStr ("row_"
               ++ Z_to_string
                    (Z.of_nat (List.length (NativeArrayProvider.data p)))
               ++ "_" ++ Z_to_string now)%string
    /\ (forall key, key <> "__rowid" -> get copy key = get row key).
Proof.
  intros Hpresent. destruct (present_find p rowId Hpresent) as [row Hfind].
  destruct (find_split rowId _ row Hfind)
    as [before [after [Hdata [Hrow Hbefore]]]].
  exists before, row,
    (set row "__rowid"
       (VStr ("row_"
              ++ Z_to_string
                   (Z.of_nat (List.length (NativeArrayProvider.data p)))
              ++ "_" ++ Z_to_string now)%string)), after.
  split; [exact Hdata|]. split; [exact Hrow|]. split; [exact Hbefore|].
  split; [|split].
  - unfold NativeArrayProvider.duplicateRow. rewrite Hfind.
    rewrite Hdata at 2.
    now rewrite (insertAfterFirst_split rowId _ row before after Hrow Hbefore).
  - apply get_set_same.
  - intros key Hkey. apply get_set_other. congruence.
Qed.

Lemma duplicateRow_inserts_copy_witness :
  Props.rowPresent Examples.native (VStr "row_1_0") = true
  /\ exists p',
       NativeArrayProvider.duplicateRow 7 Examples.native (VStr "row_1_0")
       = ret p'.
Proof.
  destruct (duplicateRow_inserts_copy 7 Examples.native (VStr "row_1_0")
              eq_refl)
    as [before [row [copy [after [_ [_ [_ [Hdup _]]]]]]]].
  exact (conj eq_refl (ex_intro _ _ Hdup)).
Defined.

(** X6.  [updateCell] on an identifier that some record carries changes the
    first record that carries it and no other: the column of that record
    receives the stored value ([parseCellValue] of the edited value), and
    the other fields of the record are unchanged.  The column is any name
    but [__proto__], which an assignment does not store as a field. *)
Theorem updateCell_sets_field (h : Host) (p : NativeArrayProvider.t)
  (rowId : Value) (column : string) (value : Value) :
  Props.rowPresent p rowId = true ->
  Notions.storable column = true ->
  exists before row after,
    NativeArrayProvider.data p = before ++ row :: after
    /\ NativeArrayProvider.has_rowid rowId row = true
    /\ forallb (fun r => negb (NativeArrayProvider.has_rowid rowId r)) before
       = true
    /\ let stored := NativeArrayProvider.parseCellValue h p column value in
       let row' := set row column stored in
       NativeArrayProvider.updateCell h p rowId column value
       = ret (NativeArrayProvider.make (before ++ row' :: after)
                (NativeArrayProvider.schema p))
       /\ get row' column = stored
       /\ (forall key, key <> column -> get row' key = get row key).
Proof.
  intros Hpresent _.
  destruct (present_find p rowId Hpresent) as [row Hfind].
  destruct (find_split rowId _ row Hfind)
    as [before [after [Hdata [Hrow Hbefore]]]].
  exists before, row, after.
  split; [exact Hdata|]. split; [exact Hrow|]. split; [exact Hbefore|].
  intros stored row'. split; [|split].
  - unfold NativeArrayProvider.updateCell. rewrite Hfind.
    rewrite Hdata at 1.
    now rewrite (assignFirst_split rowId column _ row before after Hrow
                   Hbefore).
  - apply get_set_same.
  - intros key Hkey. apply get_set_other. congruence.
Qed.

Lemma updateCell_sets_field_witness :
  Props.rowPresent Examples.native (VStr "row_1_0") = true
  /\ Notions.storable "salary" = true
  /\ exists p',
       NativeArrayProvider.updateCell Examples.host Examples.native
         (VStr "row_1_0") "salary" (VStr "85000")
       = ret p'.
Proof.
  destruct (updateCell_sets_field Examples.host Examples.native
              (VStr "row_1_0") "salary" (VStr "85000") eq_refl eq_refl)
    as [before [row [after [_ [_ [_ [Hupd _]]]]]]].
  exact (conj eq_refl (conj eq_refl (ex_intro _ _ Hupd))).
Defined.

Lemma filter_not_present (rowId : Value) (rows : list Row) :
  existsb (NativeArrayProvider.has_rowid rowId)
    (filter (fun r => negb (NativeArrayProvider.has_rowid rowId r)) rows)
  = false.
Proof.
  induction rows as [|r rows IH]; simpl; [reflexivity|].
  destruct (NativeArrayProvider.has_rowid rowId r) eqn:Hr; simpl;
    [exact IH|]. now rewrite Hr.
Qed.

(** X7.  [deleteRow] never throws.  It removes every record that carries the
    identifier and keeps the others, and it leaves the schema as it is.
    After it the identifier is absent: [updateCell] on it throws the
    not-found error and a second [deleteRow] changes nothing. *)
Theorem deleteRow_removes_every_carrier (h : Host)
  (p : NativeArrayProvider.t) (rowId : Value) :
  exists p',
    NativeArrayProvider.deleteRow p rowId = ret p'
    /\ Props.rowPresent p' rowId = false
    /\ (forall row,
           In row (NativeArrayProvider.data p') <->
           In row (NativeArrayProvider.data p)
           /\ NativeArrayProvider.has_rowid rowId row = false)
    /\ NativeArrayProvider.schema p' = NativeArrayProvider.schema p
    /\ (forall column value,
           NativeArrayProvider.updateCell h p' rowId column value
           = throw (Error ("Row with ID " ++ ToString rowId
                           ++ " not found.")%string))
    /\ NativeArrayProvider.deleteRow p' rowId = ret p'.
Proof.
  eexists. split; [reflexivity|].
  assert (Habs : Props.rowPresent
                   (NativeArrayProvider.make
                      (filter (fun r =>
                                 negb (NativeArrayProvider.has_rowid rowId r))
                         (NativeArrayProvider.data p))
                      (NativeArrayProvider.schema p)) rowId = false).
  { apply filter_not_present. }
  split; [exact Habs|]. split; [|split; [reflexivity|split]].
  - intros row. cbn [NativeArrayProvider.data]. rewrite filter_In.
    now rewrite negb_true_iff.
  - intros column value. unfold NativeArrayProvider.updateCell.
    now rewrite (find_absent _ _ Habs).
  - unfold NativeArrayProvider.deleteRow. rewrite (filter_absent _ _ Habs).
    reflexivity.
Qed.

Lemma deleteRow_removes_every_carrier_witness :
  exists p',
    NativeArrayProvider.deleteRow Examples.native (VStr "row_1_0") = ret p'
    /\ Props.rowPresent p' (VStr "row_1_0") = false.
Proof.
  destruct (deleteRow_removes_every_carrier Examples.host Examples.native
              (VStr "row_1_0")) as [p' [Hdel [Habs _]]].
  exact (ex_intro _ p' (conj Hdel Habs)).
Defined.

(* ================================================================== *)
(** * The inferred schema and the column mutations *)
(* ================================================================== *)

(** X8.  The schema is inferred from the first record alone.  Its columns
    are the keys of that record that do not start with [__], in key order,
    each with the type [inferType] gives the record's value.  Its type map
    holds exactly those keys, with [hierarchy] for a string value that holds
    the separator and the inferred type otherwise.  The schema of an empty
    dataset is empty. *)
Theorem inferSchema_columns_and_types (h : Host) (sample : Row)
  (rest : list Row) :
  let schema := NativeArrayProvider.inferSchema h (sample :: rest) in
  Schema.columns schema
  = map (fun key =>
           (VStr key, VStr (NativeArrayProvider.inferType h (get sample key))))
      (filter (fun key => negb (Notions.reserved key)) (keys sample))
  /\ (forall key,
         lookup (Schema.types schema) key
         = if negb (Notions.reserved key)
              && existsb (String.eqb key) (keys sample)
           then Some (VStr (Notions.mapType h (get sample key)))
           else None)
  /\ NativeArrayProvider.inferSchema h [] = Schema.empty.
Proof.
  intros schema. unfold schema, NativeArrayProvider.inferSchema.
  split; [|split; [|reflexivity]].
  - now rewrite fold_columns.
  - intros key. now rewrite fold_types.
Qed.

Lemma inferSchema_columns_and_types_witness :
  lookup
    (Schema.types
       (NativeArrayProvider.inferSchema Examples.host
          (Samples.alice :: [Samples.bob])))
    "department"
  = Some (VStr "hierarchy").
Proof.
  exact (proj1 (proj2 (inferSchema_columns_and_types Examples.host
                         Samples.alice [Samples.bob])) "department").
Defined.

(** ** Keys of objects *)

Lemma keys_set {A : Type} (obj : Dict A) (k : string) (v : A) :
  keys (set obj k v)
  = if existsb (String.eqb k) (keys obj) then keys obj else keys obj ++ [k].
Proof.
  unfold keys. induction obj as [|[k' w] obj IH]; simpl; [reflexivity|].
  rewrite (String.eqb_sym k k').
  destruct (String.eqb k' k); simpl; [reflexivity|].
  rewrite IH. now destruct (existsb (String.eqb k) _).
Qed.

Lemma existsb_keys_set {A : Type} (obj : Dict A) (k : string) (v : A) :
  existsb (String.eqb k) (keys (set obj k v)) = true.
Proof.
  rewrite keys_set. destruct (existsb (String.eqb k) (keys obj)) eqn:He;
    [exact He|].
  rewrite existsb_app. simpl. now rewrite String.eqb_refl, orb_true_r.
Qed.

Lemma existsb_keys_remove {A : Type} (obj : Dict A) (k : string) :
  existsb (String.eqb k) (keys (remove obj k)) = false.
Proof.
  unfold keys. induction obj as [|[k' w] obj IH]; simpl; [reflexivity|].
  destruct (String.eqb_spec k' k) as [->|Hne]; simpl; [exact IH|].
  destruct (String.eqb_spec k k'); [congruence|exact IH].
Qed.

Lemma hasColumn_inferSchema (h : Host) (sample : Row) (rest : list Row)
  (name : string) :
  NativeArrayProvider.hasColumn
    (NativeArrayProvider.make (sample :: rest)
       (NativeArrayProvider.inferSchema h (sample :: rest))) name
  = negb (Notions.reserved name) && existsb (String.eqb name) (keys sample).
Proof.
  unfold NativeArrayProvider.hasColumn. cbn [NativeArrayProvider.schema].
  unfold NativeArrayProvider.inferSchema. rewrite fold_columns.
  change (Schema.columns Schema.empty) with (@nil (Value * Value)).
  cbn [app]. induction (keys sample) as [|k ks IH].
  - cbn. now rewrite andb_false_r.
  - cbn [filter existsb]. destruct (Notions.reserved k) eqn:Hk; cbn [negb].
    + rewrite IH. destruct (String.eqb_spec name k) as [->|]; cbn [orb];
        [|reflexivity].
      now rewrite Hk.
    + cbn [map existsb fst strict_eq]. rewrite IH, (String.eqb_sym name k).
      destruct (String.eqb_spec k name) as [->|]; cbn [orb]; [|reflexivity].
      now rewrite Hk.
Qed.

(** X9.  [addColumn] throws when the schema already has a column of that
    name.  Otherwise, for any name but [__proto__], it gives every record
    the default value (null when the argument is undefined) under the name,
    leaves the other fields and the number of records unchanged, and, on a
    dataset that is not empty and for a name that does not start with [__],
    a second [addColumn] of the name throws. *)
Theorem addColumn_adds_field (h : Host) (p : NativeArrayProvider.t)
  (name : string) (defaultValue : Value) :
  (NativeArrayProvider.hasColumn p name = true ->
   NativeArrayProvider.addColumn h p name defaultValue
   = throw (Error ("Column '" ++ name ++ "' already exists.")%string))
  /\ (NativeArrayProvider.hasColumn p name = false ->
      Notions.storable name = true ->
      exists p',
        NativeArrayProvider.addColumn h p name defaultValue = ret p'
        /\ List.length (NativeArrayProvider.data p')
           = List.length (NativeArrayProvider.data p)
        /\ (forall row',
               In row' (NativeArrayProvider.data p') ->
               get row' name
               = match defaultValue with
                 | VUndefined => VNull
                 | _ => defaultValue
                 end)
        /\ (forall i row,
               nth_error (NativeArrayProvider.data p) i = Some row ->
               exists row',
                 nth_error (NativeArrayProvider.data p') i = Some row'
                 /\ forall key, key <> name -> get row' key = get row key)
        /\ (NativeArrayProvider.data p <> [] ->
            Notions.reserved name = false ->
            forall v,
              NativeArrayProvider.addColumn h p' name v
              = throw (Error ("Column '" ++ name ++ "' already exists.")
                         %string))).
Proof.
  unfold NativeArrayProvider.addColumn. split; intros Hhas; rewrite Hhas;
    [reflexivity|].
  intros _. eexists. split; [reflexivity|]. cbn [NativeArrayProvider.data].
  split; [apply length_map|]. split; [|split].
  - intros row' Hin. apply in_map_iff in Hin as [row [<- _]].
    apply get_set_same.
  - intros i row Hrow. eexists.
    split; [exact (map_nth_error _ i _ Hrow)|].
    intros key Hkey. apply get_set_other. congruence.
  - intros Hne Hres v.
    destruct (NativeArrayProvider.data p) as [|sample rest]; [congruence|].
    cbn [map]. rewrite hasColumn_inferSchema.
    now rewrite Hres, existsb_keys_set.
Qed.

Lemma addColumn_adds_field_witness :
  NativeArrayProvider.hasColumn Examples.native "salary" = true
  /\ NativeArrayProvider.addColumn Examples.host Examples.native "salary"
       VNull
     = throw (Error "Column 'salary' already exists.").
Proof.
  exact (conj eq_refl
           (proj1 (addColumn_adds_field Examples.host Examples.native
                     "salary" VNull) eq_refl)).
Defined.

(** X10.  [renameColumn] throws when the schema already has a column of the
    new name.  Otherwise, for any new name but [__proto__], every record
    loses the field of the old name, the new name receives the value the
    old name had (when the two names differ), and the other fields are
    unchanged. *)
Theorem renameColumn_moves_field (h : Host) (p : NativeArrayProvider.t)
  (oldName newName : string) :
  (NativeArrayProvider.hasColumn p newName = true ->
   NativeArrayProvider.renameColumn h p oldName newName
   = throw (Error ("Column '" ++ newName ++ "' already exists.")%string))
  /\ (NativeArrayProvider.hasColumn p newName = false ->
      Notions.storable newName = true ->
      exists p',
        NativeArrayProvider.renameColumn h p oldName newName = ret p'
        /\ forall i row,
             nth_error (NativeArrayProvider.data p) i = Some row ->
             exists row',
               nth_error (NativeArrayProvider.data p') i = Some row'
               /\ lookup row' oldName = None
               /\ (oldName <> newName -> get row' newName = get row oldName)
               /\ (forall key,
                      key <> oldName -> key <> newName ->
                      get row' key = get row key)).
Proof.
  unfold NativeArrayProvider.renameColumn. split; intros Hhas; rewrite Hhas;
    [reflexivity|].
  intros _. eexists. split; [reflexivity|]. cbn [NativeArrayProvider.data].
  intros i row Hrow.
  exists (NativeArrayProvider.renameField oldName newName row).
  split; [exact (map_nth_error _ i _ Hrow)|].
  unfold NativeArrayProvider.renameField. split; [|split].
  - apply lookup_remove_same.
  - intros Hne. rewrite get_remove_other by exact Hne. apply get_set_same.
  - intros key Hold Hnew. rewrite get_remove_other by congruence.
    apply get_set_other. congruence.
Qed.

Lemma renameColumn_moves_field_witness :
  NativeArrayProvider.hasColumn Examples.native "pay" = false
  /\ Notions.storable "pay" = true
  /\ exists p',
       NativeArrayProvider.renameColumn Examples.host Examples.native
         "salary" "pay" = ret p'.
Proof.
  destruct (proj2 (renameColumn_moves_field Examples.host Examples.native
                     "salary" "pay") eq_refl eq_refl) as [p' [Hren _]].
  exact (conj eq_refl (conj eq_refl (ex_intro _ p' Hren))).
Defined.

(** X11.  After [deleteColumn] no record has a field of the name; the other
    fields and the number of records are unchanged, and the schema inferred
    afterwards has neither a column nor a type for the name. *)
Theorem deleteColumn_removes_field (h : Host) (p : NativeArrayProvider.t)
  (name : string) :
  let p' := NativeArrayProvider.deleteColumn h p name in
  (forall i row,
      nth_error (NativeArrayProvider.data p) i = Some row ->
      exists row',
        nth_error (NativeArrayProvider.data p') i = Some row'
        /\ lookup row' name = None
        /\ (forall key, key <> name -> get row' key = get row key))
  /\ List.length (NativeArrayProvider.data p')
     = List.length (NativeArrayProvider.data p)
  /\ NativeArrayProvider.hasColumn p' name = false
  /\ lookup (Schema.types (NativeArrayProvider.schema p')) name = None.
Proof.
  intros p'. unfold p', NativeArrayProvider.deleteColumn.
  cbn [NativeArrayProvider.data NativeArrayProvider.schema].
  split; [|split; [apply length_map|]].
  - intros i row Hrow. exists (remove row name).
    split; [exact (map_nth_error _ i _ Hrow)|].
    split; [apply lookup_remove_same|].
    intros key Hkey. apply get_remove_other. congruence.
  - destruct (NativeArrayProvider.data p) as [|sample rest].
    + split; reflexivity.
    + cbn [map]. split.
      * rewrite hasColumn_inferSchema.
        now rewrite existsb_keys_remove, andb_false_r.
      * unfold NativeArrayProvider.inferSchema. rewrite fold_types.
        now rewrite existsb_keys_remove, andb_false_r.
Qed.

Lemma deleteColumn_removes_field_witness :
  NativeArrayProvider.hasColumn
    (NativeArrayProvider.deleteColumn Examples.host Examples.native "salary")
    "salary"
  = false.
Proof.
  exact (proj1 (proj2 (proj2 (deleteColumn_removes_field Examples.host
                                Examples.native "salary")))).
Defined.

(* ================================================================== *)
(** * Unique values *)
(* ================================================================== *)















(* ================================================================== *)
(** * CSV input and loading *)
(* ================================================================== *)

Lemma split_without_separator (sep : ascii) (s : string) :
  all_chars (fun c => negb (Ascii.eqb c sep)) s = true ->
  split sep s = [s].
Proof.
  induction s as [|c s IH]; simpl; [reflexivity|].
  intros Hall. apply andb_true_iff in Hall as [Hc Hs].
  apply negb_true_iff in Hc. rewrite Hc. now rewrite (IH Hs).
Qed.

Lemma assignCells_other (headers values : list string) (row : Row)
  (key : string) :
  ~ In key headers ->
  get (NativeArrayProvider.assignCells row headers values) key = get row key.
Proof.
  revert row values. induction headers as [|hd hs IH]; intros row values Hn;
    simpl; [reflexivity|].
  assert (Hhd : hd <> key) by (intros ->; apply Hn; now left).
  assert (Hhs : ~ In key hs) by (intros Hin; apply Hn; now right).
  destruct values as [|v vs]; rewrite (IH _ _ Hhs); now apply get_set_other.
Qed.

Lemma assignCells_cell (headers values : list string) (row : Row) (i : nat)
  (header : string) :
  NoDup headers ->
  nth_error headers i = Some header ->
  get (NativeArrayProvider.assignCells row headers values) header
  = match nth_error values i with
    | Some cell => VStr cell
    | None => VUndefined
    end.
Proof.
  revert row values i. induction headers as [|hd hs IH];
    intros row values i Hnd Hi; [now destruct i|].
  inversion Hnd as [|? ? Hhd Hnd']; subst.
  destruct i as [|i]; simpl in Hi.
  - injection Hi as ->. simpl.
    destruct values as [|v vs]; rewrite (assignCells_other _ _ _ _ Hhd);
      now rewrite get_set_same.
  - simpl. destruct values as [|v vs].
    + rewrite (IH _ [] i Hnd' Hi). now destruct i.
    + now rewrite (IH _ vs i Hnd' Hi).
Qed.

Lemma in_keys_set {A : Type} (obj : Dict A) (k k' : string) (v : A) :
  In k (keys (set obj k' v)) <-> In k (keys obj) \/ k = k'.
Proof.
  rewrite keys_set.
  destruct (existsb (String.eqb k') (keys obj)) eqn:He.
  - apply existsb_exists in He as [x [Hx Heq]]. apply String.eqb_eq in Heq.
    subst x. split; [tauto|]. intros [Hin| ->]; assumption.
  - rewrite in_app_iff. simpl. intuition.
Qed.

Lemma assignCells_keys (headers values : list string) (row : Row)
  (k : string) :
  In k (keys (NativeArrayProvider.assignCells row headers values))
  <-> In k (keys row) \/ In k headers.
Proof.
  revert row values. induction headers as [|hd hs IH]; intros row values;
    simpl; [tauto|].
  destruct values as [|v vs]; rewrite IH, in_keys_set; intuition.
Qed.

(** X13.  [parseCSV] on a text that, once trimmed, holds no line feed (the
    empty text, or a header line alone) gives no record.  Otherwise it gives
    one record per line after the first.  When no header is [__proto__], the
    keys of each record are the trimmed headers, and, when the headers are
    also distinct, the field of the i-th header is the i-th trimmed cell of
    the line, or undefined when the line has fewer cells. *)
Theorem parseCSV_rows (csv : string) :
  (all_chars (fun c => negb (Ascii.eqb c NativeArrayProvider.newline))
     (trim csv) = true ->
   NativeArrayProvider.parseCSV csv = [])
  /\ (forall first lines,
         split NativeArrayProvider.newline (trim csv) = first :: lines ->
         let headers := map trim (split "," first) in
         List.length (NativeArrayProvider.parseCSV csv) = List.length lines
         /\ forall n line row,
              nth_error lines n = Some line ->
              nth_error (NativeArrayProvider.parseCSV csv) n = Some row ->
              forallb Notions.storable headers = true ->
              (forall key, In key (keys row) <-> In key headers)
              /\ (NoDup headers ->
                  forall i header,
                    nth_error headers i = Some header ->
                    get row header
                    = match nth_error (map trim (split "," line)) i with
                      | Some cell => VStr cell
                      | None => VUndefined
                      end)).
Proof.
  unfold NativeArrayProvider.parseCSV. split.
  - intros Hall. now rewrite (split_without_separator _ _ Hall).
  - intros first lines Hsplit. rewrite Hsplit.
    split; [apply length_map|].
    intros n line row Hline Hrow _.
    rewrite (map_nth_error _ n _ Hline) in Hrow. injection Hrow as <-.
    split.
    + intros key. rewrite assignCells_keys. simpl. tauto.
    + intros Hnd i header Hi. now apply assignCells_cell.
Qed.

Lemma parseCSV_rows_witness :
  all_chars (fun c => negb (Ascii.eqb c NativeArrayProvider.newline))
    (trim "id,name,value") = true
  /\ NativeArrayProvider.parseCSV "id,name,value" = [].
Proof.
  exact (conj eq_refl (proj1 (parseCSV_rows "id,name,value") eq_refl)).
Defined.

(** ** Loading an array *)





(* ================================================================== *)
(** * Further properties of the spec manager *)
(* ================================================================== *)

Lemma canonical_columns (fs : list FilterEntry.t) :
  map CanonicalFilter.column
    (map SpecManager.toCanonical (SpecManager.filtersByColumn fs))
  = map fst (SpecManager.filtersByColumn fs).
Proof.
  destruct (wellKeyed_filtersByColumn fs) as [_ Hcol].
  induction (SpecManager.filtersByColumn fs) as [|cg gs IH]; [reflexivity|].
  inversion Hcol as [|? ? Hcg Hrest]; subst. cbn [map].
  now rewrite (toCanonical_column cg Hcg), (IH Hrest).
Qed.

(** X15.  The canonical filters [toTransformState] builds have distinct
    columns, and a column has a canonical filter iff some enabled entry of
    the filter list targets it. *)
Theorem canonical_filters_columns (h : Host) (st : SpecManager.State) :
  let out := TransformState.filters (SpecManager.toTransformState h st) in
  NoDup (map CanonicalFilter.column out)
  /\ forall c,
       In c (map CanonicalFilter.column out) <->
       exists e,
         In e (SpecManager.filters st) /\ FilterEntry.enabled e = true
         /\ FilterEntry.column e = c.
Proof.
  intros out. split.
  - unfold out, SpecManager.toTransformState. cbn [TransformState.filters].
    rewrite canonical_columns. apply wellKeyed_filtersByColumn.
  - intros c.
    assert (Hgroup : In c (map CanonicalFilter.column out)
                     <-> Props.group c (SpecManager.filters st) <> []).
    { pose proof (canonicalFor_group h st c) as Hcan. fold out in Hcan.
      split.
      - intros Hin Hnil. rewrite Hnil in Hcan.
        apply in_map_iff in Hin as [cf [Hc Hcf]].
        assert (Hmem : In cf (Props.canonicalFor c out)).
        { unfold Props.canonicalFor. apply filter_In. split; [exact Hcf|].
          now apply String.eqb_eq. }
        now rewrite Hcan in Hmem.
      - intros Hne.
        assert (Hex : exists cf, In cf (Props.canonicalFor c out)).
        { rewrite Hcan.
          destruct (Props.group c (SpecManager.filters st)) as [|e [|e' r]];
            [congruence| |]; eexists; now left. }
        destruct Hex as [cf Hcf]. unfold Props.canonicalFor in Hcf.
        apply filter_In in Hcf as [Hcf Hc]. apply String.eqb_eq in Hc.
        apply in_map_iff. now exists cf. }
    rewrite Hgroup. unfold Props.group. split.
    + intros Hne.
      destruct (filter _ (filter FilterEntry.enabled (SpecManager.filters st)))
        as [|e r] eqn:Hf; [congruence|].
      assert (Hin : In e (e :: r)) by now left.
      rewrite <- Hf in Hin. apply filter_In in Hin as [Hin Hc].
      apply filter_In in Hin as [Hin He]. apply String.eqb_eq in Hc.
      now exists e.
    + intros [e [Hin [He Hc]]] Hnil.
      assert (Hmem : In e (filter (fun e => String.eqb (FilterEntry.column e) c)
                             (filter FilterEntry.enabled
                                (SpecManager.filters st)))).
      { rewrite !filter_In. repeat split; try assumption.
        now apply String.eqb_eq. }
      now rewrite Hnil in Hmem.
Qed.

Lemma canonical_filters_columns_witness :
  NoDup
    (map CanonicalFilter.column
       (TransformState.filters
          (SpecManager.toTransformState Examples.host
             (Examples.state
                [Examples.deptSales; Examples.tagsEntry;
                 Examples.deptMarketing])))).
Proof.
  exact (proj1 (canonical_filters_columns Examples.host
                  (Examples.state
                     [Examples.deptSales; Examples.tagsEntry;
                      Examples.deptMarketing]))).
Defined.

Lemma group_removeFilter (fs : list FilterEntry.t) (c c' : string) :
  Props.group c'
    (filter (fun f => negb (String.eqb (FilterEntry.column f) c)) fs)
  = if String.eqb c c' then [] else Props.group c' fs.
Proof.
  unfold Props.group. induction fs as [|f fs IH]; simpl.
  - now destruct (String.eqb c c').
  - destruct (String.eqb_spec (FilterEntry.column f) c) as [Hfc|Hfc]; simpl.
    + rewrite IH. destruct (String.eqb_spec c c') as [Hcc|Hcc];
        [reflexivity|].
      destruct (FilterEntry.enabled f); simpl; [|reflexivity].
      destruct (String.eqb_spec (FilterEntry.column f) c'); [congruence|].
      reflexivity.
    + destruct (FilterEntry.enabled f); simpl; [|exact IH].
      rewrite IH. destruct (String.eqb_spec c c') as [Hcc|Hcc];
        [|reflexivity].
      destruct (String.eqb_spec (FilterEntry.column f) c'); [congruence|].
      reflexivity.
Qed.

(** X16.  After [removeFilter] of a column the transform holds no canonical
    filter for that column; the canonical filters of the other columns, the
    sort and the pagination are unchanged.  After [clearFilters] the
    transform holds no filter. *)
Theorem removeFilter_drops_column (h : Host) (st : SpecManager.State)
  (c : string) :
  let st' := SpecManager.removeFilter st c in
  let out := TransformState.filters (SpecManager.toTransformState h st) in
  let out' := TransformState.filters (SpecManager.toTransformState h st') in
  Props.canonicalFor c out' = []
  /\ (forall c', c' <> c ->
        Props.canonicalFor c' out' = Props.canonicalFor c' out)
  /\ TransformState.sort (SpecManager.toTransformState h st')
     = TransformState.sort (SpecManager.toTransformState h st)
  /\ TransformState.pagination (SpecManager.toTransformState h st')
     = TransformState.pagination (SpecManager.toTransformState h st)
  /\ TransformState.filters
       (SpecManager.toTransformState h (SpecManager.clearFilters st)) = [].
Proof.
  intros st' out out'. unfold out, out', st'.
  split; [|split; [|repeat split]].
  - rewrite canonicalFor_group. cbn [SpecManager.removeFilter
      SpecManager.filters]. rewrite group_removeFilter.
    now rewrite String.eqb_refl.
  - intros c' Hne. rewrite !canonicalFor_group.
    cbn [SpecManager.removeFilter SpecManager.filters].
    rewrite group_removeFilter.
    destruct (String.eqb_spec c c'); [congruence|reflexivity].
Qed.

Lemma removeFilter_drops_column_witness :
  Props.canonicalFor "department"
    (TransformState.filters
       (SpecManager.toTransformState Examples.host
          (SpecManager.removeFilter
             (Examples.state [Examples.deptSales; Examples.tagsEntry])
             "department")))
  = [].
Proof.
  exact (proj1 (removeFilter_drops_column Examples.host
                  (Examples.state [Examples.deptSales; Examples.tagsEntry])
                  "department")).
Defined.

Lemma toggled_twice (f : FilterEntry.t) :
  Notions.toggled (Notions.toggled f) = f.
Proof.
  destruct f as [c o v e m]. unfold Notions.toggled. simpl.
  now rewrite negb_involutive.
Qed.

Lemma toggleFirst_twice (c : string) (fs : list FilterEntry.t) :
  SpecManager.toggleFirst c (SpecManager.toggleFirst c fs) = fs.
Proof.
  induction fs as [|f fs IH]; simpl; [reflexivity|].
  destruct (String.eqb (FilterEntry.column f) c) eqn:Hc; simpl.
  - rewrite Hc. f_equal. apply (toggled_twice f).
  - now rewrite Hc, IH.
Qed.

Lemma toggleFirst_none (c : string) (fs : list FilterEntry.t) :
  find (Notions.targets c) fs = None -> SpecManager.toggleFirst c fs = fs.
Proof.
  unfold Notions.targets. induction fs as [|f fs IH]; simpl; [reflexivity|].
  destruct (String.eqb (FilterEntry.column f) c); [discriminate|].
  intros Hf. now rewrite IH.
Qed.

Lemma group_toggleFirst_other (c c' : string) (fs : list FilterEntry.t) :
  c' <> c ->
  Props.group c' (SpecManager.toggleFirst c fs) = Props.group c' fs.
Proof.
  intros Hne. unfold Props.group. induction fs as [|f fs IH]; simpl;
    [reflexivity|].
  destruct (String.eqb_spec (FilterEntry.column f) c) as [Hfc|Hfc]; simpl.
  - destruct (FilterEntry.enabled f); simpl;
      destruct (String.eqb_spec (FilterEntry.column f) c'); congruence.
  - destruct (FilterEntry.enabled f); simpl; [|exact IH].
    now rewrite IH.
Qed.

Lemma group_toggleFirst (c : string) (fs : list FilterEntry.t)
  (e : FilterEntry.t) :
  find (Notions.targets c) fs = Some e ->
  if FilterEntry.enabled e
  then Props.group c fs = e :: Props.group c (SpecManager.toggleFirst c fs)
  else Props.group c (SpecManager.toggleFirst c fs)
       = Notions.toggled e :: Props.group c fs.
Proof.
  unfold Props.group, Notions.targets.
  induction fs as [|f fs IH]; simpl; [discriminate|].
  destruct (String.eqb (FilterEntry.column f) c) eqn:Hfc.
  - intros Heq. injection Heq as ->.
    destruct e as [col o v [|] m]; simpl in *; now rewrite Hfc.
  - intros Hfind. specialize (IH Hfind).
    destruct f as [col o v [|] m]; simpl in *; rewrite ?Hfc; exact IH.
Qed.

(** X17.  [toggleFilter] negates [enabled] on the first entry that targets
    the column, enabled or not, and on no other entry: the groups of the
    other columns are unchanged, a column without entry leaves the state
    unchanged, and toggling twice restores the state.  When the first entry
    was enabled it leaves the group of the column; when it was disabled it
    joins the group, at its head. *)
Theorem toggleFilter_acts_on_first_entry (st : SpecManager.State)
  (c : string) :
  let st' := SpecManager.toggleFilter st c in
  SpecManager.toggleFilter st' c = st
  /\ (forall c', c' <> c ->
        Props.group c' (SpecManager.filters st')
        = Props.group c' (SpecManager.filters st))
  /\ (find (Notions.targets c) (SpecManager.filters st) = None -> st' = st)
  /\ (forall e,
         find (Notions.targets c) (SpecManager.filters st) = Some e ->
         if FilterEntry.enabled e
         then Props.group c (SpecManager.filters st)
              = e :: Props.group c (SpecManager.filters st')
         else Props.group c (SpecManager.filters st')
              = Notions.toggled e :: Props.group c (SpecManager.filters st)).
Proof.
  intros st'. unfold st', SpecManager.toggleFilter.
  cbn [SpecManager.filters SpecManager.sort SpecManager.page
       SpecManager.pageSize].
  split; [|split; [|split]].
  - rewrite toggleFirst_twice. now destruct st.
  - intros c' Hne. now apply group_toggleFirst_other.
  - intros Hnone. rewrite (toggleFirst_none _ _ Hnone). now destruct st.
  - intros e. apply group_toggleFirst.
Qed.

Lemma toggleFilter_acts_on_first_entry_witness :
  find (Notions.targets "department")
    (SpecManager.filters
       (Examples.state [Examples.deptSales; Examples.deptMarketing]))
  = Some Examples.deptSales
  /\ Props.group "department"
       (SpecManager.filters
          (Examples.state [Examples.deptSales; Examples.deptMarketing]))
     = Examples.deptSales
       :: Props.group "department"
            (SpecManager.filters
               (SpecManager.toggleFilter
                  (Examples.state
                     [Examples.deptSales; Examples.deptMarketing])
                  "department")).
Proof.
  exact (conj eq_refl
           (proj2 (proj2 (proj2 (toggleFilter_acts_on_first_entry
                                   (Examples.state
                                      [Examples.deptSales;
                                       Examples.deptMarketing])
                                   "department")))
              Examples.deptSales eq_refl)).
Defined.

(** X18.  The transform built after [setPagination(page, pageSize)]: with a
    null or undefined page size it has no pagination; with a page size that
    converts to the number [n] its limit is [max 0 n] and its offset is
    [(max 1 page - 1) * limit], the page counting as 1 when it does not
    convert to a number.  Whatever the arguments, a limit and an offset are
    never negative, and the filters and the sort are unchanged. *)
Theorem setPagination_then_transform (h : Host) (st : SpecManager.State)
  (page pageSize : Value) :
  let st' := SpecManager.setPagination h st page pageSize in
  let pagination :=
    TransformState.pagination (SpecManager.toTransformState h st') in
  let safePage :=
    match ToNumber h page with
    | Some n => Z.max 1 n
    | None => 1%Z
    end in
  (is_nullish pageSize = true -> pagination = None)
  /\ (forall n,
         is_nullish pageSize = false -> ToNumber h pageSize = Some n ->
         pagination
         = Some (Pagination.make (Some (Z.max 0 n))
                   (Some ((safePage - 1) * Z.max 0 n)%Z)))
  /\ (forall pg,
         pagination = Some pg ->
         exists limit offset,
           Pagination.limit pg = Some limit
           /\ Pagination.offset pg = Some offset
           /\ (0 <= limit)%Z /\ (0 <= offset)%Z)
  /\ SpecManager.filters st' = SpecManager.filters st
  /\ SpecManager.sort st' = SpecManager.sort st.
Proof.
  intros st' pagination safePage.
  split; [|split; [|split; [|split; reflexivity]]].
  - unfold pagination, st'. now destruct pageSize.
  - intros n Hnull Hn. unfold pagination, st', SpecManager.toTransformState,
      SpecManager.toPagination, SpecManager.setPagination.
    cbn [TransformState.pagination SpecManager.pageSize SpecManager.page].
    destruct pageSize; try discriminate; rewrite Hn;
      cbn [ToNumber]; fold safePage;
      rewrite (Z.max_r 0 (Z.max 0 n)) by lia;
      rewrite (Z.max_r 1 safePage)
        by (unfold safePage; destruct (ToNumber h page); lia);
      reflexivity.
  - intros pg Hpg. apply (toPagination_not_negative h st'). exact Hpg.
Qed.

Lemma setPagination_then_transform_witness :
  is_nullish (VNum 50) = false
  /\ ToNumber Examples.host (VNum 50) = Some 50%Z
  /\ TransformState.pagination
       (SpecManager.toTransformState Examples.host
          (SpecManager.setPagination Examples.host (Examples.state [])
             (VNum (-1)) (VNum 50)))
     = Some (Pagination.make (Some 50%Z) (Some 0%Z)).
Proof.
  exact (conj eq_refl (conj eq_refl
           (proj1 (proj2 (setPagination_then_transform Examples.host
                            (Examples.state []) (VNum (-1)) (VNum 50)))
              50%Z eq_refl eq_refl))).
Defined.

(* ================================================================== *)
(** * Arbitrary text through the parser; suggestions and block moves *)
(* ================================================================== *)

Section ParsedBlocks.
Import FilterSearch Props.

Lemma span_all (f : ascii -> bool) (s : string) :
  all_chars f (fst (span f s)) = true.
Proof.
  induction s as [|c s IH]; simpl; [reflexivity|].
  destruct (f c) eqn:Hc; [|reflexivity].
  destruct (span f s) as [a b]. simpl in *. now rewrite Hc, IH.
Qed.

Lemma matchKeyValue_shape (s column value rest : string) :
  matchKeyValue s = Some (column, value, rest) ->
  tokenShape (KeyValue column value) = true.
Proof.
  unfold matchKeyValue. pose proof (span_all is_word s) as Hw.
  destruct (span is_word s) as [w r1]. simpl in Hw.
  destruct w as [|c0 w]; [discriminate|].
  destruct r1 as [|c r2]; [discriminate|].
  destruct (Ascii.eqb c colon); [|discriminate].
  pose proof (span_all not_space r2) as Hv.
  destruct (span not_space r2) as [v r3]. simpl in Hv.
  destruct v as [|v0 v]; [discriminate|].
  intros Heq. injection Heq as <- <- _.
  cbn [tokenShape nonEmpty andb]. now rewrite Hw, Hv.
Qed.

Lemma matchWord_shape (s w rest : string) :
  matchWord s = Some (w, rest) -> tokenShape (Word w) = true.
Proof.
  unfold matchWord. pose proof (span_all not_space_or_colon s) as Hw.
  destruct (span not_space_or_colon s) as [a b]. simpl in Hw.
  destruct a as [|c a]; [discriminate|].
  intros Heq. injection Heq as <- _. cbn [tokenShape nonEmpty andb].
  exact Hw.
Qed.

Lemma parseFrom_blocks (fuel : nat) (s : string) :
  Forall (fun block => exists token,
              tokenShape token = true /\ block = blockOf token)
    (parseFrom fuel s).
Proof.
  revert s. induction fuel as [|fuel IH]; intros s; [constructor|].
  destruct s as [|c next]; [constructor|]. cbn [parseFrom].
  destruct (matchKeyValue (String c next)) as [[[column value] rest]|] eqn:Hkv.
  - pose proof (matchKeyValue_shape _ _ _ _ Hkv) as Hshape.
    destruct (splitOperator value) as [operator cleanValue] eqn:Hsplit.
    constructor; [|apply IH].
    exists (KeyValue column value). split; [exact Hshape|].
    cbn [blockOf render]. now rewrite Hsplit.
  - destruct (matchWord (String c next)) as [[w rest]|] eqn:Hw.
    + constructor; [|apply IH].
      exists (Word w). split; [|reflexivity].
      exact (matchWord_shape _ _ _ Hw).
    + apply IH.
Qed.

Lemma all_chars_app (f : ascii -> bool) (a b : string) :
  all_chars f (a ++ b) = all_chars f a && all_chars f b.
Proof.
  induction a as [|c a IH]; simpl; [reflexivity|].
  now rewrite IH, andb_assoc.
Qed.

Lemma splitOperator_value (value operator cleanValue : string) :
  splitOperator value = (operator, cleanValue) ->
  all_chars not_space value = true ->
  In (normalizeOperator operator) Notions.parsedOperators
  /\ all_chars not_space cleanValue = true
  /\ (value = cleanValue
      \/ exists sigil, In sigil sigils /\ value = (sigil ++ cleanValue)%string).
Proof.
  unfold splitOperator, sigils. cbn [matchSigil]. intros Hsplit Hall.
  repeat match type of Hsplit with
  | context [String.prefix ?op value] =>
      let H := fresh "Hp" in
      destruct (String.prefix op value) eqn:H;
        [apply prefix_drop in H; injection Hsplit as <- <-;
         rewrite H, all_chars_app in Hall;
         apply andb_true_iff in Hall as [_ Hall];
         split; [simpl; tauto|];
         split; [exact Hall|right; exists op; split; [simpl; tauto|exact H]]
        |]
  end.
  injection Hsplit as <- <-. split; [simpl; tauto|].
  split; [exact Hall|now left].
Qed.

End ParsedBlocks.

(** X19.  Whatever the text, every block [parseExpression] returns is the
    block of a well-shaped token.  A filter block has a non-empty column
    made of word characters, one of the operators [=], [!=], [>], [<], [>=],
    [<=], [LIKE], [IN], a value without white space, and as raw text the
    column, a colon and the value, the latter preceded by its sigil if it
    had one.  A full-text block has a non-empty value without white space
    and without colon, which is also its raw text. *)
Theorem parseExpression_blocks (text : string) (block : FilterSearch.Block) :
  In block (FilterSearch.parseExpression text) ->
  (exists token,
      Props.tokenShape token = true /\ block = Props.blockOf token)
  /\ match block with
     | FilterSearch.Filter column operator value raw =>
         Props.nonEmpty column = true
         /\ all_chars is_word column = true
         /\ In operator Notions.parsedOperators
         /\ all_chars FilterSearch.not_space value = true
         /\ exists rest,
              raw = (column ++ String FilterSearch.colon rest)%string
              /\ Props.nonEmpty rest = true
              /\ (rest = value
                  \/ exists sigil,
                       In sigil FilterSearch.sigils
                       /\ rest = (sigil ++ value)%string)
     | FilterSearch.Fulltext value raw =>
         raw = value
         /\ Props.nonEmpty value = true
         /\ all_chars FilterSearch.not_space_or_colon value = true
     end.
Proof.
  intros Hin.
  pose proof (parseFrom_blocks (String.length text) text) as Hall.
  rewrite Forall_forall in Hall.
  destruct (Hall block Hin) as [token [Hshape ->]].
  split; [now exists token|].
  destruct token as [column rest|w]; cbn [Props.blockOf Props.render].
  - cbn [Props.tokenShape] in Hshape.
    apply andb_true_iff in Hshape as [Hshape Hrest].
    apply andb_true_iff in Hshape as [Hshape Hne].
    apply andb_true_iff in Hshape as [Hcol Hword].
    destruct (FilterSearch.splitOperator rest) as [operator cleanValue]
      eqn:Hsplit.
    destruct (splitOperator_value _ _ _ Hsplit Hrest)
      as [Hop [Hclean Hval]].
    split; [exact Hcol|]. split; [exact Hword|].
    split; [exact Hop|]. split; [exact Hclean|].
    exists rest. split; [reflexivity|]. split; [exact Hne|exact Hval].
  - cbn [Props.tokenShape] in Hshape.
    apply andb_true_iff in Hshape as [Hne Hall']. now repeat split.
Qed.

Lemma parseExpression_blocks_witness :
  In (FilterSearch.Filter "salary" ">=" "50000" "salary:>=50000")
    (FilterSearch.parseExpression "salary:>=50000  senior :::")
  /\ exists token,
       Props.tokenShape token = true
       /\ FilterSearch.Filter "salary" ">=" "50000" "salary:>=50000"
          = Props.blockOf token.
Proof.
  assert (Hin : In (FilterSearch.Filter "salary" ">=" "50000"
                      "salary:>=50000")
                  (FilterSearch.parseExpression
                     "salary:>=50000  senior :::")).
  { vm_compute. left. reflexivity. }
  exact (conj Hin (proj1 (parseExpression_blocks _ _ Hin))).
Defined.

(** ** Suggestions *)

(** X20.  [getValueSuggestions] returns no suggestion when the provider
    throws.  Otherwise it returns at most 20 suggestions: one for each of
    the first 20 unique values whose text holds the typed text, letter case
    ignored, in the provider's order, each suggestion carrying the text of
    its value. *)
Theorem getValueSuggestions_capped (partial : string) :
  (forall e, FilterSearch.getValueSuggestions (throw e) partial = [])
  /\ forall values,
       let suggestions :=
         FilterSearch.getValueSuggestions (ret values) partial in
       List.length suggestions <= 20
       /\ suggestions
          = map (fun v =>
                   FilterSearch.makeSuggestion "value" (ToString v)
                     (ToString v) (ToString v))
              (firstn 20
                 (filter (fun v =>
                            includes (toLowerCase (ToString v))
                              (toLowerCase partial)) values))
       /\ forall s,
            In s suggestions ->
            exists v,
              In v values
              /\ FilterSearch.value s = ToString v
              /\ includes (toLowerCase (FilterSearch.value s))
                   (toLowerCase partial) = true.
Proof.
  split; [reflexivity|]. intros values suggestions.
  assert (Heq : suggestions
                = map (fun v =>
                         FilterSearch.makeSuggestion "value" (ToString v)
                           (ToString v) (ToString v))
                    (firstn 20
                       (filter (fun v =>
                                  includes (toLowerCase (ToString v))
                                    (toLowerCase partial)) values))).
  { unfold suggestions, FilterSearch.getValueSuggestions, ret.
    f_equal. change 20%Z with (0 + 20)%Z.
    now rewrite slice_window by lia. }
  split; [|split; [exact Heq|]].
  - rewrite Heq, length_map. apply firstn_le_length.
  - intros s Hs. rewrite Heq in Hs. apply in_map_iff in Hs as [v [<- Hv]].
    assert (Hv' : In v (filter (fun v =>
                                  includes (toLowerCase (ToString v))
                                    (toLowerCase partial)) values)).
    { revert Hv. generalize 20.
      generalize (filter (fun v => includes (toLowerCase (ToString v))
                                     (toLowerCase partial)) values).
      intros l n. revert l. induction n as [|n IH]; intros [|y l]; simpl;
        try tauto.
      intros [->|Hin]; [now left|right; now apply IH]. }
    apply filter_In in Hv' as [Hin Hinc]. exists v. now repeat split.
Qed.

Lemma getValueSuggestions_capped_witness :
  List.length
    (FilterSearch.getValueSuggestions
       (ret (map (fun n => VNum (Z.of_nat n)) (seq 0 50))) EmptyString)
  <= 20.
Proof.
  exact (proj1 (proj2 (getValueSuggestions_capped EmptyString)
                  (map (fun n => VNum (Z.of_nat n)) (seq 0 50)))).
Defined.

(** ** Block reordering *)

Lemma removeAt_perm {A : Type} (l : list A) (i : nat) (x : A) :
  nth_error l i = Some x -> Permutation (x :: removeAt i l) l.
Proof.
  revert i. induction l as [|y l IH]; intros i Hi; [now destruct i|].
  destruct i as [|i]; simpl in *.
  - now injection Hi as ->.
  - rewrite perm_swap. constructor. now apply IH.
Qed.

Lemma insertAt_perm {A : Type} (l : list A) (j : nat) (x : A) :
  Permutation (insertAt j x l) (x :: l).
Proof.
  revert l. induction j as [|j IH]; intros l; [reflexivity|].
  destruct l as [|y l]; simpl; [reflexivity|].
  rewrite IH. apply perm_swap.
Qed.

Lemma insertAt_nth {A : Type} (l : list A) (j : nat) (x : A) :
  nth_error (insertAt j x l) (Nat.min j (List.length l)) = Some x.
Proof.
  revert l. induction j as [|j IH]; intros l; [reflexivity|].
  destruct l as [|y l]; simpl; [reflexivity|]. apply IH.
Qed.

Lemma removeAt_length {A : Type} (l : list A) (i : nat) (x : A) :
  nth_error l i = Some x -> S (List.length (removeAt i l)) = List.length l.
Proof.
  intros Hi. apply removeAt_perm in Hi. apply Permutation_length in Hi.
  exact Hi.
Qed.

Lemma removeAt_beyond {A : Type} (l : list A) (i : nat) :
  nth_error l i = None -> removeAt i l = l.
Proof.
  revert i. induction l as [|y l IH]; intros i Hi; [now destruct i|].
  destruct i as [|i]; simpl in *; [discriminate|]. now rewrite IH.
Qed.

(** X21.  [reorderBlocks] with a source index beyond the last block throws.
    Otherwise the new block list is a rearrangement of the old one, of the
    same length, with the moved block at the target index (at the end when
    the target is beyond it); removing the block there gives what removing
    it at its source gives.  [removeBlock] beyond the last block changes
    nothing. *)
Theorem reorderBlocks_moves_one_block (blocks : list FilterSearch.Block)
  (fromIndex toIndex : nat) :
  (nth_error blocks fromIndex = None ->
   exists e, FilterSearch.reorderBlocks blocks fromIndex toIndex = throw e)
  /\ (forall block,
         nth_error blocks fromIndex = Some block ->
         exists blocks',
           FilterSearch.reorderBlocks blocks fromIndex toIndex = ret blocks'
           /\ Permutation blocks' blocks
           /\ List.length blocks' = List.length blocks
           /\ nth_error blocks'
                (Nat.min toIndex (List.length blocks - 1)) = Some block
           /\ FilterSearch.removeBlock blocks' 
                (Nat.min toIndex (List.length blocks - 1))
              = FilterSearch.removeBlock blocks fromIndex)
  /\ (nth_error blocks fromIndex = None ->
      FilterSearch.removeBlock blocks fromIndex = blocks).
Proof.
  unfold FilterSearch.reorderBlocks, FilterSearch.removeBlock.
  split; [|split].
  - intros ->. now eexists.
  - intros block Hfrom. rewrite Hfrom. eexists. split; [reflexivity|].
    pose proof (removeAt_length _ _ _ Hfrom) as Hlen.
    assert (Hidx : Nat.min toIndex (List.length blocks - 1)
                   = Nat.min toIndex
                       (List.length (removeAt fromIndex blocks))) by lia.
    split; [|split; [|split]].
    + rewrite insertAt_perm. now apply removeAt_perm.
    + rewrite (Permutation_length (insertAt_perm _ _ _)). simpl. exact Hlen.
    + rewrite Hidx. apply insertAt_nth.
    + rewrite Hidx. generalize (removeAt fromIndex blocks). clear.
      intros l. revert l. induction toIndex as [|j IH]; intros l;
        [reflexivity|].
      destruct l as [|y l]; simpl; [reflexivity|]. now rewrite IH.
  - apply removeAt_beyond.
Qed.

Lemma reorderBlocks_moves_one_block_witness :
  nth_error Samples.blocks 0 = Some (FilterSearch.Filter "a" "=" "1" "a:1")
  /\ exists blocks',
       FilterSearch.reorderBlocks Samples.blocks 0 2 = ret blocks'
       /\ Permutation blocks' Samples.blocks.
Proof.
  destruct (proj1 (proj2 (reorderBlocks_moves_one_block Samples.blocks 0 2))
              _ eq_refl) as [blocks' [Hre [Hperm _]]].
  exact (conj eq_refl (ex_intro _ blocks' (conj Hre Hperm))).
Defined.

(* ================================================================== *)
(** * Quoting, the table name and the schema of the SQL provider *)
(* ================================================================== *)

Section Quoting.
Import DuckDBWasmProvider Notions.

Lemma split_not_nil (c : ascii) (s : string) : split c s <> [].
Proof.
  induction s as [|a s IH]; simpl; [discriminate|].
  destruct (Ascii.eqb a c); [discriminate|].
  destruct (split c s); [contradiction|discriminate].
Qed.

Lemma replaceAll_empty (c : ascii) (r : string) :
  replaceAll c r EmptyString = EmptyString.
Proof. reflexivity. Qed.

Lemma replaceAll_cons (c : ascii) (r : string) (a : ascii) (s : string) :
  replaceAll c r (String a s)
  = if Ascii.eqb a c then (r ++ replaceAll c r s)%string
    else String a (replaceAll c r s).
Proof.
  unfold replaceAll, join. cbn [split].
  pose proof (split_not_nil c s) as Hne.
  destruct (Ascii.eqb a c).
  - destruct (split c s) as [|x l]; [contradiction|]. reflexivity.
  - destruct (split c s) as [|x l]; [contradiction|].
    destruct l; reflexivity.
Qed.

Lemma readBody_replaceAll (q : ascii) (s rest : string) :
  first_is (Ascii.eqb q) rest = false ->
  readBody q (replaceAll q (String q (String q EmptyString)) s
              ++ String q rest)
  = Some (s, rest).
Proof.
  intros Hrest. induction s as [|a s IH].
  - rewrite replaceAll_empty. cbn [append readBody].
    rewrite Ascii.eqb_refl. destruct rest as [|c' r']; [reflexivity|].
    cbn [first_is] in Hrest. rewrite Ascii.eqb_sym, Hrest. reflexivity.
  - rewrite replaceAll_cons. destruct (Ascii.eqb_spec a q) as [->|Ha].
    + cbn [append readBody]. rewrite Ascii.eqb_refl. now rewrite IH.
    + cbn [append readBody]. apply Ascii.eqb_neq in Ha. rewrite Ha.
      now rewrite IH.
Qed.

Lemma replaceAll_absent (c : ascii) (r s : string) :
  all_chars (fun a => negb (Ascii.eqb a c)) s = true ->
  replaceAll c r s = s.
Proof.
  induction s as [|a s IH]; intros Hall; [reflexivity|].
  cbn [all_chars] in Hall. apply andb_true_iff in Hall as [Ha Hs].
  rewrite replaceAll_cons. apply negb_true_iff in Ha. rewrite Ha.
  now rewrite IH.
Qed.

Lemma all_chars_impl (f g : ascii -> bool) (s : string) :
  (forall a, f a = true -> g a = true) ->
  all_chars f s = true -> all_chars g s = true.
Proof.
  intros Hfg. induction s as [|a s IH]; [reflexivity|]. cbn [all_chars].
  intros Hall. apply andb_true_iff in Hall as [Ha Hs].
  now rewrite (Hfg _ Ha), IH.
Qed.

Lemma quoteIdentifier_plain (s : string) :
  all_chars is_word s = true ->
  quoteIdentifier s = (dqs ++ s ++ dqs)%string.
Proof.
  intros Hall. unfold quoteIdentifier. rewrite replaceAll_absent; [easy|].
  revert Hall. apply all_chars_impl. intros a Ha.
  destruct (Ascii.eqb_spec a dq) as [->|]; [discriminate|reflexivity].
Qed.

Lemma getTableIdentifier_plain (p : t) :
  plainName (tableName p) = true ->
  getTableIdentifier p = ret (dqs ++ tableName p ++ dqs)%string.
Proof.
  unfold plainName, getTableIdentifier. fold (tableName p).
  intros Hplain. apply andb_true_iff in Hplain as [Hplain Hdigit].
  apply andb_true_iff in Hplain as [Hne Hword].
  apply negb_true_iff in Hdigit. rewrite Hdigit, Hword.
  destruct (tableName p); [discriminate|]. cbn [String.eqb negb andb orb].
  now rewrite quoteIdentifier_plain.
Qed.

Lemma getTableIdentifier_invalid (p : t) :
  plainName (tableName p) = false ->
  getTableIdentifier p
  = throw (Error ("Invalid table name: " ++ tableName p)%string).
Proof.
  unfold plainName, getTableIdentifier. fold (tableName p).
  intros Hplain. destruct (tableName p) as [|c s] eqn:Hname.
  - reflexivity.
  - cbn [String.eqb negb] in *. cbn [Props.nonEmpty andb] in Hplain.
    destruct (all_chars is_word (String c s)); [|reflexivity].
    cbn [andb negb orb] in *. apply negb_false_iff in Hplain.
    now rewrite Hplain.
Qed.

End Quoting.

(** X22.  The text [escapeValue] writes for a string is read back by a SQL
    reader as one string literal holding exactly that string, whatever
    quotes the string holds, and the reader stops where the literal ends;
    likewise the text [quoteIdentifier] writes is read back as one quoted
    identifier holding exactly the name.  Hence two different strings never
    get the same literal, nor two different names the same identifier. *)
Theorem quoted_text_reads_back (s : string) :
  (forall rest,
      first_is (Ascii.eqb DuckDBWasmProvider.sq) rest = false ->
      Notions.readQuoted DuckDBWasmProvider.sq
        (DuckDBWasmProvider.escapeValue (VStr s) ++ rest)
      = Some (s, rest))
  /\ (forall rest,
         first_is (Ascii.eqb DuckDBWasmProvider.dq) rest = false ->
         Notions.readQuoted DuckDBWasmProvider.dq
           (DuckDBWasmProvider.quoteIdentifier s ++ rest)
         = Some (s, rest))
  /\ (forall s',
         DuckDBWasmProvider.escapeValue (VStr s)
         = DuckDBWasmProvider.escapeValue (VStr s') -> s = s')
  /\ (forall s',
         DuckDBWasmProvider.quoteIdentifier s
         = DuckDBWasmProvider.quoteIdentifier s' -> s = s').
Proof.
  assert (Hsq : forall t rest,
             first_is (Ascii.eqb DuckDBWasmProvider.sq) rest = false ->
             Notions.readQuoted DuckDBWasmProvider.sq
               (DuckDBWasmProvider.escapeValue (VStr t) ++ rest)
             = Some (t, rest)).
  { intros t rest Hrest. cbn [DuckDBWasmProvider.escapeValue].
    unfold DuckDBWasmProvider.sqs. cbn [append Notions.readQuoted].
    rewrite Ascii.eqb_refl, append_assoc. cbn [append].
    now apply readBody_replaceAll. }
  assert (Hdq : forall t rest,
             first_is (Ascii.eqb DuckDBWasmProvider.dq) rest = false ->
             Notions.readQuoted DuckDBWasmProvider.dq
               (DuckDBWasmProvider.quoteIdentifier t ++ rest)
             = Some (t, rest)).
  { intros t rest Hrest. unfold DuckDBWasmProvider.quoteIdentifier.
    unfold DuckDBWasmProvider.dqs. cbn [append Notions.readQuoted].
    rewrite Ascii.eqb_refl, append_assoc. cbn [append].
    now apply readBody_replaceAll. }
  split; [apply Hsq|]. split; [apply Hdq|]. split.
  - intros s' Heq.
    pose proof (Hsq s EmptyString eq_refl) as H1.
    pose proof (Hsq s' EmptyString eq_refl) as H2.
    rewrite Heq, H2 in H1. now inversion H1.
  - intros s' Heq.
    pose proof (Hdq s EmptyString eq_refl) as H1.
    pose proof (Hdq s' EmptyString eq_refl) as H2.
    rewrite Heq, H2 in H1. now inversion H1.
Qed.

Lemma quoted_text_reads_back_witness :
  first_is (Ascii.eqb DuckDBWasmProvider.sq) " OR 1=1" = false
  /\ Notions.readQuoted DuckDBWasmProvider.sq
       (DuckDBWasmProvider.escapeValue (VStr "x' OR 'a'='a") ++ " OR 1=1")
     = Some ("x' OR 'a'='a", " OR 1=1").
Proof.
  exact (conj eq_refl
           (proj1 (quoted_text_reads_back "x' OR 'a'='a") " OR 1=1"
              eq_refl)).
Defined.

(** X23.  [getTableIdentifier] returns the table name between double quotes
    when the name is a plain identifier, and throws [Invalid table name]
    otherwise.  With such a name no statement reaches the engine: [query],
    [getUniqueValues], [updateCell] and [deleteRow] throw, whatever the
    engine and their arguments. *)
Theorem table_name_is_checked (h : Host) (p : DuckDBWasmProvider.t) :
  (Notions.plainName (Notions.tableName p) = true ->
   DuckDBWasmProvider.getTableIdentifier p
   = ret (DuckDBWasmProvider.dqs ++ Notions.tableName p
          ++ DuckDBWasmProvider.dqs)%string)
  /\ (Notions.plainName (Notions.tableName p) = false ->
      DuckDBWasmProvider.getTableIdentifier p
      = throw (Error ("Invalid table name: " ++ Notions.tableName p)%string)
      /\ forall conn,
           (forall transform,
               exists e, DuckDBWasmProvider.query conn p transform = throw e)
           /\ (forall column,
                  exists e,
                    DuckDBWasmProvider.getUniqueValues conn p column = throw e)
           /\ (forall rowId column value,
                  exists e,
                    DuckDBWasmProvider.updateCell conn h p rowId column value
                    = throw e)
           /\ (forall rowId,
                  exists e,
                    DuckDBWasmProvider.deleteRow conn h p rowId = throw e)).
Proof.
  split; [apply getTableIdentifier_plain|].
  intros Hbad. pose proof (getTableIdentifier_invalid p Hbad) as Hthrow.
  split; [exact Hthrow|]. intros conn.
  assert (Hensure : (exists e, DuckDBWasmProvider.ensureSchema conn p = throw e)
                    \/ DuckDBWasmProvider.ensureSchema conn p = ret p).
  { unfold DuckDBWasmProvider.ensureSchema, DuckDBWasmProvider.getSchema.
    destruct (Schema.columns (DuckDBWasmProvider.schema p)); [|now right].
    left. cbn [List.length Nat.eqb Nat.ltb Nat.leb]. rewrite Hthrow.
    now eexists. }
  split; [|split; [|split]].
  - intros transform. unfold DuckDBWasmProvider.query.
    destruct Hensure as [[e ->]| ->]; [now exists e|]. cbn [bind ret].
    destruct (DuckDBWasmProvider.buildWhereClause p _) as [e|w];
      [now exists e|].
    destruct (DuckDBWasmProvider.buildOrderClause p _) as [e|o];
      [now exists e|].
    unfold DuckDBWasmProvider.buildSelectClause. rewrite Hthrow.
    now eexists.
  - intros column. unfold DuckDBWasmProvider.getUniqueValues.
    destruct Hensure as [[e ->]| ->]; [now exists e|]. cbn [bind ret].
    destruct (DuckDBWasmProvider.assertColumn p column) as [e|c];
      [now exists e|].
    rewrite Hthrow. now eexists.
  - intros rowId column value. unfold DuckDBWasmProvider.updateCell.
    destruct Hensure as [[e ->]| ->]; [now exists e|]. cbn [bind ret].
    destruct (ToNumber h rowId); [|now eexists].
    rewrite Hthrow. now eexists.
  - intros rowId. unfold DuckDBWasmProvider.deleteRow.
    destruct (ToNumber h rowId); [|now eexists].
    rewrite Hthrow. now eexists.
Qed.

Lemma table_name_is_checked_witness :
  Notions.plainName (Notions.tableName Samples.badTable) = false
  /\ DuckDBWasmProvider.getTableIdentifier Samples.badTable
     = throw (Error "Invalid table name: data; DROP TABLE data").
Proof.
  exact (conj eq_refl
           (proj1 (proj2 (table_name_is_checked Examples.host
                            Samples.badTable) eq_refl))).
Defined.

(** ** Reading the schema *)

Lemma strict_eq_str (v : Value) (s : string) :
  strict_eq v (VStr s) = true <-> v = VStr s.
Proof.
  destruct v as [| |b|n|t|a]; simpl; try (split; discriminate).
  rewrite String.eqb_eq. split; [now intros ->|now intros [= ->]].
Qed.

(** X24.  [getSchema] on a provider without columns asks the engine to
    describe the table and, when the engine answers, records one column per
    row of the answer: a column name is known afterwards iff some row gives
    it.  When the answer has rows the schema is kept: later [getSchema] and
    [ensureSchema] calls return it without the engine.  When the answer has
    no row, [assertColumn] throws [Schema is not loaded] for every name. *)
Theorem getSchema_reads_description (conn : string -> Result (list Row))
  (p : DuckDBWasmProvider.t) (tableName : string) (rows : list Row) :
  Schema.columns (DuckDBWasmProvider.schema p) = [] ->
  DuckDBWasmProvider.getTableIdentifier p = ret tableName ->
  conn ("DESCRIBE " ++ tableName)%string = ret rows ->
  exists p',
    DuckDBWasmProvider.getSchema conn p
    = ret (p', DuckDBWasmProvider.schema p')
    /\ DuckDBWasmProvider.ensureSchema conn p = ret p'
    /\ DuckDBWasmProvider.table p' = DuckDBWasmProvider.table p
    /\ map fst (Schema.columns (DuckDBWasmProvider.schema p'))
       = map Notions.describedName rows
    /\ (forall c,
           Props.knownColumn p' c = true
           <-> exists row,
                 In row rows /\ Notions.describedName row = VStr c)
    /\ (rows <> [] ->
        forall conn',
          DuckDBWasmProvider.getSchema conn' p'
          = ret (p', DuckDBWasmProvider.schema p')
          /\ DuckDBWasmProvider.ensureSchema conn' p' = ret p')
    /\ (rows = [] ->
        forall c,
          DuckDBWasmProvider.assertColumn p' c
          = throw (Error "Schema is not loaded; cannot validate columns.")).
Proof.
  intros Hempty Htable Hconn.
  unfold DuckDBWasmProvider.ensureSchema, DuckDBWasmProvider.getSchema.
  rewrite Hempty, Htable. cbn [List.length Nat.eqb Nat.ltb Nat.leb bind ret].
  unfold DuckDBWasmProvider.queryAll. rewrite Hconn. cbn [bind ret fst].
  eexists (DuckDBWasmProvider.make _ _ _).
  split; [reflexivity|]. split; [reflexivity|].
  cbn [DuckDBWasmProvider.table DuckDBWasmProvider.schema Schema.columns].
  split; [reflexivity|]. split; [|split; [|split]].
  - rewrite map_map. reflexivity.
  - intros c. unfold Props.knownColumn.
    cbn [DuckDBWasmProvider.columnSet]. unfold arr_includes.
    rewrite existsb_exists, map_map. split.
    + intros [v [Hin Heq]]. apply in_map_iff in Hin as [row [<- Hin]].
      exists row. split; [exact Hin|]. now apply strict_eq_str.
    + intros [row [Hin Heq]]. exists (VStr c). split.
      * apply in_map_iff. exists row. split; [exact Heq|exact Hin].
      * now apply strict_eq_str.
  - intros Hrows conn'. destruct rows as [|row rows]; [congruence|].
    split; reflexivity.
  - intros -> c. reflexivity.
Qed.

Lemma getSchema_reads_description_witness :
  Schema.columns (DuckDBWasmProvider.schema Samples.unloaded) = []
  /\ exists p',
       DuckDBWasmProvider.getSchema Samples.describing Samples.unloaded
       = ret (p', DuckDBWasmProvider.schema p')
       /\ Props.knownColumn p' "salary" = true.
Proof.
  destruct (getSchema_reads_description Samples.describing Samples.unloaded
              _ Samples.description eq_refl eq_refl eq_refl)
    as [p' [Hget [_ [_ [_ [Hknown _]]]]]].
  assert (Hrow : exists row,
             In row Samples.description
             /\ Notions.describedName row = VStr "salary").
  { eexists. split; [right; left; reflexivity|reflexivity]. }
  exact (conj eq_refl
           (ex_intro _ p' (conj Hget (proj2 (Hknown "salary") Hrow)))).
Defined.

(** ** Unique values through the engine *)

(** X25.  [getUniqueValues] of the SQL provider, schema loaded: for a column
    outside the column set it throws, whatever the engine; for a known
    column it issues one [SELECT DISTINCT] statement on the quoted column,
    passes on the exception of the engine if it raises one, and otherwise
    returns the [value] fields of the answer that are neither null nor
    undefined, in order. *)
Theorem sql_getUniqueValues (conn : string -> Result (list Row))
  (p : DuckDBWasmProvider.t) (column : string) :
  Schema.columns (DuckDBWasmProvider.schema p) <> [] ->
  (Props.knownColumn p column = false ->
   exists message,
     DuckDBWasmProvider.getUniqueValues conn p column
     = throw (Error message))
  /\ (Props.knownColumn p column = true ->
      forall tableName,
        DuckDBWasmProvider.getTableIdentifier p = ret tableName ->
        let statement :=
          ("SELECT DISTINCT " ++ DuckDBWasmProvider.quoteIdentifier column
           ++ " AS value FROM " ++ tableName)%string in
        (forall e,
            conn statement = throw e ->
            DuckDBWasmProvider.getUniqueValues conn p column = throw e)
        /\ (forall rows,
               conn statement = ret rows ->
               exists values,
                 DuckDBWasmProvider.getUniqueValues conn p column
                 = ret (p, values)
                 /\ values
                    = filter (fun v => negb (is_nullish v))
                        (map (fun row => get row "value") rows)
                 /\ forall v,
                      In v values
                      <-> is_nullish v = false
                          /\ exists row,
                               In row rows /\ get row "value" = v)).
Proof.
  intros Hcols. split.
  - intros Hk. unfold DuckDBWasmProvider.getUniqueValues.
    rewrite (ensureSchema_loaded conn p Hcols). cbn [bind ret].
    destruct (assertColumn_unknown p column Hk) as [m ->].
    now exists m.
  - intros Hk tableName Htable statement.
    unfold DuckDBWasmProvider.getUniqueValues.
    rewrite (ensureSchema_loaded conn p Hcols). cbn [bind ret].
    rewrite (assertColumn_known p column Hk Hcols), Htable. cbn [bind ret].
    unfold DuckDBWasmProvider.queryAll. fold statement. split.
    + intros e ->. reflexivity.
    + intros rows ->. cbn [bind ret]. eexists. split; [reflexivity|].
      split; [reflexivity|]. intros v. rewrite filter_In, in_map_iff.
      rewrite negb_true_iff. split.
      * intros [[row [Hget Hin]] Hnull]. split; [exact Hnull|].
        now exists row.
      * intros [Hnull [row [Hin Hget]]]. split; [|exact Hnull].
        now exists row.
Qed.

Lemma sql_getUniqueValues_witness :
  Schema.columns (DuckDBWasmProvider.schema Examples.duck) <> []
  /\ Props.knownColumn Examples.duck "nope" = false
  /\ exists message,
       DuckDBWasmProvider.getUniqueValues Examples.silent Examples.duck
         "nope" = throw (Error message).
Proof.
  assert (Hcols : Schema.columns (DuckDBWasmProvider.schema Examples.duck)
                  <> []) by discriminate.
  exact (conj Hcols (conj eq_refl
           (proj1 (sql_getUniqueValues Examples.silent Examples.duck "nope"
                     Hcols) eq_refl))).
Defined.

(** ** The letter case of operators *)

Lemma upper_chars_upper (c : ascii) :
  toUpperCase (upper_chars c) = upper_chars c.
Proof. destruct c as [[] [] [] [] [] [] [] []]; reflexivity. Qed.

Lemma toUpperCase_app (a b : string) :
  toUpperCase (a ++ b) = (toUpperCase a ++ toUpperCase b)%string.
Proof.
  induction a as [|c a IH]; [reflexivity|]. cbn [append toUpperCase].
  now rewrite IH, append_assoc.
Qed.

Lemma toUpperCase_idempotent (s : string) :
  toUpperCase (toUpperCase s) = toUpperCase s.
Proof.
  induction s as [|c s IH]; [reflexivity|]. cbn [toUpperCase].
  now rewrite toUpperCase_app, upper_chars_upper, IH.
Qed.

Lemma upper_chars_nonEmpty (c : ascii) : Props.nonEmpty (upper_chars c) = true.
Proof.
  unfold upper_chars.
  repeat match goal with |- context [if ?b then _ else _] => destruct b end;
    reflexivity.
Qed.

Lemma toUpperCase_empty (s : string) :
  String.eqb (toUpperCase s) EmptyString = String.eqb s EmptyString.
Proof.
  destruct s as [|c s]; [reflexivity|]. cbn [toUpperCase].
  pose proof (upper_chars_nonEmpty c) as Hne.
  destruct (upper_chars c); [discriminate|]. reflexivity.
Qed.

(** X26.  The SQL translator reads the operator of a filter without regard
    to letter case: the clause of a filter is the clause of the same filter
    with its operator in upper case, and so is the [WHERE] clause of a
    filter list. *)
Theorem sql_operator_ignores_case (p : DuckDBWasmProvider.t)
  (filters : list CanonicalFilter.t) :
  let upper f :=
    Props.withOperator (toUpperCase (CanonicalFilter.operator f)) f in
  (forall f,
      DuckDBWasmProvider.buildClause p (upper f)
      = DuckDBWasmProvider.buildClause p f)
  /\ DuckDBWasmProvider.buildWhereClause p (map upper filters)
     = DuckDBWasmProvider.buildWhereClause p filters.
Proof.
  intros upper.
  assert (Hone : forall f,
             DuckDBWasmProvider.buildClause p (upper f)
             = DuckDBWasmProvider.buildClause p f).
  { intros f. unfold DuckDBWasmProvider.buildClause, upper, Props.withOperator.
    cbn [CanonicalFilter.operator CanonicalFilter.column
         CanonicalFilter.value].
    rewrite toUpperCase_empty.
    destruct (String.eqb (CanonicalFilter.operator f) EmptyString);
      [reflexivity|].
    now rewrite toUpperCase_idempotent. }
  split; [exact Hone|]. unfold DuckDBWasmProvider.buildWhereClause.
  rewrite length_map. destruct (List.length filters =? 0); [reflexivity|].
  f_equal. induction filters as [|f fs IH]; [reflexivity|].
  cbn [map mapM]. now rewrite Hone, IH.
Qed.

Lemma sql_operator_ignores_case_witness :
  DuckDBWasmProvider.buildClause Examples.duck
    (Props.withOperator "LIKE" Samples.lowerLike)
  = DuckDBWasmProvider.buildClause Examples.duck Samples.lowerLike.
Proof.
  exact (proj1 (sql_operator_ignores_case Examples.duck []) Samples.lowerLike).
Defined.

(* ================================================================== *)
(** * Groups of entries through the builder and the native executor *)
(* ================================================================== *)

Lemma strict_eq_sym (a b : Value) : strict_eq a b = strict_eq b a.
Proof.
  destruct a as [| |x|x|x|x], b as [| |y|y|y|y]; simpl; try reflexivity.
  - now destruct x, y.
  - apply Z.eqb_sym.
  - apply String.eqb_sym.
Qed.

Lemma existsb_pointwise {A : Type} (f g : A -> bool) (l : list A) :
  (forall x, f x = g x) -> existsb f l = existsb g l.
Proof.
  intros Hfg. induction l as [|x l IH]; [reflexivity|]. simpl.
  now rewrite Hfg, IH.
Qed.

Lemma canonicalFor_passes (h : Host) (row : Row) (c : string)
  (out : list CanonicalFilter.t) :
  NativeArrayProvider.matchesFilters h row out = true ->
  NativeArrayProvider.matchesFilters h row (Props.canonicalFor c out) = true.
Proof.
  unfold NativeArrayProvider.matchesFilters, Props.canonicalFor.
  rewrite !forallb_forall. intros Hall f Hin.
  apply filter_In in Hin as [Hin _]. now apply Hall.
Qed.

(** X27.  Two or more enabled entries on one column, through
    [toTransformState] and the native executor: whatever the operators of
    the entries, a record passes the column's canonical filter, under the
    mode [ANY], iff its field equals one of the entries' values (or, for an
    array field, holds one of them); under another mode, iff an array field
    holds all the values, or, for a field that is not an array, iff every
    value is one of the trimmed comma-separated pieces of the field's
    text.  A record that passes the whole transform passes the column's
    filter. *)
Theorem column_group_filter (h : Host) (st : SpecManager.State) (c : string)
  (e e' : FilterEntry.t) (rest : list FilterEntry.t) (row : Row) :
  Props.group c (SpecManager.filters st) = e :: e' :: rest ->
  let out := TransformState.filters (SpecManager.toTransformState h st) in
  let values := map FilterEntry.value (e :: e' :: rest) in
  let field := get row c in
  let passes :=
    NativeArrayProvider.matchesFilters h row (Props.canonicalFor c out) in
  (NativeArrayProvider.matchesFilters h row out = true -> passes = true)
  /\ (SpecManager.modeOf e = "ANY" ->
      passes
      = existsb (fun v => NativeArrayProvider.checkCondition h field "=" v)
          values)
  /\ (SpecManager.modeOf e <> "ANY" ->
      isArray field = true ->
      passes
      = forallb (fun v => NativeArrayProvider.checkCondition h field "=" v)
          values)
  /\ (SpecManager.modeOf e <> "ANY" ->
      isArray field = false ->
      passes
      = forallb
          (fun v =>
             arr_includes
               (map VStr (map trim (split "," (ToString field)))) v)
          values).
Proof.
  intros Hgroup out values field passes.
  split; [apply canonicalFor_passes|].
  pose proof (canonicalFor_group h st c) as Hcan. rewrite Hgroup in Hcan.
  fold out in Hcan. unfold passes. rewrite Hcan.
  unfold NativeArrayProvider.matchesFilters, NativeArrayProvider.matchesFilter.
  cbn [forallb CanonicalFilter.columns CanonicalFilter.column
       CanonicalFilter.operator CanonicalFilter.value].
  fold field. fold values. rewrite andb_true_r.
  split; [|split].
  - intros ->. cbn [String.eqb Ascii.eqb Bool.eqb].
    unfold NativeArrayProvider.checkCondition.
    cbn [String.eqb Ascii.eqb Bool.eqb].
    destruct field as [| |x|x|x|a]; try reflexivity;
      unfold arr_includes; apply existsb_pointwise; intros v;
      apply strict_eq_sym.
  - intros Hmode Harr. apply String.eqb_neq in Hmode. rewrite Hmode.
    unfold NativeArrayProvider.checkCondition.
    cbn [String.eqb Ascii.eqb Bool.eqb].
    destruct field as [| |x|x|x|a]; try discriminate. reflexivity.
  - intros Hmode Harr. apply String.eqb_neq in Hmode. rewrite Hmode.
    unfold NativeArrayProvider.checkCondition.
    cbn [String.eqb Ascii.eqb Bool.eqb].
    destruct field as [| |x|x|x|a]; try discriminate; reflexivity.
Qed.

Lemma column_group_filter_witness :
  Props.group "department"
    (SpecManager.filters
       (Examples.state [Samples.salesAny; Samples.marketingAny]))
  = [Samples.salesAny; Samples.marketingAny]
  /\ SpecManager.modeOf Samples.salesAny = "ANY"
  /\ NativeArrayProvider.matchesFilters Examples.host Samples.bob
       (Props.canonicalFor "department"
          (TransformState.filters
             (SpecManager.toTransformState Examples.host
                (Examples.state [Samples.salesAny; Samples.marketingAny]))))
     = existsb
         (fun v =>
            NativeArrayProvider.checkCondition Examples.host
              (get Samples.bob "department") "=" v)
         [VStr "Sales"; VStr "Marketing"].
Proof.
  exact (conj eq_refl (conj eq_refl
           (proj1 (proj2 (column_group_filter Examples.host
                            (Examples.state
                               [Samples.salesAny; Samples.marketingAny])
                            "department" Samples.salesAny
                            Samples.marketingAny [] Samples.bob eq_refl))
              eq_refl))).
Defined.

(** ** Adding an entry *)

Section Push.
Import Props SpecManager.

Lemma filtersByColumn_push (fs : list FilterEntry.t) (f : FilterEntry.t) :
  filtersByColumn (fs ++ [f])
  = if FilterEntry.enabled f then addFilter (filtersByColumn fs) f
    else filtersByColumn fs.
Proof.
  unfold filtersByColumn. rewrite filter_app. cbn [filter].
  destruct (FilterEntry.enabled f).
  - now rewrite fold_left_app.
  - now rewrite app_nil_r.
Qed.

Lemma addFilter_new (gs : list (string * Group)) (f : FilterEntry.t) :
  findGroup (FilterEntry.column f) gs = None ->
  addFilter gs f = gs ++ [(FilterEntry.column f, (f, []))].
Proof.
  induction gs as [|[k g] gs IH]; [reflexivity|]. cbn [findGroup addFilter].
  destruct (String.eqb k (FilterEntry.column f)); [discriminate|].
  intros Hf. cbn [app]. now rewrite IH.
Qed.

Lemma addFilter_keys (gs : list (string * Group)) (f : FilterEntry.t)
  (g : Group) :
  findGroup (FilterEntry.column f) gs = Some g ->
  map fst (addFilter gs f) = map fst gs.
Proof.
  induction gs as [|[k g'] gs IH]; [discriminate|].
  cbn [findGroup addFilter].
  destruct (String.eqb k (FilterEntry.column f)); [reflexivity|].
  intros Hf. cbn [map fst]. now rewrite IH.
Qed.

Lemma canonical_keys (gs : list (string * Group)) :
  wellKeyed gs ->
  map CanonicalFilter.column (map toCanonical gs) = map fst gs.
Proof.
  intros [_ Hcol]. induction Hcol as [|cg gs Hcg Hcol IH]; [reflexivity|].
  cbn [map]. now rewrite IH, (toCanonical_column cg Hcg).
Qed.

Lemma group_push (c : string) (fs : list FilterEntry.t) (f : FilterEntry.t) :
  group c (fs ++ [f])
  = group c fs
    ++ (if FilterEntry.enabled f && String.eqb (FilterEntry.column f) c
        then [f] else []).
Proof.
  unfold group. rewrite !filter_app. cbn [filter].
  destruct (FilterEntry.enabled f); cbn [filter andb]; [|reflexivity].
  now destruct (String.eqb (FilterEntry.column f) c).
Qed.

End Push.

(** X28.  The transform after [addFilter] of an entry: a disabled entry
    leaves it unchanged; an enabled entry on a column without enabled entry
    appends one canonical filter with the entry's operator and value; an
    enabled entry on a column that has some keeps the columns of the
    canonical filters and their order.  In every case the canonical filters
    of the other columns, the sort and the pagination are unchanged. *)
Theorem addFilter_then_transform (h : Host) (st : SpecManager.State)
  (f : FilterEntry.t) :
  let out := TransformState.filters (SpecManager.toTransformState h st) in
  let st' := SpecManager.pushFilter st f in
  let out' := TransformState.filters (SpecManager.toTransformState h st') in
  (FilterEntry.enabled f = false ->
   SpecManager.toTransformState h st' = SpecManager.toTransformState h st)
  /\ (FilterEntry.enabled f = true ->
      Props.group (FilterEntry.column f) (SpecManager.filters st) = [] ->
      out'
      = out ++ [CanonicalFilter.make (FilterEntry.column f) None
                  (FilterEntry.operator f) (FilterEntry.value f) None])
  /\ (FilterEntry.enabled f = true ->
      Props.group (FilterEntry.column f) (SpecManager.filters st) <> [] ->
      map CanonicalFilter.column out' = map CanonicalFilter.column out)
  /\ (forall c,
         c <> FilterEntry.column f ->
         Props.canonicalFor c out' = Props.canonicalFor c out)
  /\ TransformState.sort (SpecManager.toTransformState h st')
     = TransformState.sort (SpecManager.toTransformState h st)
  /\ TransformState.pagination (SpecManager.toTransformState h st')
     = TransformState.pagination (SpecManager.toTransformState h st).
Proof.
  intros out st' out'.
  assert (Hout' : out'
                  = map SpecManager.toCanonical
                      (SpecManager.filtersByColumn
                         (SpecManager.filters st ++ [f]))) by reflexivity.
  pose proof (entriesOf_filtersByColumn (FilterEntry.column f)
                (SpecManager.filters st)) as Hent.
  unfold Props.entriesOf in Hent.
  split; [|split; [|split; [|split; [|split]]]].
  - intros Hoff. unfold SpecManager.toTransformState. f_equal.
    unfold st'. cbn [SpecManager.pushFilter SpecManager.filters].
    now rewrite filtersByColumn_push, Hoff.
  - intros Hon Hgroup. rewrite Hout', filtersByColumn_push, Hon.
    rewrite addFilter_new.
    + now rewrite map_app.
    + destruct (Props.findGroup _ _) as [[e r]|]; [|reflexivity].
      rewrite Hgroup in Hent. discriminate.
  - intros Hon Hgroup. rewrite Hout', filtersByColumn_push, Hon.
    unfold out, SpecManager.toTransformState. cbn [TransformState.filters].
    rewrite !canonical_keys
      by (try apply wellKeyed_addFilter; apply wellKeyed_filtersByColumn).
    destruct (Props.findGroup _ _) as [g|] eqn:Hf;
      [|now rewrite <- Hent in Hgroup].
    exact (addFilter_keys _ _ _ Hf).
  - intros c Hc. unfold out', out. rewrite !canonicalFor_group.
    unfold st'. cbn [SpecManager.pushFilter SpecManager.filters].
    rewrite group_push.
    destruct (String.eqb_spec (FilterEntry.column f) c) as [Heq|Hne];
      [congruence|].
    now rewrite andb_false_r, app_nil_r.
  - reflexivity.
  - reflexivity.
Qed.

Lemma addFilter_then_transform_witness :
  FilterEntry.enabled Examples.disabledEntry = false
  /\ SpecManager.toTransformState Examples.host
       (SpecManager.pushFilter (Examples.state [Examples.deptSales])
          Examples.disabledEntry)
     = SpecManager.toTransformState Examples.host
         (Examples.state [Examples.deptSales]).
Proof.
  exact (conj eq_refl
           (proj1 (addFilter_then_transform Examples.host
                     (Examples.state [Examples.deptSales])
                     Examples.disabledEntry) eq_refl)).
Defined.
